(** * Research stream route: event ingestion, reconciliation and re-emission

    A shallow embedding of [src/app/(chat)/api/research/route.ts]: the line
    framer of [streamFromLangGraph], the format detector
    [processLangGraphEvent] and the two reconcilers [processResearchEvent]
    (legacy batch elements) and [processV5DataPart] (discrete typed events),
    together with the properties of the specification that concern them;
    then the request side of the route, [POST] and its [execute] with the
    connection to the upstream service, and the message converters of
    [utils/message-converter.ts] that [POST] calls.

    Modelling choices
    - A parsed JSON datum is a [value]; the JavaScript [undefined] is a value
      of its own.  JSON numbers are restricted to the integers of absolute
      value at most 2^53, which a double holds exactly and which
      [Number.prototype.toString] prints in decimal.
    - A string is the sequence of the bytes of its UTF-8 encoding, so the
      model covers the strings without lone surrogates, which are those
      [TextDecoder] produces.  [trim] and the dot of the regular expression
      know the white space and the line terminators of ECMAScript beyond
      ASCII by their encodings.  The prefixes the route slices off are ASCII,
      so that a count of bytes and a count of code units agree on them.
    - An object is the list of its properties; a property is read at its
      first occurrence in the list.
    - Two objects or arrays that come out of the parser are never the same
      reference, so [===] between them is [false].
    - A chunk is the text the streaming decoder returns for one read; since
      the decoder carries incomplete sequences over to the next read, two
      ways of cutting the same bytes give texts with the same concatenation.
    - The route mutates one [ResearchState], writes to one sink and reads the
      clock; the three are the components of a [Machine], threaded through a
      state-and-exception monad in which an exception keeps the mutations
      made before it was raised.  The clock of the machine gives the time
      stamps of the reconcilers; the times the route reads for the name of
      the run and for its logs, the stall check of the read loop among them,
      reach neither the state nor the sink and are left out.
    - The sink records the value of each part at the time it is written;
      in the route a part shares its arrays with the state, which no
      property below depends on.
    - A request is taken after its body went through the schema and the
      session was looked up; a message is a record with the optional fields
      of the schema.  What the upstream service does is a datum of the
      model ([Upstream]): the request sent to it has no effect on the
      state or the sink. *)

From Stdlib Require Import String Ascii ZArith List Bool Lia.
From stdpp Require Import base tactics option list gmap strings pretty.

Set Warnings "-register-all".
Local Open Scope string_scope.
Local Open Scope list_scope.

(** ** JSON values and the JavaScript operators the route applies to them *)

Inductive value : Type :=
| VUndef
| VNull
| VBool (b : bool)
| VNum (n : Z)
| VStr (s : string)
| VArr (items : list value)
| VObj (fields : list (string * value)).

(** [ToBoolean]. *)
Definition truthy (v : value) : bool :=
  match v with
  | VUndef | VNull => false
  | VBool b => b
  | VNum n => negb (n =? 0)%Z
  | VStr s => negb (s =? "")%string
  | VArr _ | VObj _ => true
  end.

Definition nullish (v : value) : bool :=
  match v with VUndef | VNull => true | _ => false end.

(** [a || b]. *)
Definition js_or (a b : value) : value := if truthy a then a else b.

(** [a === b]; also the key comparison of [Set] and [Map], which differs
    from it on [NaN] only. *)
Definition strict_eq (a b : value) : bool :=
  match a, b with
  | VUndef, VUndef => true
  | VNull, VNull => true
  | VBool x, VBool y => Bool.eqb x y
  | VNum x, VNum y => (x =? y)%Z
  | VStr x, VStr y => (x =? y)%string
  | _, _ => false
  end.

(** [v === 'literal']. *)
Definition is_str (v : value) (lit : string) : bool := strict_eq v (VStr lit).

Fixpoint lookup_field (k : string) (fs : list (string * value)) : value :=
  match fs with
  | [] => VUndef
  | (k', v) :: rest => if (k =? k')%string then v else lookup_field k rest
  end.

(** [v.k]: [None] is the [TypeError] raised on [null] and [undefined]; a
    primitive or an array has none of the properties the route reads. *)
Definition prop (v : value) (k : string) : option value :=
  match v with
  | VUndef | VNull => None
  | VObj fs => Some (lookup_field k fs)
  | _ => Some VUndef
  end.

(** [v?.k]. *)
Definition opt_prop (v : value) (k : string) : value :=
  match prop v k with Some x => x | None => VUndef end.

(** [ToPropertyKey], used by [Object.fromEntries] on the keys of a [Map]. *)
Fixpoint to_property_key (v : value) : string :=
  match v with
  | VUndef => "undefined"
  | VNull => "null"
  | VBool true => "true"
  | VBool false => "false"
  | VNum n => pretty n
  | VStr s => s
  | VArr l =>
      String.concat ","
        (List.map (fun x => if nullish x then "" else to_property_key x) l)
  | VObj _ => "[object Object]"
  end.

(** ** Strings *)

(** [s.startsWith(p)]. *)
Definition startsWith (p s : string) : bool := String.prefix p s.

(** [s.slice(n)] and [s.substring(n)] for a literal [n >= 0]. *)
Fixpoint slice (n : nat) (s : string) : string :=
  match n, s with
  | O, _ => s
  | S _, EmptyString => EmptyString
  | S n', String _ r => slice n' r
  end.

(** *** White space

    [String.prototype.trim] removes the code points of [WhiteSpace] and
    [LineTerminator]: U+0009 to U+000D and U+0020, which are one byte each,
    and U+00A0, U+1680, U+2000 to U+200A, U+2028, U+2029, U+202F, U+205F,
    U+3000 and U+FEFF, which are two or three bytes in UTF-8. *)

Definition is_space (c : ascii) : bool :=
  let n := nat_of_ascii c in
  (((9 <=? n) && (n <=? 13)) || (n =? 32))%nat.

Definition byte (n : nat) (c : ascii) : bool := (nat_of_ascii c =? n)%nat.

(** U+00A0 is [C2 A0]. *)
Definition is_space2 (c1 c2 : ascii) : bool := byte 194 c1 && byte 160 c2.

(** U+1680 is [E1 9A 80]; U+2000 to U+200A are [E2 80 80] to [E2 80 8A];
    U+2028, U+2029 and U+202F are [E2 80 A8], [E2 80 A9] and [E2 80 AF];
    U+205F is [E2 81 9F]; U+3000 is [E3 80 80]; U+FEFF is [EF BB BF]. *)
Definition is_space3 (c1 c2 c3 : ascii) : bool :=
  (byte 225 c1 && byte 154 c2 && byte 128 c3)
  || (byte 226 c1 && byte 128 c2
      && (((128 <=? nat_of_ascii c3) && (nat_of_ascii c3 <=? 138))%nat
          || byte 168 c3 || byte 169 c3 || byte 175 c3))
  || (byte 226 c1 && byte 129 c2 && byte 159 c3)
  || (byte 227 c1 && byte 128 c2 && byte 128 c3)
  || (byte 239 c1 && byte 187 c2 && byte 191 c3).

(** [s.trimStart()]. *)
Fixpoint trim_start (s : string) : string :=
  match s with
  | String c1 r1 =>
      if is_space c1 then trim_start r1
      else match r1 with
           | String c2 r2 =>
               if is_space2 c1 c2 then trim_start r2
               else match r2 with
                    | String c3 r3 =>
                        if is_space3 c1 c2 c3 then trim_start r3 else s
                    | EmptyString => s
                    end
           | EmptyString => s
           end
  | EmptyString => EmptyString
  end.

(** The string is made of white space only. *)
Definition blank (s : string) : bool := (trim_start s =? "")%string.

(** [s.trimEnd()]: the string up to its longest suffix of white space.  A
    suffix that starts inside a character starts with a continuation byte,
    and is not blank. *)
Fixpoint trim_end (s : string) : string :=
  match s with
  | EmptyString => EmptyString
  | String c r => if blank (String c r) then EmptyString else String c (trim_end r)
  end.

(** [s.trim()]. *)
Definition trim (s : string) : string := trim_end (trim_start s).

(** [s.replace(pat, '')]: the first occurrence of [pat] is removed. *)
Fixpoint replace_first (pat s : string) : string :=
  if String.prefix pat s then slice (String.length pat) s
  else match s with
       | EmptyString => EmptyString
       | String c r => String c (replace_first pat r)
       end.

Definition newline : ascii := "010"%char.

(** [s.split('\n')]: the fragments between the newlines, never empty. *)
Fixpoint split_lines (s : string) : list string :=
  match s with
  | EmptyString => [EmptyString]
  | String c r =>
      if Ascii.eqb c newline then EmptyString :: split_lines r
      else match split_lines r with
           | [] => [String c EmptyString]
           | l :: ls => String c l :: ls
           end
  end.

(** A line terminator starts here: U+000A, U+000D, U+2028 or U+2029; the
    dot of a regular expression matches every other character. *)
Definition line_terminator (s : string) : bool :=
  match s with
  | String c1 r1 =>
      Ascii.eqb c1 newline || byte 13 c1
      || match r1 with
         | String c2 (String c3 _) =>
             byte 226 c1 && byte 128 c2 && (byte 168 c3 || byte 169 c3)
         | _ => false
         end
  | EmptyString => false
  end.

(** The match of [/^2:([^[]+)\[(.+)\]$/]: the part name runs to the first
    opening bracket and is not empty; the payload is what lies between that
    bracket and a closing bracket that ends the string, is not empty and has
    no line terminator. *)
Fixpoint until_bracket (s : string) : option (string * string) :=
  match s with
  | EmptyString => None
  | String c r =>
      if Ascii.eqb c "["%char then Some (EmptyString, r)
      else match until_bracket r with
           | Some (n, rest) => Some (String c n, rest)
           | None => None
           end
  end.

Fixpoint bracket_body (s : string) : option string :=
  match s with
  | EmptyString => None
  | String c EmptyString => if Ascii.eqb c "]"%char then Some EmptyString else None
  | String c r =>
      if line_terminator s then None
      else match bracket_body r with
           | Some b => Some (String c b)
           | None => None
           end
  end.

Definition match_data_part (s : string) : option (string * string) :=
  if startsWith "2:" s then
    match until_bracket (slice 2 s) with
    | Some (partName, rest) =>
        match partName, bracket_body rest with
        | String _ _, Some (String c b) => Some (partName, String c b)
        | _, _ => None
        end
    | None => None
    end
  else None.


(** ** The session state ([ResearchState] of [lib/types/research]) *)

Record Analyst := {
  name : value;
  role : value;
  affiliation : value;
  esgFocus : value;
  esgCategories : value }.

Record InterviewMessage := {
  msg_analystName : value;
  msg_role : value;
  content : value;
  timestamp : value }.

Record SearchResult := {
  tool : value;
  query : value;
  resultsCount : value;
  sources : list string }.

Record Progress := {
  current : value;
  total : value;
  message : value }.

Record ErrorInfo := {
  err_message : value;
  err_type : value }.

(** A JavaScript [Map]: its entries in insertion order. *)
Abbreviation jsmap A := (list (value * A)).

Record ResearchState := {
  topic : string;
  phase : value;
  analysts : list Analyst;
  interviews : jsmap (list InterviewMessage);
  sections : jsmap value;
  searches : list SearchResult;
  progress : Progress;
  error : option ErrorInfo }.

Definition set_phase (p : value) (s : ResearchState) : ResearchState :=
  {| topic := topic s; phase := p; analysts := analysts s;
     interviews := interviews s; sections := sections s;
     searches := searches s; progress := progress s; error := error s |}.

Definition set_analysts (l : list Analyst) (s : ResearchState) : ResearchState :=
  {| topic := topic s; phase := phase s; analysts := l;
     interviews := interviews s; sections := sections s;
     searches := searches s; progress := progress s; error := error s |}.

Definition set_interviews (m : jsmap (list InterviewMessage)) (s : ResearchState)
  : ResearchState :=
  {| topic := topic s; phase := phase s; analysts := analysts s;
     interviews := m; sections := sections s;
     searches := searches s; progress := progress s; error := error s |}.

Definition set_sections (m : jsmap value) (s : ResearchState) : ResearchState :=
  {| topic := topic s; phase := phase s; analysts := analysts s;
     interviews := interviews s; sections := m;
     searches := searches s; progress := progress s; error := error s |}.

Definition set_searches (l : list SearchResult) (s : ResearchState) : ResearchState :=
  {| topic := topic s; phase := phase s; analysts := analysts s;
     interviews := interviews s; sections := sections s;
     searches := l; progress := progress s; error := error s |}.

Definition set_progress (p : Progress) (s : ResearchState) : ResearchState :=
  {| topic := topic s; phase := phase s; analysts := analysts s;
     interviews := interviews s; sections := sections s;
     searches := searches s; progress := p; error := error s |}.

Definition set_error (e : ErrorInfo) (s : ResearchState) : ResearchState :=
  {| topic := topic s; phase := phase s; analysts := analysts s;
     interviews := interviews s; sections := sections s;
     searches := searches s; progress := progress s; error := Some e |}.

(** The state [POST] creates for a query. *)
Definition initial_state (query : string) : ResearchState :=
  {| topic := query; phase := VStr "initialization"; analysts := [];
     interviews := []; sections := []; searches := [];
     progress := {| current := VNum 0; total := VNum 0;
                    message := VStr "Starting research..." |};
     error := None |}.

(** *** [Map] operations *)

(** The position of the entry whose key is the same value as [k]. *)
Fixpoint map_index {A : Type} (k : value) (m : jsmap A) : option nat :=
  match m with
  | [] => None
  | (k', _) :: rest =>
      if strict_eq k' k then Some O
      else match map_index k rest with Some i => Some (S i) | None => None end
  end.

(** [m.has(k)]. *)
Definition map_has {A : Type} (k : value) (m : jsmap A) : bool :=
  match map_index k m with Some _ => true | None => false end.

(** [m.set(k, v)]. *)
Definition map_set {A : Type} (k : value) (v : A) (m : jsmap A) : jsmap A :=
  match map_index k m with
  | Some i => <[i := (k, v)]> m
  | None => m ++ [(k, v)]
  end.

(** [if (!m.has(k)) m.set(k, [])] followed by [m.get(k)]: the map and the
    position of the array that [get] returns.  A key that is an object is
    found by no [has], and [get] then returns the array just set for it. *)
Definition transcript_slot (k : value) (m : jsmap (list InterviewMessage))
  : jsmap (list InterviewMessage) * nat :=
  match map_index k m with
  | Some i => (m, i)
  | None => (m ++ [(k, [])], length m)
  end.

(** The array stored at a position, and [push] on it. *)
Definition slot_messages (i : nat) (m : jsmap (list InterviewMessage))
  : list InterviewMessage :=
  match m !! i with Some (_, msgs) => msgs | None => [] end.

Definition slot_push (i : nat) (x : InterviewMessage)
    (m : jsmap (list InterviewMessage)) : jsmap (list InterviewMessage) :=
  match m !! i with
  | Some (k, msgs) => <[i := (k, msgs ++ [x])]> m
  | None => m
  end.

(** [Object.fromEntries(m)]: a later entry overrides an earlier one with the
    same property key. *)
Definition fromEntries {A : Type} (m : jsmap A) : gmap string A :=
  fold_left (fun acc kv => <[to_property_key (fst kv) := snd kv]> acc) m ∅.

(** *** The analyst roster *)

(** [l.findIndex(p)]; [None] is the result [-1]. *)
Fixpoint findIndex {A : Type} (p : A -> bool) (l : list A) : option nat :=
  match l with
  | [] => None
  | x :: rest =>
      if p x then Some O
      else match findIndex p rest with Some i => Some (S i) | None => None end
  end.

(** Replace in place the entry of the same name, or push. *)
Definition upsert_analyst (a : Analyst) (l : list Analyst) : list Analyst :=
  match findIndex (fun x => strict_eq (name x) (name a)) l with
  | Some i => <[i := a]> l
  | None => l ++ [a]
  end.

(** [new Set(state.analysts.map(a => a.name)).has(n)]. *)
Definition processed_has (l : list Analyst) (n : value) : bool :=
  existsb (fun x => strict_eq (name x) n) l.

(** ** The sink *)

Inductive Payload : Type :=
| PAnalysts (analysts : list Analyst)
| PProgress (progress : Progress) (phase : value)
| PInterview (analystName status turnNumber messagePreview timestamp metadata : value)
| PInterviews (interviews : gmap string (list InterviewMessage))
| PSections (sections : gmap string value)
| PError (error : option ErrorInfo)
| PErrorData (errorData : value)
| PData (data : value)
| PTextDelta (delta id : value)
| PComplete (phase : value) (analysts : list Analyst)
    (interviews : gmap string (list InterviewMessage))
    (sections : gmap string value) (searches : list SearchResult).

(** One [writer.write(...)]: the [type] of the part, what it carries, and
    its [transient] flag ([false] when the part has none). *)
Record UIPart := {
  part_type : string;
  part_payload : Payload;
  part_transient : bool }.

(** ** The machine and its monad *)

Record Machine := {
  state : ResearchState;
  sink : list UIPart;
  ticks : nat }.

(** A computation returns a result, or raises ([None]); either way it
    leaves a machine behind. *)
Definition M (A : Type) : Type := Machine -> option A * Machine.

Definition ret {A : Type} (a : A) : M A := fun m => (Some a, m).

Definition bind {A B : Type} (c : M A) (k : A -> M B) : M B :=
  fun m => match c m with
           | (Some a, m') => k a m'
           | (None, m') => (None, m')
           end.

Definition throw {A : Type} : M A := fun m => (None, m).

(** [try { c } catch (e) { console.error(...) }]. *)
Definition try_catch (c : M unit) : M unit :=
  fun m => (Some tt, snd (c m)).

Notation "'let!' x ':=' c 'in' k" := (bind c (fun x => k))
  (at level 10, x name, c at level 100, k at level 200).
Notation "'do!' c 'in' k" := (bind c (fun _ => k))
  (at level 10, c at level 100, k at level 200).

Definition get_state : M ResearchState := fun m => (Some (state m), m).

Definition modify (f : ResearchState -> ResearchState) : M unit :=
  fun m => (Some tt, {| state := f (state m); sink := sink m; ticks := ticks m |}).

Definition write (p : UIPart) : M unit :=
  fun m => (Some tt, {| state := state m; sink := sink m ++ [p]; ticks := ticks m |}).

(** [v.k] as a computation. *)
Definition get (v : value) (k : string) : M value :=
  match prop v k with Some x => ret x | None => throw end.

(** [for (const x of l) { f x }]. *)
Fixpoint for_each {A : Type} (f : A -> M unit) (l : list A) : M unit :=
  match l with
  | [] => ret tt
  | x :: rest => do! f x in for_each f rest
  end.

Definition persistent (ty : string) (p : Payload) : UIPart :=
  {| part_type := ty; part_payload := p; part_transient := false |}.

Definition transient (ty : string) (p : Payload) : UIPart :=
  {| part_type := ty; part_payload := p; part_transient := true |}.

Definition typeof_object (v : value) : bool :=
  match v with VObj _ | VArr _ | VNull => true | _ => false end.

(** [ty?.startsWith('data-')]: [undefined] on a nullish [ty], a
    [TypeError] on a [ty] that is no string. *)
Definition type_startsWith_data (ty : value) : M bool :=
  match ty with
  | VUndef | VNull => ret false
  | VStr s => ret (startsWith "data-" s)
  | _ => throw
  end.

(** The role inferred from an interview status. *)
Definition role_of_status_legacy (status : value) : value :=
  if is_str status "questioning" then VStr "user"
  else if is_str status "answering" then VStr "assistant"
  else VStr "assistant".

Definition role_of_status_v5 (status : value) : value :=
  if is_str status "questioning" then VStr "user" else VStr "assistant".

(** [!lastMessage || lastMessage.content !== messagePreview]. *)
Definition differs_from_last (messages : list InterviewMessage)
    (messagePreview : value) : bool :=
  match last messages with
  | None => true
  | Some lastMessage => negb (strict_eq (content lastMessage) messagePreview)
  end.

(** The terminal part, built from the state alone. *)
Definition snapshot (s : ResearchState) : UIPart :=
  persistent "data-research-complete"
    (PComplete (VStr "completed") (analysts s) (fromEntries (interviews s))
       (fromEntries (sections s)) (searches s)).

Section Route.

(** [JSON.parse]; [None] is its [SyntaxError]. *)
Variable JSON_parse : string -> option value.

(** [clock n] is what [new Date().toISOString()] returns the [n]-th time a
    reconciler evaluates it for a time stamp.  The other readings of the
    route (the name of the run, the stall check of the read loop, the log of
    [onFinish]) go to the request and to the log, and reading the clock
    changes nothing: they are not counted. *)
Variable clock : nat -> string.

Definition parse (text : string) : M value :=
  match JSON_parse text with Some v => ret v | None => throw end.

Definition now : M value :=
  fun m => (Some (VStr (clock (ticks m))),
            {| state := state m; sink := sink m; ticks := S (ticks m) |}).

(** *** [processResearchEvent]: one element of a legacy batch *)

Definition processResearchEvent (event : value) : M unit :=
  let! ty := get event "type" in
  if is_str ty "analyst" then
    let! data := get event "data" in
    let! n := get data "name" in
    let! r := get data "role" in
    let! af := get data "affiliation" in
    let! fo := get data "esgFocus" in
    let! ca := get data "esgCategories" in
    let analyst := {| name := n; role := r; affiliation := af;
                      esgFocus := fo; esgCategories := ca |} in
    do! modify (fun s => set_analysts (upsert_analyst analyst (analysts s)) s) in
    let! s := get_state in
    write (persistent "data-analysts" (PAnalysts (analysts s)))
  else if is_str ty "progress" then
    let! cur := get event "current" in
    let! tot := get event "total" in
    let! msg := get event "message" in
    do! modify (fun s =>
          set_progress {| current := js_or cur (current (progress s));
                          total := js_or tot (total (progress s));
                          message := msg |} s) in
    let! ph := get event "phase" in
    do! (if truthy ph then modify (set_phase ph) else ret tt) in
    let! s := get_state in
    write (transient "data-progress" (PProgress (progress s) (phase s)))
  else if is_str ty "interview" then
    let! data := get event "data" in
    let! analystName := get data "analystName" in
    let! status := get data "status" in
    let! messagePreview := get data "messagePreview" in
    let! turnNumber := get data "turnNumber" in
    let! md := get event "metadata" in
    let metadata := js_or md (VObj []) in
    let! t0 := now in
    do! write (transient "data-interview"
                 (PInterview analystName status turnNumber messagePreview t0 metadata)) in
    let! s := get_state in
    let i := snd (transcript_slot analystName (interviews s)) in
    do! modify (set_interviews (fst (transcript_slot analystName (interviews s)))) in
    if truthy messagePreview && truthy analystName then
      let! s1 := get_state in
      let messages := slot_messages i (interviews s1) in
      let! mrole := get metadata "role" in
      let role := js_or mrole (role_of_status_legacy status) in
      if differs_from_last messages messagePreview then
        let! t1 := now in
        do! modify (fun s =>
              set_interviews
                (slot_push i {| msg_analystName := analystName; msg_role := role;
                                content := messagePreview; timestamp := t1 |}
                   (interviews s)) s) in
        let! s2 := get_state in
        write (persistent "data-interviews" (PInterviews (fromEntries (interviews s2))))
      else ret tt
    else ret tt
  else if is_str ty "search" then
    let! data := get event "data" in
    let! status := get data "status" in
    let! rc := get data "resultsCount" in
    if is_str status "completed" && truthy rc then
      let! tl := get data "tool" in
      let! q := get data "query" in
      modify (fun s =>
        set_searches (searches s ++ [{| tool := tl; query := q;
                                        resultsCount := rc; sources := [] |}]) s)
    else ret tt
  else if is_str ty "section" then
    let! data := get event "data" in
    let! analystName := get data "analystName" in
    let! contentPreview := get data "contentPreview" in
    do! modify (fun s =>
          set_sections (map_set analystName contentPreview (sections s)) s) in
    let! s := get_state in
    write (persistent "data-sections" (PSections (fromEntries (sections s))))
  else if is_str ty "error" then
    let! data := get event "data" in
    let! e := get data "error" in
    let! et := get data "errorType" in
    do! modify (set_error {| err_message := e; err_type := et |}) in
    let! s := get_state in
    write (transient "data-error" (PError (error s)))
  else if is_str ty "metadata" then ret tt
  else ret tt.

(** *** [processV5DataPart]: one discrete typed event *)

Definition processV5DataPart (event : value) : M unit :=
  let! ty := get event "type" in
  let! data := get event "data" in
  let! id := get event "id" in
  let! tr := get event "transient" in
  match ty with
  | VStr type =>
    let eventType := replace_first "data-" type in
    if (eventType =? "analyst")%string then
      let! n := get data "name" in
      let! r := get data "role" in
      let! af := get data "affiliation" in
      let! fo := get data "esgFocus" in
      let! ca := get data "esgCategories" in
      let analyst := {| name := n; role := r; affiliation := af;
                        esgFocus := fo; esgCategories := ca |} in
      do! modify (fun s => set_analysts (upsert_analyst analyst (analysts s)) s) in
      if negb (truthy tr) then
        let! s := get_state in
        write (persistent "data-analysts" (PAnalysts (analysts s)))
      else ret tt
    else if (eventType =? "progress")%string then
      do! (if truthy tr then write (transient "data-progress" (PData data))
           else ret tt) in
      let! cur := get data "current" in
      let! tot := get data "total" in
      let! msg := get data "message" in
      do! modify (fun s =>
            set_progress {| current := js_or cur (current (progress s));
                            total := js_or tot (total (progress s));
                            message := msg |} s) in
      let! ph := get data "phase" in
      if truthy ph then modify (set_phase ph) else ret tt
    else if (eventType =? "interview")%string then
      let! analystName := get data "analystName" in
      let! status := get data "status" in
      let! messagePreview := get data "messagePreview" in
      let! s := get_state in
      let i := snd (transcript_slot analystName (interviews s)) in
      do! modify (set_interviews (fst (transcript_slot analystName (interviews s)))) in
      if truthy messagePreview then
        let! s1 := get_state in
        let messages := slot_messages i (interviews s1) in
        let! md := get data "metadata" in
        let role := js_or (opt_prop md "role") (role_of_status_v5 status) in
        if differs_from_last messages messagePreview then
          let! ts := get data "timestamp" in
          let! t1 := (if truthy ts then ret ts else now) in
          do! modify (fun s =>
                set_interviews
                  (slot_push i {| msg_analystName := analystName; msg_role := role;
                                  content := messagePreview; timestamp := t1 |}
                     (interviews s)) s) in
          let! s2 := get_state in
          write (persistent "data-interviews" (PInterviews (fromEntries (interviews s2))))
        else ret tt
      else ret tt
    else if (eventType =? "search")%string then
      if truthy tr then write (transient "data-search" (PData data)) else ret tt
    else if (eventType =? "section")%string then
      let! analystName := get data "analystName" in
      let! contentPreview := get data "contentPreview" in
      do! (if truthy id
           then modify (fun s =>
                  set_sections (map_set analystName contentPreview (sections s)) s)
           else ret tt) in
      if negb (truthy tr) then
        let! s := get_state in
        write (persistent "data-sections" (PSections (fromEntries (sections s))))
      else ret tt
    else if (eventType =? "error")%string then
      do! (if truthy tr then write (transient "data-error" (PData data))
           else ret tt) in
      let! e := get data "error" in
      let! et := get data "errorType" in
      modify (set_error {| err_message := e; err_type := et |})
    else if (eventType =? "metadata")%string then
      if truthy tr then write (transient "data-metadata" (PData data)) else ret tt
    else ret tt
  | _ => throw
  end.

(** *** [processLangGraphEvent]: format detection *)

(** The loop over a legacy batch: an analyst whose name was in the roster
    when the line arrived is skipped. *)
Definition process_batch (processedAnalystNames : value -> bool)
    (items : list value) : M unit :=
  for_each (fun item =>
    let! ity := get item "type" in
    let! idata := get item "data" in
    if is_str ity "analyst" && processedAnalystNames (opt_prop idata "name")
    then ret tt
    else processResearchEvent item) items.

(** The raw token protocol on a trimmed string. *)
Definition process_raw_token (trimmed : string) : M unit :=
  if startsWith "0:" trimmed then
    write (persistent "text-delta"
             (PTextDelta (VStr (slice 2 trimmed)) (VStr "research-text")))
  else if startsWith "2:" trimmed then
    match match_data_part trimmed with
    | Some (partName, jsonData) =>
        try_catch (
          let! data := parse jsonData in
          processV5DataPart
            (VObj [("type", VStr ("data-" ++ partName)); ("data", data)]))
    | None => ret tt
    end
  else if startsWith "3:" trimmed then
    try_catch (
      let! errorData := parse (slice 2 trimmed) in
      write (transient "data-error" (PErrorData errorData)))
  else ret tt.

(** The passthrough token objects. *)
Definition process_text_part (event ty : value) : M unit :=
  if is_str ty "text-start" then ret tt
  else if is_str ty "text-delta" then
    let! delta := get event "delta" in
    if truthy delta then
      let! id := get event "id" in
      write (persistent "text-delta"
               (PTextDelta delta (js_or id (VStr "research-text"))))
    else ret tt
  else if is_str ty "text-end" then ret tt
  else ret tt.

Definition processLangGraphEvent (event : value) : M unit :=
  (* the fields read for the log line *)
  let! ty := get event "type" in
  let! ns := get event "ns" in
  let! s0 := get_state in
  let processedAnalystNames := processed_has (analysts s0) in
  match event with
  | VArr items => process_batch processedAnalystNames items
  | _ =>
    let! isData :=
      (if typeof_object event then type_startsWith_data ty else ret false) in
    if isData then
      let! data := get event "data" in
      let n := opt_prop data "name" in
      if is_str ty "data-analyst" && truthy n && processedAnalystNames n then ret tt
      else if is_str ty "data-heartbeat" then ret tt
      else processV5DataPart event
    else if is_str ty "updates" then ret tt
    else if is_str ty "messages" || is_str ty "messages/partial" then ret tt
    else
      let! data := get event "data" in
      if is_str ty "custom" && truthy data then
        match data with
        | VArr items => process_batch processedAnalystNames items
        | _ => ret tt
        end
      else
        match event with
        | VStr raw => process_raw_token (trim raw)
        | _ =>
            if typeof_object event && truthy ty then process_text_part event ty
            else ret tt
        end
  end.

(** *** The read loop of [streamFromLangGraph] *)

Definition process_line (line : string) : M unit :=
  if (trim line =? "")%string then ret tt
  else if startsWith "data: " line then
    try_catch (
      let! data := parse (slice 6 line) in
      processLangGraphEvent data)
  else ret tt.

(** One [reader.read()] that is not [done]: the lines completed by the
    chunk, and the fragment kept for the next one. *)
Definition frame (buffer chunk : string) : list string * string :=
  let lines := split_lines (buffer ++ chunk) in
  (removelast lines, List.last lines "").

(** The loop over the reads up to the one that is [done].  After the lines
    of a chunk the route compares two readings of [Date.now()] and logs a
    warning when they are far apart; the loop goes on either way. *)
Fixpoint read_loop (chunks : list string) (buffer : string) : M string :=
  match chunks with
  | [] => ret buffer
  | chunk :: rest =>
      do! for_each process_line (fst (frame buffer chunk)) in
      read_loop rest (snd (frame buffer chunk))
  end.

(** The lines the framer hands to the loop body over a whole stream. *)
Fixpoint framed_lines (chunks : list string) (buffer : string) : list string :=
  match chunks with
  | [] => []
  | chunk :: rest =>
      fst (frame buffer chunk) ++ framed_lines rest (snd (frame buffer chunk))
  end.

Fixpoint final_buffer (chunks : list string) (buffer : string) : string :=
  match chunks with
  | [] => buffer
  | chunk :: rest => final_buffer rest (snd (frame buffer chunk))
  end.

(** From the first read to the terminal part; the connection to the
    upstream service is outside the model. *)
Definition streamFromLangGraph (chunks : list string) : M unit :=
  let! buffer := read_loop chunks "" in
  let! s := get_state in
  write (snapshot s).

End Route.

(** ** The upstream shapes of section 6 of the specification *)

(** A legacy batch element [{ type: kind, data: d }]. *)
Definition legacy_element (kind : string) (d : value) : value :=
  VObj [("type", VStr kind); ("data", d)].

(** A discrete typed event [{ type: "data-" + kind, data: d }]. *)
Definition discrete_event (kind : string) (d : value) : value :=
  VObj [("type", VStr ("data-" ++ kind)); ("data", d)].

(** The same with its optional [id] and [transient]; [VUndef] stands for
    a field that is absent. *)
Definition typed_event (kind : string) (d id tr : value) : value :=
  VObj [("type", VStr ("data-" ++ kind)); ("data", d); ("id", id);
        ("transient", tr)].

(** The analyst both reconcilers build from a payload. *)
Definition analyst_of (d : value) : Analyst :=
  {| name := opt_prop d "name"; role := opt_prop d "role";
     affiliation := opt_prop d "affiliation"; esgFocus := opt_prop d "esgFocus";
     esgCategories := opt_prop d "esgCategories" |}.

(** The kinds for which the two reconcilers do the same. *)
Definition reconciled_alike (kind : string) : bool :=
  negb (existsb (String.eqb kind)
          ["progress"; "interview"; "search"; "section"; "error"]).


(** The kinds [processResearchEvent] has a case for. *)
Definition recognized (kind : string) : bool :=
  existsb (String.eqb kind)
    ["analyst"; "progress"; "interview"; "search"; "section"; "error"; "metadata"].

(** A value that is compared by content. *)
Definition primitive (v : value) : bool :=
  match v with VArr _ | VObj _ => false | _ => true end.

(** No two entries of the roster have the same name. *)
Definition unique_names (l : list Analyst) : Prop :=
  forall i j a b, l !! i = Some a -> l !! j = Some b ->
    strict_eq (name a) (name b) = true -> i = j.

(** The names seen so far, each once, in order of first appearance. *)
Definition add_name (seen : list value) (n : value) : list value :=
  if existsb (fun x => strict_eq x n) seen then seen else seen ++ [n].

Definition distinct_names (names : list value) : list value :=
  fold_left add_name names [].

(** The transcript of a participant. *)
Definition transcript_of (n : value) (m : jsmap (list InterviewMessage))
  : list InterviewMessage :=
  match map_index n m with Some i => slot_messages i m | None => [] end.

(** A batch of the one legacy element and the discrete event of the same
    payload leave the same state and the same sink. *)
Definition same_behaviour (JSON_parse : string -> option value)
    (clock : nat -> string) (kind : string) (d : value) (m : Machine) : Prop :=
  let legacy :=
    processLangGraphEvent JSON_parse clock (VArr [legacy_element kind d]) m in
  let typed := processLangGraphEvent JSON_parse clock (discrete_event kind d) m in
  state (snd legacy) = state (snd typed) /\ sink (snd legacy) = sink (snd typed).

(** A legacy progress element: [ProgressEvent] carries its fields beside
    [type], not under [data]. *)
Definition legacy_progress (cur tot msg ph : value) : value :=
  VObj [("type", VStr "progress"); ("current", cur); ("total", tot);
        ("message", msg); ("phase", ph)].

(** What a progress event with these fields does to the state. *)
Definition progress_effect (cur tot msg ph : value) (s s' : ResearchState) : Prop :=
  progress s' = {| current := js_or cur (current (progress s));
                   total := js_or tot (total (progress s));
                   message := msg |}
  /\ phase s' = (if truthy ph then ph else phase s)
  /\ analysts s' = analysts s /\ interviews s' = interviews s
  /\ sections s' = sections s /\ searches s' = searches s
  /\ error s' = error s /\ topic s' = topic s.

(** The search entry the legacy reconciler stores. *)
Definition search_of (d : value) : SearchResult :=
  {| tool := opt_prop d "tool"; query := opt_prop d "query";
     resultsCount := opt_prop d "resultsCount"; sources := [] |}.

Definition text_delta (delta : string) : UIPart :=
  persistent "text-delta" (PTextDelta (VStr delta) (VStr "research-text")).

Definition emit (p : UIPart) (m : Machine) : Machine :=
  {| state := state m; sink := sink m ++ [p]; ticks := ticks m |}.

(** The terminal part is recognised by its type. *)
Definition is_complete (p : UIPart) : bool :=
  (part_type p =? "data-research-complete")%string.


(** A line of the stream that carries analysts only: a legacy batch of
    analyst elements, or one discrete analyst event. *)
Inductive AnalystLine : Type :=
| AnalystBatch (payloads : list value)
| AnalystEvent (d id tr : value).

Definition line_event (l : AnalystLine) : value :=
  match l with
  | AnalystBatch payloads => VArr (List.map (legacy_element "analyst") payloads)
  | AnalystEvent d id tr => typed_event "analyst" d id tr
  end.

Definition line_payloads (l : AnalystLine) : list value :=
  match l with
  | AnalystBatch payloads => payloads
  | AnalystEvent d _ _ => [d]
  end.

(** A line [data: <json>] whose JSON parses to [event]. *)
Definition carries (JSON_parse : string -> option value) (line : string)
    (event : value) : Prop :=
  startsWith "data: " line = true /\ JSON_parse (slice 6 line) = Some event.

(** What a line of the stream is to the loop body: a line that carries the
    event of an analyst line, or ([None]) a line the body passes over: a
    blank line, a line without the [data: ] prefix, or one whose JSON does
    not parse. *)
Definition reads (JSON_parse : string -> option value) (line : string)
    (l : option AnalystLine) : Prop :=
  match l with
  | Some al => carries JSON_parse line (line_event al)
  | None => (trim line =? "")%string = true
            \/ startsWith "data: " line = false
            \/ JSON_parse (slice 6 line) = None
  end.

(** An interview event in either shape: a legacy element
    [{type: "interview", data: d, metadata: md}] or a discrete event. *)
Inductive InterviewEvent : Type :=
| LegacyInterview (d md : value)
| TypedInterview (d id tr : value).


Definition reconcile_interview (clock : nat -> string) (e : InterviewEvent)
  : M unit :=
  match e with
  | LegacyInterview d md =>
      processResearchEvent clock
        (VObj [("type", VStr "interview"); ("data", d); ("metadata", md)])
  | TypedInterview d id tr =>
      processV5DataPart clock (typed_event "interview" d id tr)
  end.



(** ** Predicates on machines and computations *)

(** [c] keeps [P], whether it returns or raises. *)
Definition preserves {A : Type} (P : Machine -> Prop) (c : M A) : Prop :=
  forall m, P m -> P (snd (c m)).

(** The roster invariant. *)
Definition roster_unique (m : Machine) : Prop :=
  unique_names (analysts (state m)).

(** No part of the sink is a terminal part. *)
Definition no_complete (m : Machine) : Prop :=
  Forall (fun p => is_complete p = false) (sink m).

Definition with_analysts (l : list Analyst) (m : Machine) : Machine :=
  {| state := set_analysts l (state m); sink := sink m; ticks := ticks m |}.


(** ** Values for the examples *)

Definition example_clock (n : nat) : string := "2025-01-01T00:00:00.000Z".

Definition start (query : string) : Machine :=
  {| state := initial_state query; sink := []; ticks := 0 |}.

Definition quoted (s : string) : string :=
  String (ascii_of_nat 34) (s ++ String (ascii_of_nat 34) "").

Definition nl : string := String newline "".

Definition person (n r : string) : value :=
  VObj [("name", VStr n); ("role", VStr r)].

Definition person_text (n r : string) : string :=
  "{" ++ quoted "name" ++ ":" ++ quoted n ++ ","
      ++ quoted "role" ++ ":" ++ quoted r ++ "}".

Definition element_text (n r : string) : string :=
  "{" ++ quoted "type" ++ ":" ++ quoted "analyst" ++ ","
      ++ quoted "data" ++ ":" ++ person_text n r ++ "}".

(** A batch that names A twice. *)
Definition batch_text : string :=
  "[" ++ element_text "A" "R1" ++ "," ++ element_text "A" "R2" ++ "]".

Definition batch_value : value :=
  VArr [legacy_element "analyst" (person "A" "R1");
        legacy_element "analyst" (person "A" "R2")].

(** A discrete analyst event. *)
Definition typed_text : string :=
  "{" ++ quoted "type" ++ ":" ++ quoted "data-analyst" ++ ","
      ++ quoted "data" ++ ":" ++ person_text "B" "R" ++ ","
      ++ quoted "id" ++ ":" ++ quoted "b" ++ ","
      ++ quoted "transient" ++ ":false}".

Definition typed_value : value :=
  typed_event "analyst" (person "B" "R") (VStr "b") (VBool false).

(** A batch whose second element has no data. *)
Definition broken_text : string :=
  "[" ++ element_text "A" "R1" ++ ",{" ++ quoted "type" ++ ":"
      ++ quoted "analyst" ++ "}," ++ element_text "B" "R" ++ "]".

Definition broken_value : value :=
  VArr ([legacy_element "analyst" (person "A" "R1")]
        ++ VObj [("type", VStr "analyst")]
        :: [legacy_element "analyst" (person "B" "R")]).

(** [JSON.parse] on the texts of the examples. *)
Definition example_parse (text : string) : option value :=
  if (text =? batch_text)%string then Some batch_value
  else if (text =? typed_text)%string then Some typed_value
  else if (text =? broken_text)%string then Some broken_value
  else if (text =? "null")%string then Some VNull
  else if (text =? "5")%string then Some (VNum 5)
  else None.

(** A stream of five lines, cut inside the fourth. *)
Definition example_chunks : list string :=
  ["event: custom" ++ nl ++ "data: " ++ batch_text ++ nl ++ nl ++ "data: ";
   typed_text ++ nl ++ "data: {oops" ++ nl]%string.

Definition completed_search : value :=
  VObj [("tool", VStr "web_search"); ("query", VStr "q");
        ("status", VStr "completed"); ("resultsCount", VNum 5)].

Definition question : value :=
  VObj [("analystName", VStr "A"); ("status", VStr "questioning");
        ("messagePreview", VStr "Q1")].



(** ** Predicates for the further properties *)

Definition topic_is (t : string) (m : Machine) : Prop := topic (state m) = t.

Definition searches_extend (l : list SearchResult) (m : Machine) : Prop :=
  l `prefix_of` searches (state m).

(** Every stored search has a truthy result count and no sources. *)
Definition searches_counted (m : Machine) : Prop :=
  Forall (fun r => truthy (resultsCount r) = true /\ sources r = [])
    (searches (state m)).


(** The transcript of [n] extends [t]. *)
Definition transcript_extends (n : value) (t : list InterviewMessage)
    (m : Machine) : Prop :=
  t `prefix_of` transcript_of n (interviews (state m)).


Definition phase_is (ph : value) (m : Machine) : Prop := phase (state m) = ph.

(** A legacy error element and what it stores. *)
Definition error_of (d : value) : ErrorInfo :=
  {| err_message := opt_prop d "error"; err_type := opt_prop d "errorType" |}.

Definition with_state (s : ResearchState) (m : Machine) : Machine :=
  {| state := s; sink := sink m; ticks := ticks m |}.


(** A map whose keys are strings, each once. *)
Definition string_keyed {A : Type} (m : jsmap A) : Prop :=
  NoDup (List.map fst m) /\ Forall (fun k => exists s, k = VStr s) (List.map fst m).


(** ** Interview events *)

(** [messagePreview] is truthy and is not the content of the last message
    stored for [n]. *)
Definition is_new_message (n p : value) (m : jsmap (list InterviewMessage))
  : bool :=
  let slot := transcript_slot n m in
  truthy p && differs_from_last (slot_messages (snd slot) (fst slot)) p.

(** The message each reconciler builds from an interview event; [t] is what
    the clock shows when the message is built. *)
Definition legacy_message (d md : value) (t : string) : InterviewMessage :=
  {| msg_analystName := opt_prop d "analystName";
     msg_role := js_or (opt_prop (js_or md (VObj [])) "role")
                   (role_of_status_legacy (opt_prop d "status"));
     content := opt_prop d "messagePreview";
     timestamp := VStr t |}.

Definition typed_message (d : value) (t : string) : InterviewMessage :=
  {| msg_analystName := opt_prop d "analystName";
     msg_role := js_or (opt_prop (opt_prop d "metadata") "role")
                   (role_of_status_v5 (opt_prop d "status"));
     content := opt_prop d "messagePreview";
     timestamp := js_or (opt_prop d "timestamp") (VStr t) |}.

(** The transient part the legacy reconciler writes for every interview
    event. *)
Definition interview_hint (d md : value) (t : string) : UIPart :=
  transient "data-interview"
    (PInterview (opt_prop d "analystName") (opt_prop d "status")
       (opt_prop d "turnNumber") (opt_prop d "messagePreview") (VStr t)
       (js_or md (VObj []))).

(** The persistent part that carries the transcripts. *)
Definition interviews_update (s : ResearchState) : UIPart :=
  persistent "data-interviews" (PInterviews (fromEntries (interviews s))).


(** * The request: [utils/message-converter.ts] and [POST] *)

(** ** Messages

    A message that passed [UIMessageSchema]; an optional field that is
    absent is [None].  [args], [result] and the metadata are [any]. *)

Inductive Role : Type := RoleSystem | RoleUser | RoleAssistant.

Definition role_name (r : Role) : string :=
  match r with
  | RoleSystem => "system"
  | RoleUser => "user"
  | RoleAssistant => "assistant"
  end.

Inductive UIMessagePart : Type :=
| TextPart (text : string)
| FilePart (fileId mimeType data : string)
| ReasoningPart (text : string)
| ToolCallPart (toolCallId toolName : string) (args : value)
| ToolResultPart (toolCallId : string) (result : value).

Record UIMessage := {
  ui_id : option string;
  ui_role : Role;
  ui_content : option string;
  ui_parts : option (list UIMessagePart);
  ui_metadata : option value }.

(** [LangGraphMessage]; of [additional_kwargs] the four keys the converters
    read and write. *)
Inductive LangGraphType : Type := human | ai | lg_system.

Record Attachment := {
  att_fileId : string;
  att_mimeType : string;
  att_data : string }.

Record ToolCall := {
  call_id : string;
  call_name : string;
  call_args : value }.

Record ToolResult := {
  tool_call_id : string;
  tool_result : value }.

Record Kwargs := {
  attachments : option (list Attachment);
  tool_calls : option (list ToolCall);
  tool_results : option (list ToolResult);
  kw_metadata : option value }.

Record LangGraphMessage := {
  lg_type : LangGraphType;
  lg_content : string;
  lg_id : option string;
  lg_name : option string;
  additional_kwargs : option Kwargs }.

(** The [{ role, content }] pairs [convertSimpleToLangGraph] takes. *)
Record SimpleMessage := {
  simple_role : string;
  simple_content : string }.

(** ** The converters *)

(** ['\n\n']. *)
Definition paragraph_break : string := String newline (String newline "").

Definition nonempty (s : string) : bool := negb (s =? "")%string.

(** [part.type === 'text' || part.type === 'reasoning']. *)
Definition is_text_or_reasoning (part : UIMessagePart) : bool :=
  match part with
  | TextPart _ | ReasoningPart _ => true
  | _ => false
  end.

(** The texts [extractContent] joins: [filter] on the type, [map] to the
    text, [filter] on the length. *)
Definition content_texts (parts : list UIMessagePart) : list string :=
  List.filter nonempty
    (List.map (fun part =>
                 match part with
                 | TextPart t => t
                 | ReasoningPart t => t
                 | _ => ""
                 end)
       (List.filter is_text_or_reasoning parts)).

(** [extractContent]: the content when it is a string that is not empty,
    else the joined texts of the parts, else the empty string. *)
Definition extractContent (message : UIMessage) : string :=
  match ui_content message, ui_parts message with
  | Some (String c r), _ => String c r
  | _, Some parts => String.concat paragraph_break (content_texts parts)
  | _, None => ""
  end.

(** [convertSimpleToLangGraph]. *)
Definition convertSimpleToLangGraph (messages : list SimpleMessage)
  : list LangGraphMessage :=
  List.map (fun msg =>
    {| lg_type := if (simple_role msg =? "user")%string then human
                  else if (simple_role msg =? "assistant")%string then ai
                  else lg_system;
       lg_content := simple_content msg;
       lg_id := None; lg_name := None; additional_kwargs := None |}) messages.

(** The objects [convertToLangGraphMessages] builds from the parts of one
    type: [filter] on the type, then [map]. *)
Definition attachment_of (part : UIMessagePart) : option Attachment :=
  match part with
  | FilePart f mt d => Some {| att_fileId := f; att_mimeType := mt; att_data := d |}
  | _ => None
  end.

Definition tool_call_of (part : UIMessagePart) : option ToolCall :=
  match part with
  | ToolCallPart i n a => Some {| call_id := i; call_name := n; call_args := a |}
  | _ => None
  end.

Definition tool_result_of (part : UIMessagePart) : option ToolResult :=
  match part with
  | ToolResultPart i r => Some {| tool_call_id := i; tool_result := r |}
  | _ => None
  end.

(** A key of [additional_kwargs] is set when the parts of its type are not
    empty. *)
Definition when_any {A : Type} (l : list A) : option (list A) :=
  match l with [] => None | _ => Some l end.

Definition no_kwargs : Kwargs :=
  {| attachments := None; tool_calls := None; tool_results := None;
     kw_metadata := None |}.

(** [Object.keys(additional_kwargs).length > 0], before the metadata are
    added. *)
Definition has_keys (kw : Kwargs) : bool :=
  match attachments kw, tool_calls kw, tool_results kw with
  | None, None, None => false
  | _, _, _ => true
  end.

(** The body of the [map] in [convertToLangGraphMessages]. *)
Definition convertToLangGraphMessage (message : UIMessage) : LangGraphMessage :=
  let type := match ui_role message with
              | RoleUser => human
              | RoleAssistant => ai
              | RoleSystem => lg_system
              end in
  let content0 := match ui_content message with Some c => c | None => "" end in
  let '(content, kwargs) :=
    match ui_parts message with
    | Some (part :: more) =>
        let parts := part :: more in
        let textParts :=
          List.filter nonempty
            (List.map (fun part =>
                         match part with
                         | TextPart t => t
                         | ReasoningPart t => ("[Reasoning] " ++ t)%string
                         | _ => ""
                         end)
               (List.filter is_text_or_reasoning parts)) in
        (match textParts with
         | [] => content0
         | _ => String.concat paragraph_break textParts
         end,
         {| attachments := when_any (omap attachment_of parts);
            tool_calls := when_any (omap tool_call_of parts);
            tool_results := when_any (omap tool_result_of parts);
            kw_metadata := None |})
    | _ => (content0, no_kwargs)
    end in
  let kwargs1 := if has_keys kwargs then Some kwargs else None in
  {| lg_type := type;
     lg_content := content;
     lg_id := match ui_id message with
              | Some i => if nonempty i then Some i else None
              | None => None
              end;
     lg_name := None;
     additional_kwargs :=
       match ui_metadata message with
       | Some md =>
           if truthy md then
             let spread := match kwargs1 with Some kw => kw | None => no_kwargs end in
             Some {| attachments := attachments spread;
                     tool_calls := tool_calls spread;
                     tool_results := tool_results spread;
                     kw_metadata := Some md |}
           else kwargs1
       | None => kwargs1
       end |}.

Definition convertToLangGraphMessages (messages : list UIMessage)
  : list LangGraphMessage :=
  List.map convertToLangGraphMessage messages.

(** The body of the [map] in [convertFromLangGraphMessages]. *)
Definition convertFromLangGraphMessage (lgMsg : LangGraphMessage) : UIMessage :=
  let role := match lg_type lgMsg with
              | human => RoleUser
              | ai => RoleAssistant
              | lg_system => RoleSystem
              end in
  let parts :=
    (if nonempty (lg_content lgMsg) then [TextPart (lg_content lgMsg)] else [])
    ++ match additional_kwargs lgMsg with
       | Some kw =>
           match attachments kw with
           | Some l =>
               List.map (fun a => FilePart (att_fileId a) (att_mimeType a) (att_data a)) l
           | None => []
           end
           ++ match tool_calls kw with
              | Some l =>
                  List.map (fun c => ToolCallPart (call_id c) (call_name c) (call_args c)) l
              | None => []
              end
           ++ match tool_results kw with
              | Some l =>
                  List.map (fun r => ToolResultPart (tool_call_id r) (tool_result r)) l
              | None => []
              end
       | None => []
       end in
  {| ui_role := role;
     ui_content := Some (lg_content lgMsg);
     ui_id := match lg_id lgMsg with
              | Some i => if nonempty i then Some i else None
              | None => None
              end;
     ui_parts := when_any parts;
     ui_metadata :=
       match additional_kwargs lgMsg with
       | Some kw =>
           match kw_metadata kw with
           | Some md => if truthy md then Some md else None
           | None => None
           end
       | None => None
       end |}.

Definition convertFromLangGraphMessages (lgMessages : list LangGraphMessage)
  : list UIMessage :=
  List.map convertFromLangGraphMessage lgMessages.


(** ** [POST] and the connection to the upstream service *)

(** What a [catch] clause receives: an [Error], with the name of its
    constructor and its message, or a value that is no [Error]. *)
Inductive Thrown : Type :=
| AnError (constructor_name message : string)
| NotAnError.

(** What the upstream service does with the run request: the [fetch]
    rejects (no connection, or the abort after five minutes), as does
    reading the text of a refusal; it answers with a status that is not ok;
    the response has no body; or the body delivers chunks until it is done
    ([failure = None]) or a read rejects. *)
Inductive Upstream : Type :=
| Rejected (e : Thrown)
| NotOk (status : N) (statusText errorBody : string)
| NoBody
| Body (chunks : list string) (failure : option Thrown).

(** The answers of [POST]. *)
Inductive Response : Type :=
| BadRequest
| Unauthorized
| Stream (parts : list UIPart).

(** [{ error: { message, type } }] in the [catch] of [execute]. *)
Definition error_info (e : Thrown) : ErrorInfo :=
  match e with
  | AnError constructor_name message =>
      {| err_message := VStr message; err_type := VStr constructor_name |}
  | NotAnError =>
      {| err_message := VStr "Research failed"; err_type := VStr "UnknownError" |}
  end.

Section Request.

Variable JSON_parse : string -> option value.
Variable clock : nat -> string.

(** [streamFromLangGraph] with its connection: the result is what it
    throws, if anything.  The time in the name of the run goes to the
    upstream service only.  Creating the thread has no effect on the state
    or the sink, whatever its outcome.  The body of the read loop catches what it raises
    ([read_loop_returns]), so the loop ends by a read that is done or that
    rejects. *)
Definition stream_from (up : Upstream) (m : Machine) : option Thrown * Machine :=
  match up with
  | Rejected e => (Some e, m)
  | NotOk status statusText errorBody =>
      (Some (AnError "Error"
               ("Failed to start research: " ++ pretty status ++ " " ++ statusText
                ++ " - " ++ errorBody)),
       m)
  | NoBody => (Some (AnError "Error" "No response body"), m)
  | Body chunks failure =>
      let m1 := snd (read_loop JSON_parse clock chunks "" m) in
      match failure with
      | Some e => (Some e, m1)
      | None => (None, emit (snapshot (state m1)) m1)
      end
  end.

(** [execute] of the stream [POST] creates. *)
Definition execute (up : Upstream) (m : Machine) : Machine :=
  let m0 :=
    emit (persistent "data-research-state"
            (PData (VObj [("phase", phase (state m));
                          ("topic", VStr (topic (state m)))]))) m in
  match stream_from up m0 with
  | (None, m') => m'
  | (Some e, m') => emit (transient "data-error" (PError (Some (error_info e)))) m'
  end.

(** The messages sent upstream as context. *)
Definition langGraphMessages (messages : list UIMessage) : list LangGraphMessage :=
  convertSimpleToLangGraph
    (List.map (fun msg => {| simple_role := role_name (ui_role msg);
                             simple_content := extractContent msg |}) messages).

(** [POST]: [body] is the request body when it parses and passes
    [requestSchema], [signed_in] whether the session has a user. *)
Definition POST (body : option (list UIMessage)) (signed_in : bool)
    (up : Upstream) : Response :=
  match body with
  | None => BadRequest
  | Some messages =>
      if negb signed_in then Unauthorized
      else
        let userMessages :=
          List.filter (fun m => (role_name (ui_role m) =? "user")%string) messages in
        match last userMessages with
        | None => BadRequest
        | Some latestUserMessage =>
            let query := extractContent latestUserMessage in
            if nonempty (trim query)
            then Stream (sink (execute up (start query)))
            else BadRequest
        end
  end.

End Request.

(** ** Predicates on streams and messages *)

(** The part that opens every stream. *)
Definition research_state_part (query : string) : UIPart :=
  persistent "data-research-state"
    (PData (VObj [("phase", VStr "initialization"); ("topic", VStr query)])).

(** The part [execute] writes for what it catches. *)
Definition failure_part (e : Thrown) : UIPart :=
  transient "data-error" (PError (Some (error_info e))).

(** What [new Error(...)] of the route is when it is caught. *)
Definition refusal (status : N) (statusText errorBody : string) : Thrown :=
  AnError "Error"
    ("Failed to start research: " ++ pretty status ++ " " ++ statusText
     ++ " - " ++ errorBody).

(** The user message that the query is taken from is the last one. *)
Definition no_user_message (messages : list UIMessage) : Prop :=
  Forall (fun m => ui_role m <> RoleUser) messages.

(** A message of [LangGraph] that [convertToLangGraphMessages] can have
    built: no name, no empty id, and of [additional_kwargs] no empty array,
    no falsy metadata and no empty object. *)
Definition filled {A : Type} (l : option (list A)) : bool :=
  match l with Some [] => false | _ => true end.

Definition normal_kwargs (kw : Kwargs) : bool :=
  filled (attachments kw) && filled (tool_calls kw) && filled (tool_results kw)
  && match kw_metadata kw with Some md => truthy md | None => true end
  && (has_keys kw || match kw_metadata kw with Some _ => true | None => false end).

Definition normal (lgMsg : LangGraphMessage) : bool :=
  match lg_name lgMsg with None => true | Some _ => false end
  && match lg_id lgMsg with Some i => nonempty i | None => true end
  && match additional_kwargs lgMsg with
     | Some kw => normal_kwargs kw
     | None => true
     end.


(** The sink still starts with the parts [l]. *)
Definition sink_extends (l : list UIPart) (m : Machine) : Prop :=
  l `prefix_of` sink m.


(** What [streamFromLangGraph] throws for each behaviour of the upstream
    service. *)
Definition thrown_by (up : Upstream) : option Thrown :=
  match up with
  | Rejected e => Some e
  | NotOk status statusText errorBody => Some (refusal status statusText errorBody)
  | NoBody => Some (AnError "Error" "No response body")
  | Body _ failure => failure
  end.


(** A message on which the two conversions to [LangGraph] give the same
    content: it has no reasoning part, and not both content and a text part
    that is not empty. *)
Definition is_reasoning (part : UIMessagePart) : bool :=
  match part with ReasoningPart _ => true | _ => false end.

Definition plain (message : UIMessage) : bool :=
  match ui_parts message with
  | None => true
  | Some parts =>
      negb (existsb is_reasoning parts)
      && (match ui_content message with Some c => negb (nonempty c) | None => true end
          || match content_texts parts with [] => true | _ => false end)
  end.

(** A part that [extractContent] reads has no text. *)
Definition no_text (part : UIMessagePart) : Prop :=
  match part with
  | TextPart t | ReasoningPart t => t = ""
  | _ => True
  end.


(** ** Values for the examples of the further properties *)

Definition heartbeat : list (string * value) :=
  [("type", VStr "data-heartbeat");
   ("data", VObj [("timestamp", VStr "2025-01-01T00:00:00.000Z")])].

Definition section_of_A : value :=
  VObj [("analystName", VStr "A"); ("contentPreview", VStr "Preview")].


(** The message the research panel sends for a query. *)
Definition panel_message (query : string) : UIMessage :=
  {| ui_id := None; ui_role := RoleUser; ui_content := None;
     ui_parts := Some [TextPart query]; ui_metadata := None |}.

Definition greeting : UIMessage :=
  {| ui_id := Some "m1"; ui_role := RoleAssistant; ui_content := Some "Hello";
     ui_parts := None; ui_metadata := None |}.

Definition tool_message : LangGraphMessage :=
  {| lg_type := ai; lg_content := "Done"; lg_id := Some "m2"; lg_name := None;
     additional_kwargs :=
       Some {| attachments := None;
               tool_calls := Some [{| call_id := "c1"; call_name := "search";
                                     call_args := VObj [("q", VStr "esg")] |}];
               tool_results := None;
               kw_metadata := None |} |}.


(** ** The analyst events of a stream *)









(** The roster is [l]. *)
Definition roster_is (l : list Analyst) (m : Machine) : Prop :=
  analysts (state m) = l.


(** ** A stream that mixes shapes and kinds *)












(** * Properties *)

(** ** Values and strings *)

Lemma strict_eq_eq (a b : value) : strict_eq a b = true -> a = b.
Proof.
  destruct a, b; simpl; try discriminate; intros H; try reflexivity.
  - apply Bool.eqb_prop in H. congruence.
  - apply Z.eqb_eq in H. congruence.
  - apply String.eqb_eq in H. congruence.
Qed.

Lemma strict_eq_refl (v : value) : primitive v = true -> strict_eq v v = true.
Proof.
  destruct v; simpl; try discriminate; intros _; try reflexivity.
  - apply Bool.eqb_reflx.
  - apply Z.eqb_refl.
  - apply String.eqb_refl.
Qed.

Lemma strict_eq_primitive (a b : value) :
  strict_eq a b = true -> primitive a = true.
Proof. destruct a, b; simpl; congruence. Qed.

Lemma strict_eq_sym (a b : value) : strict_eq a b = strict_eq b a.
Proof.
  destruct a, b; simpl; try reflexivity.
  - destruct b, b0; reflexivity.
  - apply Z.eqb_sym.
  - apply String.eqb_sym.
Qed.

Lemma append_cons (c : ascii) (s t : string) :
  (String c s ++ t)%string = String c (s ++ t)%string.
Proof. reflexivity. Qed.

Lemma append_nil_l (t : string) : ("" ++ t)%string = t.
Proof. reflexivity. Qed.

Lemma append_assoc (s t u : string) :
  ((s ++ t) ++ u)%string = (s ++ (t ++ u))%string.
Proof.
  induction s as [|c s IH]; [reflexivity |].
  rewrite !append_cons. f_equal. exact IH.
Qed.

Lemma replace_first_prefix (pat s : string) :
  replace_first pat (pat ++ s) = s.
Proof.
  assert (Hp : forall p t, String.prefix p (p ++ t) = true).
  { induction p as [|c p IH]; intros t; simpl.
    - destruct t; reflexivity.
    - rewrite IH. destruct (ascii_dec c c); [reflexivity | congruence]. }
  assert (Hs : forall p t, slice (String.length p) (p ++ t) = t).
  { induction p as [|c p IH]; intros t; simpl; [reflexivity | apply IH]. }
  assert (Hu : forall t, replace_first pat t
            = if String.prefix pat t then slice (String.length pat) t
              else match t with
                   | EmptyString => EmptyString
                   | String c r => String c (replace_first pat r)
                   end).
  { intros t. destruct t; reflexivity. }
  rewrite Hu, Hp. apply Hs.
Qed.

Section RouteProperties.

Variable JSON_parse : string -> option value.
Variable clock : nat -> string.

(** ** The two reconcilers compared *)

Lemma same_kind_same_result (kind : string) (d : value) (m : Machine) :
  reconciled_alike kind = true ->
  processResearchEvent clock (legacy_element kind d) m
  = processV5DataPart clock (discrete_event kind d) m.
Proof.
  unfold reconciled_alike. simpl.
  rewrite !orb_false_r, !negb_orb, !andb_true_iff, !negb_true_iff.
  intros (Hp & Hi & Hs & Hc & He).
  unfold processResearchEvent, processV5DataPart, legacy_element, discrete_event.
  remember ("data-" ++ kind)%string as t eqn:Et.
  unfold bind, get, is_str. simpl. subst t. rewrite replace_first_prefix.
  rewrite Hp, Hi, Hs, Hc, He.
  destruct (kind =? "analyst")%string eqn:Ea.
  - destruct d; reflexivity.
  - destruct (kind =? "metadata")%string; reflexivity.
Qed.


(** ** Progress *)

(** C6 (amended).  A progress event replaces [current] and [total] by the
    event's value when that value is truthy and keeps them otherwise; it
    always replaces [message] by the event's, absent or not; it replaces
    the phase exactly when the event's phase is truthy; it changes nothing
    else.  The legacy element carries the fields beside [type], the discrete
    event under [data]. *)
Theorem progress_reconciliation (cur tot msg ph d id tr : value) (m : Machine) :
  progress_effect cur tot msg ph (state m)
    (state (snd (processResearchEvent clock (legacy_progress cur tot msg ph) m)))
  /\ (nullish d = false ->
      progress_effect (opt_prop d "current") (opt_prop d "total")
        (opt_prop d "message") (opt_prop d "phase") (state m)
        (state (snd (processV5DataPart clock (typed_event "progress" d id tr) m)))).
Proof.
  split.
  - unfold processResearchEvent, legacy_progress, bind, get, progress_effect. simpl.
    destruct (truthy ph); simpl; repeat split; reflexivity.
  - intros Hd. unfold processV5DataPart, typed_event, bind, get, progress_effect.
    unfold opt_prop.
    destruct d; try discriminate; simpl; destruct (truthy tr); simpl;
      try (destruct (truthy (lookup_field "phase" fields)));
      simpl; repeat split; reflexivity.
Qed.

(** ** The raw token protocol *)

Lemma trim_end_cons (c : ascii) (r : string) :
  trim_start (String c r) = String c r ->
  trim_end (String c r) = String c (trim_end r).
Proof. intros H. cbn [trim_end]. unfold blank. rewrite H. reflexivity. Qed.

Lemma trim_end_blank (s : string) : blank s = true -> trim_end s = "".
Proof. intros H. destruct s; [reflexivity |]. cbn [trim_end]. rewrite H. reflexivity. Qed.

Lemma trim_text_token (t : string) : trim ("0:" ++ t) = ("0:" ++ trim_end t)%string.
Proof.
  change ("0:" ++ t)%string with (String "0" (String ":" t)).
  change ("0:" ++ trim_end t)%string with (String "0" (String ":" (trim_end t))).
  assert (H0 : forall r, trim_start (String "0" r) = String "0" r)
    by (intros [|c2 [|c3 r3]]; reflexivity).
  assert (H1 : forall r, trim_start (String ":" r) = String ":" r)
    by (intros [|c2 [|c3 r3]]; reflexivity).
  unfold trim. rewrite H0, (trim_end_cons _ _ (H0 _)), (trim_end_cons _ _ (H1 _)).
  reflexivity.
Qed.

Lemma string_event_is_raw_token (raw : string) (m : Machine) :
  processLangGraphEvent JSON_parse clock (VStr raw) m
  = process_raw_token JSON_parse clock (trim raw) m.
Proof. reflexivity. Qed.

Lemma starts_with_cons (a c : ascii) (p s : string) :
  startsWith (String a p) (String c s) = true -> c = a.
Proof.
  unfold startsWith. cbn [String.prefix].
  destruct (ascii_dec a c); [congruence | discriminate].
Qed.

Lemma data_part_starts_with (s partName jsonData : string) :
  match_data_part s = Some (partName, jsonData) ->
  startsWith "0:" s = false /\ startsWith "2:" s = true.
Proof.
  unfold match_data_part. destruct (startsWith "2:" s) eqn:H2; [| discriminate].
  intros _. split; [| reflexivity].
  destruct s as [|c s]; [reflexivity |].
  apply starts_with_cons in H2. subst c. reflexivity.
Qed.

Lemma error_token_starts_with (s : string) :
  startsWith "3:" s = true ->
  startsWith "0:" s = false /\ startsWith "2:" s = false.
Proof.
  intros H3. destruct s as [|c s]; [discriminate |].
  apply starts_with_cons in H3. subst c. split; reflexivity.
Qed.

(** X26.  What the branch of the raw token protocol does.  The string is
    trimmed first.  A token ["0:" ++ t] is then written as a text delta
    under the stream id "research-text" whose delta is [t] without the white
    space that ends it, so [t] itself when it ends in none; a token that
    matches the data part pattern is reconciled as the discrete event of
    that name with the parsed payload, without id or transient flag; a token
    ["3:" ++ json] is written as a transient error part that carries the
    parsed payload. *)
Theorem raw_token_dispatch (m : Machine) :
  (forall t,
     processLangGraphEvent JSON_parse clock (VStr ("0:" ++ t)) m
     = (Some tt, emit (text_delta (trim_end t)) m))
  /\ (forall t,
        trim_end t = t ->
        processLangGraphEvent JSON_parse clock (VStr ("0:" ++ t)) m
        = (Some tt, emit (text_delta t) m))
  /\ (forall raw partName jsonData d,
        match_data_part (trim raw) = Some (partName, jsonData) ->
        JSON_parse jsonData = Some d ->
        processLangGraphEvent JSON_parse clock (VStr raw) m
        = (Some tt, snd (processV5DataPart clock (discrete_event partName d) m)))
  /\ (forall raw errorData,
        startsWith "3:" (trim raw) = true ->
        JSON_parse (slice 2 (trim raw)) = Some errorData ->
        processLangGraphEvent JSON_parse clock (VStr raw) m
        = (Some tt, emit (transient "data-error" (PErrorData errorData)) m)).
Proof.
  assert (Htext : forall t,
            processLangGraphEvent JSON_parse clock (VStr ("0:" ++ t)) m
            = (Some tt, emit (text_delta (trim_end t)) m)).
  { intros t. rewrite string_event_is_raw_token, trim_text_token.
    unfold process_raw_token.
    change ("0:" ++ trim_end t)%string with (String "0" (String ":" (trim_end t))).
    replace (startsWith "0:" (String "0" (String ":" (trim_end t)))) with true
      by (destruct (trim_end t); reflexivity).
    reflexivity. }
  split; [exact Htext |]. split; [| split].
  - intros t Ht. rewrite Htext, Ht. reflexivity.
  - intros raw partName jsonData d Hm Hp.
    rewrite string_event_is_raw_token. unfold process_raw_token.
    destruct (data_part_starts_with _ _ _ Hm) as [H0 H2].
    rewrite H0, H2, Hm. unfold try_catch, bind, parse. rewrite Hp. reflexivity.
  - intros raw errorData H3 Hp.
    rewrite string_event_is_raw_token. unfold process_raw_token.
    destruct (error_token_starts_with _ H3) as [H0 H2].
    rewrite H0, H2, H3. unfold try_catch, bind, parse. rewrite Hp. reflexivity.
Qed.

(** White space beyond ASCII: a no-break space alone is blank, a byte
    order mark before a word and a line separator after it are trimmed, and
    the dot of the data part pattern does not match a line separator. *)
Example unicode_white_space :
  let no_break_space := String (ascii_of_nat 194) (String (ascii_of_nat 160) "") in
  let byte_order_mark :=
    String (ascii_of_nat 239) (String (ascii_of_nat 187)
      (String (ascii_of_nat 191) "")) in
  let line_separator :=
    String (ascii_of_nat 226) (String (ascii_of_nat 128)
      (String (ascii_of_nat 168) "")) in
  trim no_break_space = ""
  /\ trim (byte_order_mark ++ "a" ++ line_separator)%string = "a"
  /\ trim ("a" ++ no_break_space ++ "b")%string
     = ("a" ++ no_break_space ++ "b")%string
  /\ match_data_part ("2:x[1" ++ line_separator ++ "2]")%string = None
  /\ match_data_part ("2:x[1" ++ no_break_space ++ "2]")%string
     = Some ("x", ("1" ++ no_break_space ++ "2")%string).
Proof. repeat split. Qed.

(** ** The line framer *)

Lemma split_lines_cons (c : ascii) (r : string) :
  split_lines (String c r)
  = if Ascii.eqb c newline then EmptyString :: split_lines r
    else String c (hd EmptyString (split_lines r)) :: tl (split_lines r).
Proof.
  simpl. destruct (Ascii.eqb c newline); [reflexivity |].
  destruct (split_lines r) eqn:E; [| reflexivity].
  destruct r; simpl in E; [discriminate |].
  destruct (Ascii.eqb a newline); [discriminate |].
  destruct (split_lines r); discriminate.
Qed.

Lemma split_lines_nonempty (s : string) : split_lines s <> [].
Proof.
  destruct s as [|c r]; [discriminate |].
  rewrite split_lines_cons. destruct (Ascii.eqb c newline); discriminate.
Qed.

(** Splitting a text that continues after [s]: the complete lines of [s]
    are final, its last fragment is continued. *)
Lemma split_lines_app (s t : string) :
  split_lines (s ++ t)
  = removelast (split_lines s)
    ++ split_lines (List.last (split_lines s) EmptyString ++ t).
Proof.
  induction s as [|c r IH]; [reflexivity |].
  rewrite append_cons, !split_lines_cons, IH.
  pose proof (split_lines_nonempty r) as Hne.
  destruct (Ascii.eqb c newline) eqn:Ec.
  - destruct (split_lines r) as [|x xs]; [congruence | reflexivity].
  - destruct (split_lines r) as [|x xs]; [congruence |].
    destruct xs as [|y ys].
    + cbn [removelast List.last hd tl app].
      rewrite append_cons, split_lines_cons, Ec. reflexivity.
    + reflexivity.
Qed.

(** The fragment kept in the buffer holds no newline. *)
Lemma last_fragment_is_one_line (s : string) :
  split_lines (List.last (split_lines s) EmptyString)
  = [List.last (split_lines s) EmptyString].
Proof.
  induction s as [|c r IH]; [reflexivity |].
  rewrite split_lines_cons.
  pose proof (split_lines_nonempty r) as Hne.
  destruct (Ascii.eqb c newline) eqn:Ec.
  - destruct (split_lines r) as [|x xs]; [congruence | exact IH].
  - destruct (split_lines r) as [|x xs]; [congruence |].
    destruct xs as [|y ys]; [| exact IH].
    cbn [hd tl List.last] in *. rewrite split_lines_cons, Ec, IH. reflexivity.
Qed.

Lemma framed_lines_spec (chunks : list string) (buffer : string) :
  split_lines buffer = [buffer] ->
  framed_lines chunks buffer ++ [final_buffer chunks buffer]
  = split_lines (buffer ++ String.concat "" chunks).
Proof.
  revert buffer. induction chunks as [|chunk rest IH]; intros buffer Hb.
  - simpl. replace (buffer ++ "")%string with buffer; [symmetry; exact Hb |].
    clear. induction buffer as [|c b IHb]; [reflexivity |].
    rewrite append_cons, <- IHb. reflexivity.
  - assert (Hc : String.concat "" (chunk :: rest)
                 = (chunk ++ String.concat "" rest)%string).
    { simpl. destruct rest; [| reflexivity].
      simpl. clear. induction chunk as [|c b IHb]; [reflexivity |].
      rewrite append_cons, <- IHb. reflexivity. }
    rewrite Hc. cbn [framed_lines final_buffer]. unfold frame. cbn [fst snd].
    rewrite <- app_assoc, IH by apply last_fragment_is_one_line.
    rewrite <- append_assoc. symmetry. apply split_lines_app.
Qed.

Lemma for_each_app {A : Type} (f : A -> M unit) (l1 l2 : list A) (m : Machine) :
  for_each f (l1 ++ l2) m
  = match for_each f l1 m with
    | (Some _, m') => for_each f l2 m'
    | (None, m') => (None, m')
    end.
Proof.
  revert m. induction l1 as [|x l1 IH]; intros m; [reflexivity |].
  cbn [for_each app]. unfold bind.
  destruct (f x m) as [[[]|] m']; [apply IH | reflexivity].
Qed.

Lemma read_loop_framed (chunks : list string) (buffer : string) (m : Machine) :
  read_loop JSON_parse clock chunks buffer m
  = match for_each (process_line JSON_parse clock) (framed_lines chunks buffer) m with
    | (Some _, m') => (Some (final_buffer chunks buffer), m')
    | (None, m') => (None, m')
    end.
Proof.
  revert buffer m. induction chunks as [|chunk rest IH]; intros buffer m.
  - reflexivity.
  - cbn [read_loop framed_lines final_buffer]. rewrite for_each_app.
    unfold bind.
    destruct (for_each _ (frame buffer chunk).1 m) as [[[]|] m'];
      [apply IH | reflexivity].
Qed.

(** ** Invariants of the machine *)

Section Preservation.

Context (P : Machine -> Prop).

Lemma preserves_ret {A : Type} (a : A) : preserves P (ret a).
Proof. intros m Hm. exact Hm. Qed.

Lemma preserves_throw {A : Type} : preserves P (@throw A).
Proof. intros m Hm. exact Hm. Qed.

Lemma preserves_get_state : preserves P get_state.
Proof. intros m Hm. exact Hm. Qed.

Lemma preserves_get (v : value) (k : string) : preserves P (get v k).
Proof. intros m Hm. unfold get. destruct (prop v k); exact Hm. Qed.

Lemma preserves_parse (text : string) : preserves P (parse JSON_parse text).
Proof. intros m Hm. unfold parse. destruct (JSON_parse text); exact Hm. Qed.

Lemma preserves_bind {A B : Type} (c : M A) (k : A -> M B) :
  preserves P c -> (forall a, preserves P (k a)) -> preserves P (bind c k).
Proof.
  intros Hc Hk m Hm. unfold bind. specialize (Hc m Hm).
  destruct (c m) as [[a|] m']; [apply Hk |]; exact Hc.
Qed.

Lemma preserves_try_catch (c : M unit) : preserves P c -> preserves P (try_catch c).
Proof. intros Hc m Hm. exact (Hc m Hm). Qed.

Lemma preserves_for_each {A : Type} (f : A -> M unit) (l : list A) :
  (forall x, preserves P (f x)) -> preserves P (for_each f l).
Proof.
  intros Hf. induction l as [|x l IH]; [apply preserves_ret |].
  apply preserves_bind; [apply Hf | intros _; exact IH].
Qed.

End Preservation.

(** Walks through a computation; [leaf] settles what it does not know. *)
Ltac preserve_with leaf :=
  repeat first
    [ progress cbv zeta
    | lazymatch goal with
      | |- preserves _ (ret _) => apply preserves_ret
      | |- preserves _ throw => apply preserves_throw
      | |- preserves _ get_state => apply preserves_get_state
      | |- preserves _ (get _ _) => apply preserves_get
      | |- preserves _ (parse _ _) => apply preserves_parse
      | |- preserves _ (try_catch _) => apply preserves_try_catch
      | |- preserves _ (bind _ _) => apply preserves_bind; [| intros ?]
      | |- preserves _ (for_each _ _) => apply preserves_for_each; intros ?
      | |- preserves _ (if ?b then _ else _) => destruct b
      | |- preserves _ (match ?v with _ => _ end) => destruct v
      end
    | leaf ].

(** *** The roster holds each name once *)

Lemma upsert_analyst_cons (a x : Analyst) (l : list Analyst) :
  upsert_analyst a (x :: l)
  = if strict_eq (name x) (name a) then a :: l else x :: upsert_analyst a l.
Proof.
  unfold upsert_analyst. simpl. destruct (strict_eq (name x) (name a)); [reflexivity |].
  destruct (findIndex _ l); reflexivity.
Qed.

Lemma unique_names_cons (x : Analyst) (l : list Analyst) :
  unique_names (x :: l)
  <-> (forall y, y ∈ l -> strict_eq (name x) (name y) = false) /\ unique_names l.
Proof.
  split.
  - intros H. split.
    + intros y Hy. apply list_elem_of_lookup in Hy as [j Hj].
      destruct (strict_eq (name x) (name y)) eqn:E; [| reflexivity].
      specialize (H 0 (S j) x y eq_refl Hj E). discriminate.
    + intros i j a b Ha Hb E. specialize (H (S i) (S j) a b Ha Hb E). congruence.
  - intros [Hx Hl] i j a b Ha Hb E.
    destruct i as [|i], j as [|j]; simpl in Ha, Hb.
    + reflexivity.
    + injection Ha as <-. rewrite (Hx b) in E; [discriminate |].
      apply list_elem_of_lookup. eauto.
    + injection Hb as <-. rewrite strict_eq_sym, (Hx a) in E; [discriminate |].
      apply list_elem_of_lookup. eauto.
    + f_equal. exact (Hl i j a b Ha Hb E).
Qed.

Lemma elem_of_upsert (a y : Analyst) (l : list Analyst) :
  y ∈ upsert_analyst a l -> y = a \/ y ∈ l.
Proof.
  induction l as [|x l IH]; rewrite ?upsert_analyst_cons.
  - unfold upsert_analyst. simpl. intros H. apply list_elem_of_singleton in H. auto.
  - destruct (strict_eq (name x) (name a)); intros H;
      apply elem_of_cons in H as [H | H]; subst; rewrite elem_of_cons; auto.
    destruct (IH H); auto.
Qed.

Lemma unique_names_upsert (a : Analyst) (l : list Analyst) :
  unique_names l -> unique_names (upsert_analyst a l).
Proof.
  induction l as [|x l IH]; intros Hl.
  - unfold upsert_analyst. simpl. intros i j u v Hu Hv _.
    apply lookup_lt_Some in Hu, Hv. simpl in Hu, Hv. lia.
  - rewrite upsert_analyst_cons. apply unique_names_cons in Hl as [Hx Hl].
    destruct (strict_eq (name x) (name a)) eqn:E; apply unique_names_cons.
    + split; [| exact Hl]. apply strict_eq_eq in E. rewrite <- E. exact Hx.
    + split; [| exact (IH Hl)].
      intros y Hy. apply elem_of_upsert in Hy as [-> | Hy]; [exact E | exact (Hx y Hy)].
Qed.

Ltac roster_leaf :=
  idtac;
  match goal with
  | |- preserves roster_unique (modify _) =>
      let m := fresh "m" in let Hm := fresh "Hm" in
      intros m Hm; first [exact Hm | apply unique_names_upsert; exact Hm]
  | |- preserves roster_unique (write _) =>
      let m := fresh "m" in let Hm := fresh "Hm" in intros m Hm; exact Hm
  | |- preserves roster_unique (now _) =>
      let m := fresh "m" in let Hm := fresh "Hm" in intros m Hm; exact Hm
  end.

Lemma processResearchEvent_roster (event : value) :
  preserves roster_unique (processResearchEvent clock event).
Proof. unfold processResearchEvent. preserve_with roster_leaf. Qed.

Lemma processV5DataPart_roster (event : value) :
  preserves roster_unique (processV5DataPart clock event).
Proof. unfold processV5DataPart. preserve_with roster_leaf. Qed.

Lemma processLangGraphEvent_roster (event : value) :
  preserves roster_unique (processLangGraphEvent JSON_parse clock event).
Proof.
  unfold processLangGraphEvent, process_batch, process_raw_token,
    process_text_part, type_startsWith_data.
  preserve_with ltac:(first [ apply processResearchEvent_roster
                            | apply processV5DataPart_roster | roster_leaf ]).
Qed.


Lemma process_line_roster (line : string) :
  preserves roster_unique (process_line JSON_parse clock line).
Proof.
  unfold process_line.
  preserve_with ltac:(apply processLangGraphEvent_roster).
Qed.

Lemma read_loop_roster (chunks : list string) (buffer : string) :
  preserves roster_unique (read_loop JSON_parse clock chunks buffer).
Proof.
  revert buffer. induction chunks as [|chunk rest IH]; intros buffer;
    cbn [read_loop]; preserve_with ltac:(first [apply process_line_roster | apply IH]).
Qed.

(** *** Only the end of the stream writes the terminal part *)

Ltac sink_leaf :=
  idtac;
  match goal with
  | |- preserves no_complete (modify _) =>
      let m := fresh "m" in let Hm := fresh "Hm" in intros m Hm; exact Hm
  | |- preserves no_complete (now _) =>
      let m := fresh "m" in let Hm := fresh "Hm" in intros m Hm; exact Hm
  | |- preserves no_complete (write _) =>
      let m := fresh "m" in let Hm := fresh "Hm" in
      intros m Hm; apply Forall_app; split;
      [exact Hm | repeat constructor]
  end.

Lemma processResearchEvent_sink (event : value) :
  preserves no_complete (processResearchEvent clock event).
Proof. unfold processResearchEvent. preserve_with sink_leaf. Qed.

Lemma processV5DataPart_sink (event : value) :
  preserves no_complete (processV5DataPart clock event).
Proof. unfold processV5DataPart. preserve_with sink_leaf. Qed.

Lemma processLangGraphEvent_sink (event : value) :
  preserves no_complete (processLangGraphEvent JSON_parse clock event).
Proof.
  unfold processLangGraphEvent, process_batch, process_raw_token,
    process_text_part, type_startsWith_data.
  preserve_with ltac:(first [ apply processResearchEvent_sink
                            | apply processV5DataPart_sink | sink_leaf ]).
Qed.

Lemma process_line_sink (line : string) :
  preserves no_complete (process_line JSON_parse clock line).
Proof.
  unfold process_line.
  preserve_with ltac:(apply processLangGraphEvent_sink).
Qed.

Lemma read_loop_sink (chunks : list string) (buffer : string) :
  preserves no_complete (read_loop JSON_parse clock chunks buffer).
Proof.
  revert buffer. induction chunks as [|chunk rest IH]; intros buffer;
    cbn [read_loop]; preserve_with ltac:(first [apply process_line_sink | apply IH]).
Qed.

(** *** The loop does not raise *)

Lemma process_line_returns (line : string) (m : Machine) :
  fst (process_line JSON_parse clock line m) = Some tt.
Proof.
  unfold process_line. destruct (trim line =? "")%string; [reflexivity |].
  destruct (startsWith "data: " line); reflexivity.
Qed.

Lemma for_each_returns {A : Type} (f : A -> M unit) (l : list A) (m : Machine) :
  (forall x m', fst (f x m') = Some tt) -> fst (for_each f l m) = Some tt.
Proof.
  intros Hf. revert m. induction l as [|x l IH]; intros m; [reflexivity |].
  cbn [for_each]. unfold bind. specialize (Hf x m).
  destruct (f x m) as [[[]|] m']; [apply IH | discriminate].
Qed.

Lemma read_loop_returns (chunks : list string) (buffer : string) (m : Machine) :
  fst (read_loop JSON_parse clock chunks buffer m)
  = Some (final_buffer chunks buffer).
Proof.
  rewrite read_loop_framed.
  pose proof (for_each_returns (process_line JSON_parse clock)
                (framed_lines chunks buffer) m (process_line_returns)) as H.
  destruct (for_each _ _ m) as [[[]|] m']; [reflexivity | discriminate].
Qed.


Lemma stream_ends_with_snapshot (chunks : list string) (m : Machine) :
  streamFromLangGraph JSON_parse clock chunks m
  = (Some tt,
     emit (snapshot (state (snd (read_loop JSON_parse clock chunks "" m))))
       (snd (read_loop JSON_parse clock chunks "" m))).
Proof.
  unfold streamFromLangGraph, bind.
  pose proof (read_loop_returns chunks "" m) as H.
  destruct (read_loop JSON_parse clock chunks "" m) as [[b|] m'];
    [reflexivity | discriminate].
Qed.


(** *** The roster and the names seen *)

Lemma legacy_analyst_step (d : value) (m : Machine) :
  nullish d = false ->
  let roster := upsert_analyst (analyst_of d) (analysts (state m)) in
  processResearchEvent clock (legacy_element "analyst" d) m
  = (Some tt, emit (persistent "data-analysts" (PAnalysts roster))
                (with_analysts roster m)).
Proof. destruct d; try discriminate; reflexivity. Qed.

Lemma typed_analyst_step (d id tr : value) (m : Machine) :
  nullish d = false ->
  let roster := upsert_analyst (analyst_of d) (analysts (state m)) in
  processV5DataPart clock (typed_event "analyst" d id tr) m
  = (Some tt,
     if truthy tr then with_analysts roster m
     else emit (persistent "data-analysts" (PAnalysts roster))
            (with_analysts roster m)).
Proof.
  unfold processV5DataPart, typed_event, bind, get. simpl.
  destruct d; try discriminate; destruct (truthy tr); reflexivity.
Qed.

Lemma names_upsert (a : Analyst) (l : list Analyst) :
  List.map name (upsert_analyst a l) = add_name (List.map name l) (name a).
Proof.
  induction l as [|x l IH]; [reflexivity |].
  rewrite upsert_analyst_cons. unfold add_name in *. cbn [List.map existsb].
  destruct (strict_eq (name x) (name a)) eqn:E; cbn [orb].
  - apply strict_eq_eq in E. cbn [List.map]. congruence.
  - cbn [List.map]. rewrite IH.
    destruct (existsb _ (List.map name l)); reflexivity.
Qed.

Lemma processed_has_names (l : list Analyst) (n : value) :
  processed_has l n = existsb (fun x => strict_eq x n) (List.map name l).
Proof.
  unfold processed_has. induction l as [|x l IH]; [reflexivity |].
  simpl. rewrite IH. reflexivity.
Qed.

Lemma add_name_seen (seen : list value) (n : value) :
  existsb (fun x => strict_eq x n) seen = true -> add_name seen n = seen.
Proof. intros H. unfold add_name. rewrite H. reflexivity. Qed.

Lemma add_name_keeps (seen : list value) (n x : value) :
  existsb (fun y => strict_eq y x) seen = true ->
  existsb (fun y => strict_eq y x) (add_name seen n) = true.
Proof.
  intros H. unfold add_name.
  destruct (existsb (fun y => strict_eq y n) seen); [exact H |].
  rewrite existsb_app, H. reflexivity.
Qed.

(** On names compared by content, [distinct_names] keeps each name once. *)
Lemma seen_iff_elem (seen : list value) (n : value) :
  primitive n = true ->
  existsb (fun x => strict_eq x n) seen = true <-> n ∈ seen.
Proof.
  intros Hn. rewrite existsb_exists. split.
  - intros (x & Hx & E). apply strict_eq_eq in E. subst x.
    apply list_elem_of_In. exact Hx.
  - intros H. exists n. split; [apply list_elem_of_In; exact H |].
    apply strict_eq_refl. exact Hn.
Qed.

Lemma add_names_spec (names seen : list value) :
  Forall (fun n => primitive n = true) names -> NoDup seen ->
  NoDup (fold_left add_name names seen)
  /\ (forall x, x ∈ fold_left add_name names seen <-> x ∈ seen \/ x ∈ names).
Proof.
  intros Hp. revert seen. induction Hp as [|n names Hn _ IH]; intros seen Hnd.
  - split; [exact Hnd |]. intros x. rewrite elem_of_nil. tauto.
  - cbn [fold_left]. unfold add_name at 2 4.
    destruct (existsb (fun x => strict_eq x n) seen) eqn:E.
    + apply (seen_iff_elem seen n Hn) in E.
      destruct (IH seen Hnd) as [H1 H2]. split; [exact H1 |].
      intros x. rewrite H2, elem_of_cons. intuition (subst; auto).
    + assert (Hnot : n ∉ seen).
      { intros Hin. apply (seen_iff_elem seen n Hn) in Hin. congruence. }
      assert (Hnd' : NoDup (seen ++ [n])).
      { apply NoDup_app. split; [exact Hnd |]. split.
        - intros x Hx Hx'. apply list_elem_of_singleton in Hx'. subst. auto.
        - apply NoDup_singleton. }
      destruct (IH _ Hnd') as [H1 H2]. split; [exact H1 |].
      intros x. rewrite H2, elem_of_app, list_elem_of_singleton, elem_of_cons.
      tauto.
Qed.

Lemma distinct_names_spec (names : list value) :
  Forall (fun n => primitive n = true) names ->
  NoDup (distinct_names names)
  /\ (forall x, x ∈ distinct_names names <-> x ∈ names).
Proof.
  intros Hp. destruct (add_names_spec names [] Hp (NoDup_nil_2 (A:=value))) as [H1 H2].
  split; [exact H1 |]. intros x. rewrite H2, elem_of_nil. tauto.
Qed.

Lemma process_batch_analyst (skip : value -> bool) (d : value)
    (items : list value) (m : Machine) :
  process_batch clock skip (legacy_element "analyst" d :: items) m
  = if skip (opt_prop d "name") then process_batch clock skip items m
    else match processResearchEvent clock (legacy_element "analyst" d) m with
         | (Some _, m') => process_batch clock skip items m'
         | (None, m') => (None, m')
         end.
Proof.
  unfold process_batch. cbn [for_each]. unfold bind, get, legacy_element.
  cbn [prop lookup_field String.eqb Ascii.eqb Bool.eqb is_str strict_eq andb ret].
  destruct (skip (opt_prop d "name")); reflexivity.
Qed.

(** A batch of analyst elements adds to the roster the names it does not
    hold yet; [skip] is the set taken when the line arrived. *)
Lemma analyst_batch_names (skip : value -> bool) (payloads : list value)
    (m : Machine) :
  (forall n, skip n = true ->
     existsb (fun x => strict_eq x n) (List.map name (analysts (state m))) = true) ->
  Forall (fun d => nullish d = false) payloads ->
  fst (process_batch clock skip (List.map (legacy_element "analyst") payloads) m)
  = Some tt
  /\ List.map name
       (analysts (state (snd (process_batch clock skip
                                (List.map (legacy_element "analyst") payloads) m))))
     = fold_left add_name (List.map (fun d => opt_prop d "name") payloads)
         (List.map name (analysts (state m))).
Proof.
  intros Hskip Hds. revert m Hskip.
  induction Hds as [|d ds Hd _ IH]; intros m Hskip; [split; reflexivity |].
  cbn [List.map fold_left]. rewrite process_batch_analyst.
  destruct (skip (opt_prop d "name")) eqn:Es.
  - rewrite add_name_seen by (apply Hskip; exact Es). exact (IH m Hskip).
  - rewrite legacy_analyst_step by exact Hd. cbv zeta iota beta.
    match goal with |- context [process_batch _ _ _ ?m1] =>
      specialize (IH m1) end.
    cbn [state emit with_analysts set_analysts analysts] in IH.
    rewrite names_upsert in IH. apply IH.
    intros n Hn. apply add_name_keeps, Hskip, Hn.
Qed.

Lemma typed_analyst_guard (d id tr : value) (m : Machine) :
  processLangGraphEvent JSON_parse clock (typed_event "analyst" d id tr) m
  = if truthy (opt_prop d "name")
       && processed_has (analysts (state m)) (opt_prop d "name")
    then (Some tt, m)
    else processV5DataPart clock (typed_event "analyst" d id tr) m.
Proof.
  unfold processLangGraphEvent.
  destruct (truthy (opt_prop d "name")
            && processed_has (analysts (state m)) (opt_prop d "name")) eqn:E;
    unfold bind, get, typed_event; simpl; rewrite E; reflexivity.
Qed.

(** ** Transient analysts *)

(** C9.  The [transient] flag of a discrete analyst event changes neither
    the state it leaves nor whether it raises, in the reconciler and in the
    detector before it; with a truthy flag nothing is written, with a falsy
    or absent one the updated roster is. *)
Theorem transient_analyst (d id tr : value) (m : Machine) :
  let flagged := processV5DataPart clock (typed_event "analyst" d id tr) m in
  let plain := processV5DataPart clock (typed_event "analyst" d id VUndef) m in
  state (snd flagged) = state (snd plain)
  /\ fst flagged = fst plain
  /\ state (snd (processLangGraphEvent JSON_parse clock
                   (typed_event "analyst" d id tr) m))
     = state (snd (processLangGraphEvent JSON_parse clock
                     (typed_event "analyst" d id VUndef) m))
  /\ (nullish d = false ->
      analysts (state (snd flagged))
      = upsert_analyst (analyst_of d) (analysts (state m)))
  /\ (truthy tr = true -> sink (snd flagged) = sink m)
  /\ (truthy tr = false -> nullish d = false ->
      sink (snd flagged)
      = sink m ++ [persistent "data-analysts"
                     (PAnalysts (upsert_analyst (analyst_of d) (analysts (state m))))]).
Proof.
  cbv zeta.
  assert (Hstate : state (snd (processV5DataPart clock (typed_event "analyst" d id tr) m))
                   = state (snd (processV5DataPart clock
                                   (typed_event "analyst" d id VUndef) m))).
  { unfold processV5DataPart, typed_event, bind, get. simpl.
    destruct d; simpl; destruct (truthy tr); reflexivity. }
  split; [exact Hstate |]. split; [| split].
  - unfold processV5DataPart, typed_event, bind, get. simpl.
    destruct d; simpl; destruct (truthy tr); reflexivity.
  - rewrite !typed_analyst_guard.
    destruct (truthy (opt_prop d "name") && _); [reflexivity | exact Hstate].
  - unfold processV5DataPart, typed_event, bind, get. simpl.
    destruct d; simpl; destruct (truthy tr); simpl;
      repeat split; try reflexivity; try discriminate.
Qed.

Lemma legacy_batch_is_process_batch (items : list value) (m : Machine) :
  processLangGraphEvent JSON_parse clock (VArr items) m
  = process_batch clock (processed_has (analysts (state m))) items m.
Proof. reflexivity. Qed.

Lemma analyst_line_names (l : AnalystLine) (m : Machine) :
  Forall (fun d => nullish d = false) (line_payloads l) ->
  List.map name
    (analysts (state (snd (processLangGraphEvent JSON_parse clock (line_event l) m))))
  = fold_left add_name (List.map (fun d => opt_prop d "name") (line_payloads l))
      (List.map name (analysts (state m))).
Proof.
  intros Hds. destruct l as [payloads | d id tr]; cbn [line_event line_payloads] in *.
  - rewrite legacy_batch_is_process_batch.
    apply analyst_batch_names; [| exact Hds].
    intros n Hn. rewrite <- processed_has_names. exact Hn.
  - apply Forall_inv in Hds. rename Hds into Hd. cbn [List.map fold_left].
    rewrite typed_analyst_guard.
    destruct (truthy (opt_prop d "name")
              && processed_has (analysts (state m)) (opt_prop d "name")) eqn:E.
    + apply andb_true_iff in E as [_ E]. rewrite processed_has_names in E.
      rewrite add_name_seen by exact E. reflexivity.
    + rewrite typed_analyst_step by exact Hd. cbv zeta.
      destruct (truthy tr); cbn [snd state emit with_analysts set_analysts analysts];
        apply names_upsert.
Qed.

Lemma data_line_is_not_blank (line : string) :
  startsWith "data: " line = true -> (trim line =? "")%string = false.
Proof.
  intros H. destruct line as [|c r]; [discriminate |].
  apply starts_with_cons in H. subst c.
  assert (Hd : trim_start (String "d" r) = String "d" r)
    by (destruct r as [|c2 [|c3 r3]]; reflexivity).
  unfold trim. rewrite Hd, (trim_end_cons _ _ Hd). reflexivity.
Qed.

Lemma process_line_carries (line : string) (event : value) (m : Machine) :
  carries JSON_parse line event ->
  process_line JSON_parse clock line m
  = try_catch (processLangGraphEvent JSON_parse clock event) m.
Proof.
  intros [Hs Hp]. unfold process_line.
  rewrite (data_line_is_not_blank line Hs), Hs.
  unfold try_catch, bind, parse. rewrite Hp. reflexivity.
Qed.

Lemma process_line_passes (line : string) (m : Machine) :
  reads JSON_parse line None -> process_line JSON_parse clock line m = (Some tt, m).
Proof.
  unfold reads, process_line. intros [H | [H | H]].
  - rewrite H. reflexivity.
  - rewrite H. destruct (trim line =? "")%string; reflexivity.
  - destruct (trim line =? "")%string; [reflexivity |].
    destruct (startsWith "data: " line); [| reflexivity].
    unfold try_catch, bind, parse. rewrite H. reflexivity.
Qed.

Lemma upsert_in_place (a x : Analyst) (l : list Analyst) (i : nat) :
  unique_names l -> l !! i = Some x -> strict_eq (name x) (name a) = true ->
  upsert_analyst a l = <[i := a]> l.
Proof.
  revert i. induction l as [|y l IH]; intros i Hu Hi Hx; [discriminate |].
  rewrite upsert_analyst_cons. apply unique_names_cons in Hu as [Hy Hu].
  destruct i as [|i]; simpl in Hi.
  - injection Hi as ->. rewrite Hx. reflexivity.
  - assert (Hin : x ∈ l) by (apply list_elem_of_lookup; eauto).
    destruct (strict_eq (name y) (name a)) eqn:E.
    + pose proof (strict_eq_primitive _ _ Hx) as Hp.
      apply strict_eq_eq in E. apply strict_eq_eq in Hx.
      specialize (Hy x Hin). rewrite E, <- Hx, (strict_eq_refl _ Hp) in Hy.
      discriminate.
    + simpl. f_equal. exact (IH i Hu Hi Hx).
Qed.

Lemma upsert_new (a : Analyst) (l : list Analyst) :
  processed_has l (name a) = false -> upsert_analyst a l = l ++ [a].
Proof.
  unfold processed_has. induction l as [|x l IH]; [reflexivity |].
  rewrite upsert_analyst_cons. cbn [existsb].
  destruct (strict_eq (name x) (name a)); [discriminate |].
  cbn [orb]. intros H. rewrite (IH H). reflexivity.
Qed.

Lemma upsert_last (a b : Analyst) (l : list Analyst) :
  processed_has l (name b) = false -> strict_eq (name a) (name b) = true ->
  upsert_analyst b (l ++ [a]) = l ++ [b].
Proof.
  unfold processed_has. intros Hl Hab. induction l as [|x l IH].
  - cbn [app]. rewrite upsert_analyst_cons, Hab. reflexivity.
  - cbn [existsb app] in *. rewrite upsert_analyst_cons.
    destruct (strict_eq (name x) (name b)); [discriminate |].
    cbn [orb] in Hl. rewrite (IH Hl). reflexivity.
Qed.

Lemma same_batch_repeat (d1 d2 : value) (m : Machine) :
  nullish d1 = false -> nullish d2 = false ->
  processed_has (analysts (state m)) (opt_prop d2 "name") = false ->
  strict_eq (opt_prop d1 "name") (opt_prop d2 "name") = true ->
  analysts (state (snd (processLangGraphEvent JSON_parse clock
                          (VArr [legacy_element "analyst" d1;
                                 legacy_element "analyst" d2]) m)))
  = analysts (state m) ++ [analyst_of d2].
Proof.
  intros H1 H2 Hnew Hsame.
  pose proof (strict_eq_eq _ _ Hsame) as Hn.
  rewrite legacy_batch_is_process_batch, process_batch_analyst.
  rewrite Hn, Hnew, legacy_analyst_step by exact H1. cbv zeta iota beta.
  rewrite process_batch_analyst, Hnew, legacy_analyst_step by exact H2.
  cbv zeta iota beta. cbn [snd state emit with_analysts set_analysts analysts].
  rewrite (upsert_new (analyst_of d1)) by (cbn [analyst_of name]; rewrite Hn; exact Hnew).
  apply upsert_last; [exact Hnew | exact Hsame].
Qed.

(** C2 (amended).  Whatever arrives, the roster keeps each name once.  An
    analyst that reaches a reconciler is upserted: when its name is in the
    roster the entry of that name is replaced where it stands, by the fields
    of the later event; this is what happens to a name repeated inside one
    batch.  An analyst whose name was in the roster when its line arrived
    does not reach the reconciler: the line leaves the machine as it was,
    and the entry keeps the fields of the first occurrence. *)
Theorem roster_has_each_name_once :
  (forall event m,
     unique_names (analysts (state m)) ->
     unique_names
       (analysts (state (snd (processLangGraphEvent JSON_parse clock event m)))))
  /\ (forall chunks query,
        unique_names
          (analysts (state (snd (streamFromLangGraph JSON_parse clock chunks
                                   (start query))))))
  /\ (forall d m,
        nullish d = false ->
        analysts (state (snd (processResearchEvent clock
                                (legacy_element "analyst" d) m)))
        = upsert_analyst (analyst_of d) (analysts (state m)))
  /\ (forall a x l i,
        unique_names l -> l !! i = Some x ->
        strict_eq (name x) (name a) = true ->
        upsert_analyst a l = <[i := a]> l)
  /\ (forall d1 d2 m,
        nullish d1 = false -> nullish d2 = false ->
        processed_has (analysts (state m)) (opt_prop d2 "name") = false ->
        strict_eq (opt_prop d1 "name") (opt_prop d2 "name") = true ->
        analysts (state (snd (processLangGraphEvent JSON_parse clock
                                (VArr [legacy_element "analyst" d1;
                                       legacy_element "analyst" d2]) m)))
        = analysts (state m) ++ [analyst_of d2])
  /\ (forall d m,
        processed_has (analysts (state m)) (opt_prop d "name") = true ->
        processLangGraphEvent JSON_parse clock
          (VArr [legacy_element "analyst" d]) m = (Some tt, m))
  /\ (forall d id tr m,
        truthy (opt_prop d "name") = true ->
        processed_has (analysts (state m)) (opt_prop d "name") = true ->
        processLangGraphEvent JSON_parse clock (typed_event "analyst" d id tr) m
        = (Some tt, m)).
Proof.
  repeat split.
  - intros event m. apply processLangGraphEvent_roster.
  - intros chunks query. rewrite stream_ends_with_snapshot.
    apply (read_loop_roster chunks "" (start query)).
    intros i j a b Ha. discriminate.
  - intros d m Hd. rewrite legacy_analyst_step by exact Hd. reflexivity.
  - intros a x l i. apply upsert_in_place.
  - intros d1 d2 m. apply same_batch_repeat.
  - intros d m H. rewrite legacy_batch_is_process_batch, process_batch_analyst, H.
    reflexivity.
  - intros d id tr m Ht H. rewrite typed_analyst_guard, Ht, H. reflexivity.
Qed.

(** ** Interview transcripts *)

Lemma metadata_has_role (md : value) :
  exists r, prop (js_or md (VObj [])) "role" = Some r.
Proof.
  unfold js_or. destruct md as [| |[]|z|s| |]; simpl; eauto.
  - destruct (z =? 0)%Z; simpl; eauto.
  - destruct (s =? "")%string; simpl; eauto.
Qed.


Lemma map_index_Some {A : Type} (k : value) (m : jsmap A) (i : nat) :
  map_index k m = Some i ->
  exists k' v, m !! i = Some (k', v) /\ strict_eq k' k = true.
Proof.
  revert i. induction m as [|[k' v] m IH]; intros i; simpl; [discriminate |].
  destruct (strict_eq k' k) eqn:E.
  - intros [= <-]. eauto.
  - destruct (map_index k m) as [j|]; [| discriminate].
    intros [= <-]. apply IH. reflexivity.
Qed.


Lemma map_index_same_keys {A : Type} (k k' : value) (v v' : A) (m : jsmap A)
    (i : nat) :
  m !! i = Some (k', v) -> map_index k (<[i := (k', v')]> m) = map_index k m.
Proof.
  revert i. induction m as [|[k0 v0] m IH]; intros i Hi; [discriminate |].
  destruct i as [|i]; simpl in *.
  - injection Hi as -> ->. reflexivity.
  - rewrite (IH i Hi). reflexivity.
Qed.









(** ** Elements without their data object *)







(** ** The line framer and the loop *)

Lemma framed_lines_whole (chunks : list string) :
  framed_lines chunks "" = removelast (split_lines (String.concat "" chunks))
  /\ final_buffer chunks "" = List.last (split_lines (String.concat "" chunks)) "".
Proof.
  pose proof (framed_lines_spec chunks "" eq_refl) as H.
  rewrite append_nil_l in H. rewrite <- H.
  rewrite removelast_last, last_last. split; reflexivity.
Qed.

(** C7.  Whatever the chunks, the loop hands to its body the fragments of
    the whole text between its newlines, each once and in the order of the
    text, but not the fragment after the last newline, which is what it is
    left with in the buffer; it does so without raising.  Two ways of cutting
    the same text into chunks therefore end in the same state, with the same
    parts written and the same buffer. *)
Theorem framing_is_chunk_independent (chunks : list string) (m : Machine) :
  let lines := split_lines (String.concat "" chunks) in
  read_loop JSON_parse clock chunks "" m
  = (Some (List.last lines ""),
     snd (for_each (process_line JSON_parse clock) (removelast lines) m))
  /\ (forall chunks',
        String.concat "" chunks' = String.concat "" chunks ->
        read_loop JSON_parse clock chunks' "" m
        = read_loop JSON_parse clock chunks "" m).
Proof.
  cbv zeta.
  assert (Hloop : forall l,
            read_loop JSON_parse clock l "" m
            = (Some (List.last (split_lines (String.concat "" l)) ""),
               snd (for_each (process_line JSON_parse clock)
                      (removelast (split_lines (String.concat "" l))) m))).
  { intros l. rewrite read_loop_framed.
    destruct (framed_lines_whole l) as [-> ->].
    pose proof (for_each_returns (process_line JSON_parse clock)
                  (removelast (split_lines (String.concat "" l))) m
                  process_line_returns) as Hr.
    destruct (for_each _ _ m) as [[[]|] m']; [reflexivity | discriminate]. }
  split; [apply Hloop |].
  intros chunks' Heq. rewrite !Hloop, Heq. reflexivity.
Qed.

(** ** The two shapes through the detector *)

(** A batch of one element: the element is skipped when it is an analyst
    whose name is in the roster, and reconciled otherwise. *)
Lemma single_element_batch (kind : string) (d : value) (m : Machine) :
  processLangGraphEvent JSON_parse clock (VArr [legacy_element kind d]) m
  = if (kind =? "analyst")%string
       && processed_has (analysts (state m)) (opt_prop d "name")
    then (Some tt, m)
    else processResearchEvent clock (legacy_element kind d) m.
Proof.
  rewrite legacy_batch_is_process_batch.
  unfold process_batch. cbn [for_each]. unfold bind, get, legacy_element.
  cbn [prop lookup_field String.eqb Ascii.eqb Bool.eqb is_str strict_eq ret].
  destruct ((kind =? "analyst")%string
            && processed_has (analysts (state m)) (opt_prop d "name"));
    [reflexivity |].
  destruct (processResearchEvent clock _ m) as [[[]|] m']; reflexivity.
Qed.

(** ** Searches *)

(** C3 (amended).  A legacy search element appends its entry exactly when
    its status is "completed" and its resultsCount is truthy, and does
    nothing else: nothing is written.  A discrete typed search event never
    changes the list of searches, nor anything else of the state: it is
    written as one transient [data-search] part that carries its data when
    it is flagged transient, and has no effect otherwise.  The detector hands
    both shapes to these reconcilers as they are. *)
Theorem search_reconciliation (d id tr : value) (m : Machine) :
  searches (state (snd (processResearchEvent clock (legacy_element "search" d) m)))
  = searches (state m)
    ++ (if is_str (opt_prop d "status") "completed"
           && truthy (opt_prop d "resultsCount")
        then [search_of d] else [])
  /\ searches (state (snd (processV5DataPart clock (typed_event "search" d id tr) m)))
     = searches (state m)
  /\ (nullish d = false ->
      processResearchEvent clock (legacy_element "search" d) m
      = (Some tt,
         if is_str (opt_prop d "status") "completed"
            && truthy (opt_prop d "resultsCount")
         then with_state
                (set_searches (searches (state m) ++ [search_of d]) (state m)) m
         else m))
  /\ processV5DataPart clock (typed_event "search" d id tr) m
     = (Some tt,
        if truthy tr then emit (transient "data-search" (PData d)) m else m)
  /\ processLangGraphEvent JSON_parse clock (VArr [legacy_element "search" d]) m
     = processResearchEvent clock (legacy_element "search" d) m
  /\ processLangGraphEvent JSON_parse clock (typed_event "search" d id tr) m
     = processV5DataPart clock (typed_event "search" d id tr) m.
Proof.
  split; [| split; [| split; [| split; [| split]]]].
  - destruct d; simpl; rewrite ?app_nil_r; try reflexivity.
    unfold processResearchEvent, legacy_element, bind, get, opt_prop. simpl.
    destruct (is_str (lookup_field "status" fields) "completed"
              && truthy (lookup_field "resultsCount" fields));
      simpl; rewrite ?app_nil_r; reflexivity.
  - unfold processV5DataPart, typed_event, bind, get. simpl.
    destruct (truthy tr); reflexivity.
  - intros Hd.
    unfold processResearchEvent, legacy_element, bind, get, opt_prop. simpl.
    destruct d; try discriminate; simpl; try reflexivity.
    destruct (is_str (lookup_field "status" fields) "completed"
              && truthy (lookup_field "resultsCount" fields)); reflexivity.
  - unfold processV5DataPart, typed_event, bind, get. simpl.
    destruct (truthy tr); reflexivity.
  - rewrite single_element_batch. reflexivity.
  - reflexivity.
Qed.


End RouteProperties.

(** * Instances

    The statements above at particular inputs, and the inputs at which the
    specification and the route part. *)

(** The same analyst on two lines: the second line is skipped and the
    roster keeps the role of the first. *)
Lemma later_line_keeps_first_fields :
  let line1 := VArr [legacy_element "analyst" (person "A" "R1")] in
  let line2 := VArr [legacy_element "analyst" (person "A" "R2")] in
  let m1 := snd (processLangGraphEvent example_parse example_clock line1 (start "t")) in
  let m2 := snd (processLangGraphEvent example_parse example_clock line2 m1) in
  analysts (state m2) = [analyst_of (person "A" "R1")]
  /\ analysts (state m2) <> [analyst_of (person "A" "R2")].
Proof. split; [reflexivity | vm_compute; discriminate]. Qed.

Lemma roster_has_each_name_once_instance :
  unique_names
    (analysts (state (snd (processLangGraphEvent example_parse example_clock
                             batch_value (start "t")))))
  /\ analysts (state (snd (processLangGraphEvent example_parse example_clock
                             batch_value (start "t"))))
     = [analyst_of (person "A" "R2")]
  /\ processLangGraphEvent example_parse example_clock
       (VArr [legacy_element "analyst" (person "A" "R2")])
       (snd (processLangGraphEvent example_parse example_clock batch_value (start "t")))
     = (Some tt,
        snd (processLangGraphEvent example_parse example_clock batch_value (start "t"))).
Proof.
  destruct (roster_has_each_name_once example_parse example_clock)
    as (Hinv & _ & _ & _ & Hbatch & Hskip & _).
  split; [| split].
  - apply Hinv. intros i j a b Ha. discriminate.
  - apply (Hbatch (person "A" "R1") (person "A" "R2") (start "t")); reflexivity.
  - apply Hskip. reflexivity.
Defined.

Example legacy_search_started :
  searches (state (snd (processResearchEvent example_clock
                          (legacy_element "search"
                             (VObj [("tool", VStr "web_search"); ("query", VStr "q");
                                    ("status", VStr "started")]))
                          (start "t")))) = [].
Proof. reflexivity. Qed.

Example legacy_search_completed :
  searches (state (snd (processResearchEvent example_clock
                          (legacy_element "search" completed_search) (start "t"))))
  = [{| tool := VStr "web_search"; query := VStr "q"; resultsCount := VNum 5;
        sources := [] |}].
Proof. reflexivity. Qed.

(** A discrete search event, completed with five results, is not stored. *)
Lemma typed_search_is_not_stored :
  is_str (opt_prop completed_search "status") "completed" = true
  /\ opt_prop completed_search "resultsCount" = VNum 5
  /\ searches (state (snd (processV5DataPart example_clock
                             (discrete_event "search" completed_search) (start "t"))))
     = [].
Proof. repeat split. Qed.



(** A progress event without a message wipes the stored message, in
    either shape; a [current] of zero, though present, does not replace the
    stored one. *)
Lemma absent_message_is_overwritten :
  let before := {| state := set_progress {| current := VNum 3; total := VNum 9;
                                            message := VStr "working" |}
                              (initial_state "t");
                   sink := []; ticks := 0 |} in
  let typed := typed_event "progress" (VObj [("current", VNum 4)]) VUndef
                 (VBool true) in
  let legacy := VObj [("type", VStr "progress"); ("current", VNum 0)] in
  let after_typed := snd (processV5DataPart example_clock typed before) in
  let after_legacy := snd (processResearchEvent example_clock legacy before) in
  message (progress (state before)) = VStr "working"
  /\ message (progress (state after_typed)) = VUndef
  /\ message (progress (state after_legacy)) = VUndef
  /\ current (progress (state after_legacy)) = VNum 3.
Proof. repeat split. Qed.

Lemma progress_reconciliation_instance :
  let d := VObj [("current", VNum 2); ("message", VStr "interviewing")] in
  progress_effect (VNum 2) VUndef (VStr "interviewing") VUndef
    (state (start "t"))
    (state (snd (processV5DataPart example_clock
                   (typed_event "progress" d VUndef (VBool true)) (start "t")))).
Proof.
  cbv zeta.
  apply (proj2 (progress_reconciliation example_clock VUndef VUndef VUndef VUndef
                  (VObj [("current", VNum 2); ("message", VStr "interviewing")])
                  VUndef (VBool true) (start "t"))).
  reflexivity.
Defined.

(** A stream cut inside its fourth line, and the same text in one chunk. *)
Lemma framing_instance :
  let whole := [String.concat "" example_chunks] in
  let after := snd (read_loop example_parse example_clock example_chunks ""
                      (start "t")) in
  fst (read_loop example_parse example_clock example_chunks "" (start "t"))
  = Some ""
  /\ List.map name (analysts (state after)) = [VStr "A"; VStr "B"]
  /\ length (sink after) = 3
  /\ read_loop example_parse example_clock whole "" (start "t")
     = read_loop example_parse example_clock example_chunks "" (start "t").
Proof.
  cbv zeta.
  destruct (framing_is_chunk_independent example_parse example_clock example_chunks
              (start "t")) as [Hrun Hsame].
  split; [rewrite Hrun; vm_compute; reflexivity |].
  split; [rewrite Hrun; vm_compute; reflexivity |].
  split; [rewrite Hrun; vm_compute; reflexivity |].
  apply Hsame. vm_compute. reflexivity.
Defined.

(** C8.  The white space that ends a text token is lost: the raw token
    ["0:Hello "] is written with the delta ["Hello"], where the passthrough
    object of the same delta is written with ["Hello "]. *)
Lemma trailing_space_is_trimmed :
  sink (snd (processLangGraphEvent example_parse example_clock
               (VStr ("0:" ++ "Hello ")) (start "t")))
  = [text_delta "Hello"]
  /\ sink (snd (processLangGraphEvent example_parse example_clock
                  (VObj [("type", VStr "text-delta"); ("delta", VStr "Hello ")])
                  (start "t")))
     = [text_delta "Hello "]
  /\ text_delta "Hello" <> text_delta "Hello ".
Proof. split; [reflexivity | split; [reflexivity | discriminate]]. Qed.

Lemma raw_token_dispatch_instance :
  processLangGraphEvent example_parse example_clock (VStr "0:Hello") (start "t")
  = (Some tt, emit (text_delta "Hello") (start "t"))
  /\ processLangGraphEvent example_parse example_clock (VStr "2:metadata[null]")
       (start "t")
     = (Some tt, snd (processV5DataPart example_clock
                        (discrete_event "metadata" VNull) (start "t")))
  /\ processLangGraphEvent example_parse example_clock (VStr "3:5") (start "t")
     = (Some tt, emit (transient "data-error" (PErrorData (VNum 5))) (start "t")).
Proof.
  destruct (raw_token_dispatch example_parse example_clock (start "t"))
    as (Htext & _ & Hdata & Herror).
  split; [exact (Htext "Hello") |]. split.
  - apply (Hdata "2:metadata[null]" "metadata" "null" VNull); reflexivity.
  - apply (Herror "3:5" (VNum 5)); reflexivity.
Defined.

Lemma transient_analyst_instance :
  let flagged := processV5DataPart example_clock
                   (typed_event "analyst" (person "A" "R1") VUndef (VBool true))
                   (start "t") in
  sink (snd flagged) = []
  /\ analysts (state (snd flagged)) = [analyst_of (person "A" "R1")].
Proof.
  cbv zeta.
  destruct (transient_analyst example_parse example_clock (person "A" "R1") VUndef
              (VBool true) (start "t")) as (_ & _ & _ & Hroster & Hquiet & _).
  split.
  - apply Hquiet. reflexivity.
  - rewrite Hroster; reflexivity.
Defined.


(** * Further properties of the route

    What the detector does with the shapes it only acknowledges, what the
    loop does with lines it cannot use, and what the reconcilers keep. *)

Section RouteFurther.

Variable JSON_parse : string -> option value.
Variable clock : nat -> string.

(** ** Shapes the detector acknowledges *)

(** X1.  Heartbeats, state updates and message tokens of the graph go no
    further than the detector: an event of one of these types changes
    nothing and nothing is written for it, whatever else it carries. *)
Theorem acknowledged_events_are_dropped (fields : list (string * value))
    (ty : string) (m : Machine) :
  lookup_field "type" fields = VStr ty ->
  ty = "data-heartbeat" \/ ty = "updates" \/ ty = "messages"
  \/ ty = "messages/partial" ->
  processLangGraphEvent JSON_parse clock (VObj fields) m = (Some tt, m).
Proof.
  intros Ht Hty. unfold processLangGraphEvent, bind, get. cbn [prop ret].
  rewrite Ht. destruct Hty as [-> | [-> | [-> | ->]]]; reflexivity.
Qed.

(** X2.  A custom event of a subgraph whose data is an array is reconciled
    as the legacy batch of that array; a custom event with any other data
    changes nothing. *)
Theorem custom_event_is_a_batch (fields : list (string * value)) (m : Machine) :
  lookup_field "type" fields = VStr "custom" ->
  (forall items,
     lookup_field "data" fields = VArr items ->
     processLangGraphEvent JSON_parse clock (VObj fields) m
     = processLangGraphEvent JSON_parse clock (VArr items) m)
  /\ ((forall items, lookup_field "data" fields <> VArr items) ->
      processLangGraphEvent JSON_parse clock (VObj fields) m = (Some tt, m)).
Proof.
  intros Ht. split.
  - intros items Hd. unfold processLangGraphEvent, bind, get. cbn [prop ret].
    rewrite Ht, Hd. reflexivity.
  - intros Hd. unfold processLangGraphEvent, bind, get. cbn [prop ret].
    rewrite Ht. cbn.
    destruct (lookup_field "data" fields) as [| |b|z|s|items|fs] eqn:E;
      try (destruct (Hd items eq_refl));
      try (destruct (truthy _)); reflexivity.
Qed.

(** X3.  A passthrough text delta is forwarded with its delta and its id,
    or with the id "research-text" when it has none; without a delta, and
    for text-start and text-end, nothing is written. *)
Theorem text_parts_pass_through (fields : list (string * value)) (m : Machine) :
  (lookup_field "type" fields = VStr "text-delta" ->
   processLangGraphEvent JSON_parse clock (VObj fields) m
   = (Some tt,
      if truthy (lookup_field "delta" fields)
      then emit (persistent "text-delta"
                   (PTextDelta (lookup_field "delta" fields)
                      (js_or (lookup_field "id" fields) (VStr "research-text")))) m
      else m))
  /\ (lookup_field "type" fields = VStr "text-start"
      \/ lookup_field "type" fields = VStr "text-end" ->
      processLangGraphEvent JSON_parse clock (VObj fields) m = (Some tt, m)).
Proof.
  split.
  - intros Ht. unfold processLangGraphEvent, bind, get. cbn [prop ret].
    rewrite Ht. cbn. destruct (truthy (lookup_field "delta" fields)); reflexivity.
  - intros [Ht | Ht]; unfold processLangGraphEvent, bind, get; cbn [prop ret];
      rewrite Ht; reflexivity.
Qed.

(** ** Input the route cannot use *)

Lemma raw_token_other (s : string) (m : Machine) :
  startsWith "0:" s = false -> startsWith "2:" s = false ->
  startsWith "3:" s = false ->
  process_raw_token JSON_parse clock s m = (Some tt, m).
Proof. intros H0 H2 H3. unfold process_raw_token. rewrite H0, H2, H3. reflexivity. Qed.

(** X4.  A raw token that is no text delta and cannot be used is dropped
    without a trace: a data part that does not match the pattern or whose
    JSON does not parse, an error token whose JSON does not parse, and a
    string with no known prefix leave the machine as it was. *)
Theorem malformed_tokens_are_dropped (raw : string) (m : Machine) :
  startsWith "0:" (trim raw) = false ->
  (startsWith "2:" (trim raw) = true ->
   forall partName jsonData,
     match_data_part (trim raw) = Some (partName, jsonData) ->
     JSON_parse jsonData = None) ->
  (startsWith "3:" (trim raw) = true -> JSON_parse (slice 2 (trim raw)) = None) ->
  processLangGraphEvent JSON_parse clock (VStr raw) m = (Some tt, m).
Proof.
  intros H0 H2 H3. rewrite string_event_is_raw_token. unfold process_raw_token.
  rewrite H0. destruct (startsWith "2:" (trim raw)) eqn:E2.
  - destruct (match_data_part (trim raw)) as [[partName jsonData]|] eqn:Em;
      [| reflexivity].
    unfold try_catch, bind, parse. rewrite (H2 eq_refl _ _ eq_refl). reflexivity.
  - destruct (startsWith "3:" (trim raw)) eqn:E3; [| reflexivity].
    unfold try_catch, bind, parse. rewrite (H3 eq_refl). reflexivity.
Qed.

(** X5.  The loop body does not raise, whatever the line; a line that is
    blank, lacks the [data: ] prefix or holds JSON that does not parse is
    passed over with the machine untouched; and when the event of a line
    raises, the line still ends normally. *)
Theorem lines_never_stop_the_loop (line : string) (m : Machine) :
  fst (process_line JSON_parse clock line m) = Some tt
  /\ ((trim line =? "")%string = true
      \/ startsWith "data: " line = false
      \/ JSON_parse (slice 6 line) = None ->
      process_line JSON_parse clock line m = (Some tt, m))
  /\ (forall event,
        carries JSON_parse line event ->
        process_line JSON_parse clock line m
        = (Some tt, snd (processLangGraphEvent JSON_parse clock event m))).
Proof.
  split; [apply process_line_returns |]. split.
  - intros H. apply process_line_passes. exact H.
  - intros event Hc.
    rewrite (process_line_carries JSON_parse clock line event m Hc). reflexivity.
Qed.

(** X6.  Values of no upstream shape: a number, a boolean, and an object
    whose type is absent or is a string the detector does not know change
    nothing; [null], and an object whose type is neither absent nor a
    string, raise in the detector and change nothing. *)
Theorem unknown_shapes_are_discarded (m : Machine) :
  (forall n, processLangGraphEvent JSON_parse clock (VNum n) m = (Some tt, m))
  /\ (forall b, processLangGraphEvent JSON_parse clock (VBool b) m = (Some tt, m))
  /\ (forall fields,
        nullish (lookup_field "type" fields) = true ->
        processLangGraphEvent JSON_parse clock (VObj fields) m = (Some tt, m))
  /\ (forall fields ty,
        lookup_field "type" fields = VStr ty ->
        startsWith "data-" ty = false -> ty <> "custom" -> ty <> "text-delta" ->
        processLangGraphEvent JSON_parse clock (VObj fields) m = (Some tt, m))
  /\ processLangGraphEvent JSON_parse clock VNull m = (None, m)
  /\ (forall fields,
        nullish (lookup_field "type" fields) = false ->
        (forall ty, lookup_field "type" fields <> VStr ty) ->
        processLangGraphEvent JSON_parse clock (VObj fields) m = (None, m)).
Proof.
  split; [reflexivity |]. split; [reflexivity |]. split; [| split; [| split]].
  - intros fields Hn. unfold processLangGraphEvent, bind, get. cbn [prop ret].
    destruct (lookup_field "type" fields); try discriminate; reflexivity.
  - intros fields ty Ht Hd Hc Hx.
    unfold processLangGraphEvent, bind, get. cbn [prop ret]. rewrite Ht.
    cbn [typeof_object type_startsWith_data ret]. rewrite Hd. cbv beta iota.
    unfold is_str, process_text_part, is_str. cbn [strict_eq].
    apply String.eqb_neq in Hc, Hx. rewrite Hc, Hx.
    destruct (ty =? "updates")%string; [reflexivity |].
    destruct (ty =? "messages")%string; [reflexivity |].
    destruct (ty =? "messages/partial")%string; [reflexivity |].
    cbn [orb andb]. destruct (truthy (VStr ty)); [| reflexivity].
    cbn [andb]. destruct (ty =? "text-start")%string; [reflexivity |].
    destruct (ty =? "text-end")%string; reflexivity.
  - reflexivity.
  - intros fields Hn Hs. unfold processLangGraphEvent, bind, get. cbn [prop ret].
    destruct (lookup_field "type" fields) as [| |b|z|s|l|fs] eqn:E;
      try discriminate; try reflexivity.
    destruct (Hs s eq_refl).
Qed.

(** ** The end of the stream *)

Lemma one_line_cons (c : ascii) (r : string) :
  split_lines (String c r) = [String c r] ->
  Ascii.eqb c newline = false /\ split_lines r = [r].
Proof.
  rewrite split_lines_cons. pose proof (split_lines_nonempty r) as Hne.
  destruct (Ascii.eqb c newline).
  - destruct (split_lines r); [congruence | discriminate].
  - intros H. split; [reflexivity |].
    destruct (split_lines r) as [|x xs]; [congruence |].
    cbn [hd tl] in H. congruence.
Qed.

Lemma one_line_app (a b : string) :
  split_lines a = [a] -> split_lines b = [b] ->
  split_lines (a ++ b) = [(a ++ b)%string].
Proof.
  intros Ha Hb. induction a as [|c r IH]; [exact Hb |].
  apply one_line_cons in Ha as [Hc Hr].
  rewrite append_cons, split_lines_cons, Hc, (IH Hr). reflexivity.
Qed.

Lemma final_buffer_is_one_line (chunks : list string) (buffer : string) :
  split_lines buffer = [buffer] ->
  split_lines (final_buffer chunks buffer) = [final_buffer chunks buffer].
Proof.
  revert buffer. induction chunks as [|chunk rest IH]; intros buffer Hb;
    [exact Hb |].
  cbn [final_buffer]. apply IH. apply last_fragment_is_one_line.
Qed.

Lemma framed_lines_app (chunks1 chunks2 : list string) (buffer : string) :
  framed_lines (chunks1 ++ chunks2) buffer
  = framed_lines chunks1 buffer
    ++ framed_lines chunks2 (final_buffer chunks1 buffer).
Proof.
  revert buffer. induction chunks1 as [|chunk rest IH]; intros buffer;
    [reflexivity |].
  cbn [app framed_lines final_buffer]. rewrite IH, app_assoc. reflexivity.
Qed.

(** X7.  What follows the last newline of the stream is never handed to
    the loop body, not even when the stream ends: a stream and the same
    stream followed by a fragment without newline run alike. *)
Theorem unterminated_tail_is_dropped (chunks : list string) (fragment : string)
    (m : Machine) :
  split_lines fragment = [fragment] ->
  framed_lines (chunks ++ [fragment]) "" = framed_lines chunks ""
  /\ streamFromLangGraph JSON_parse clock (chunks ++ [fragment]) m
     = streamFromLangGraph JSON_parse clock chunks m.
Proof.
  intros Hf.
  assert (Hl : framed_lines (chunks ++ [fragment]) "" = framed_lines chunks "").
  { rewrite framed_lines_app. cbn [framed_lines]. unfold frame. cbn [fst].
    rewrite (one_line_app _ _ (final_buffer_is_one_line chunks "" eq_refl) Hf).
    cbn [removelast]. rewrite !app_nil_r. reflexivity. }
  split; [exact Hl |].
  rewrite !stream_ends_with_snapshot, !read_loop_framed, Hl.
  destruct (for_each _ (framed_lines chunks "") m) as [[[]|] m']; reflexivity.
Qed.

(** ** What the stream never does to the state *)

(** A walk through a computation that keeps the test of each branch and the property
    each read came from. *)
Lemma preserves_bind_get {B : Type} (P : Machine -> Prop) (v : value)
    (k : string) (K : value -> M B) :
  (forall a, prop v k = Some a -> preserves P (K a)) ->
  preserves P (bind (get v k) K).
Proof.
  intros HK m Hm. unfold bind, get.
  destruct (prop v k) as [a|] eqn:E; [apply (HK a eq_refl m Hm) | exact Hm].
Qed.

Ltac preserve_keeping_after special leaf :=
  repeat first
    [ progress cbv zeta
    | special
    | lazymatch goal with
      | |- preserves _ (ret _) => apply preserves_ret
      | |- preserves _ throw => apply preserves_throw
      | |- preserves _ get_state => apply preserves_get_state
      | |- preserves _ (get _ _) => apply preserves_get
      | |- preserves _ (parse _ _) => apply preserves_parse
      | |- preserves _ (try_catch _) => apply preserves_try_catch
      | |- preserves _ (bind (get _ _) _) =>
          apply preserves_bind_get; intros ? ?
      | |- preserves _ (bind _ _) => apply preserves_bind; [| intros ?]
      | |- preserves _ (for_each _ _) => apply preserves_for_each; intros ?
      | |- preserves _ (if ?b then _ else _) => destruct b eqn:?
      | |- preserves _ (match ?v with _ => _ end) => destruct v eqn:?
      end
    | leaf ].

Ltac preserve_keeping leaf := preserve_keeping_after fail leaf.

(** The detector, the line and the loop keep what both reconcilers keep. *)
Section Lifting.

Context (P : Machine -> Prop).
Hypothesis P_write : forall p, preserves P (write p).
Hypothesis P_legacy : forall event, preserves P (processResearchEvent clock event).
Hypothesis P_typed : forall event, preserves P (processV5DataPart clock event).

Lemma lift_to_detector (event : value) :
  preserves P (processLangGraphEvent JSON_parse clock event).
Proof using P_write P_legacy P_typed.
  unfold processLangGraphEvent, process_batch, process_raw_token,
    process_text_part, type_startsWith_data.
  preserve_keeping ltac:(first [apply P_legacy | apply P_typed | apply P_write]).
Qed.

Lemma lift_to_line (line : string) :
  preserves P (process_line JSON_parse clock line).
Proof using P_write P_legacy P_typed.
  unfold process_line. preserve_keeping ltac:(apply lift_to_detector).
Qed.

Lemma lift_to_loop (chunks : list string) (buffer : string) :
  preserves P (read_loop JSON_parse clock chunks buffer).
Proof using P_write P_legacy P_typed.
  revert buffer. induction chunks as [|chunk rest IH]; intros buffer;
    cbn [read_loop]; preserve_keeping ltac:(first [apply lift_to_line | apply IH]).
Qed.

Lemma lift_to_stream (chunks : list string) (m : Machine) :
  P m -> P (snd (streamFromLangGraph JSON_parse clock chunks m)).
Proof using P_write P_legacy P_typed.
  intros Hm. rewrite stream_ends_with_snapshot.
  apply (P_write (snapshot _)). apply lift_to_loop. exact Hm.
Qed.

End Lifting.

(** *** The topic *)

Ltac frame_leaf :=
  idtac;
  lazymatch goal with
  | |- preserves _ (modify _) =>
      let m := fresh "m" in let Hm := fresh "Hm" in intros m Hm; exact Hm
  | |- preserves _ (write _) =>
      let m := fresh "m" in let Hm := fresh "Hm" in intros m Hm; exact Hm
  | |- preserves _ (now _) =>
      let m := fresh "m" in let Hm := fresh "Hm" in intros m Hm; exact Hm
  end.

Lemma legacy_keeps_topic (t : string) (event : value) :
  preserves (topic_is t) (processResearchEvent clock event).
Proof. unfold processResearchEvent. preserve_keeping frame_leaf. Qed.

Lemma typed_keeps_topic (t : string) (event : value) :
  preserves (topic_is t) (processV5DataPart clock event).
Proof. unfold processV5DataPart. preserve_keeping frame_leaf. Qed.

(** X8.  Nothing that arrives changes the topic of the session: not one
    event, and not the whole stream. *)
Theorem topic_is_fixed :
  (forall event m,
     topic (state (snd (processLangGraphEvent JSON_parse clock event m)))
     = topic (state m))
  /\ (forall chunks m,
        topic (state (snd (streamFromLangGraph JSON_parse clock chunks m)))
        = topic (state m)).
Proof.
  split.
  - intros event m.
    apply (lift_to_detector (topic_is (topic (state m)))); try reflexivity.
    + intros p m' Hm'. exact Hm'.
    + apply legacy_keeps_topic.
    + apply typed_keeps_topic.
  - intros chunks m.
    apply (lift_to_stream (topic_is (topic (state m)))); try reflexivity.
    + intros p m' Hm'. exact Hm'.
    + apply legacy_keeps_topic.
    + apply typed_keeps_topic.
Qed.

(** *** The searches *)

Ltac searches_leaf :=
  idtac;
  lazymatch goal with
  | |- preserves (searches_extend _) (modify _) =>
      let m := fresh "m" in let Hm := fresh "Hm" in
      intros m Hm; first [exact Hm | apply prefix_app_r; exact Hm]
  | |- preserves searches_counted (modify _) =>
      let m := fresh "m" in let Hm := fresh "Hm" in
      intros m Hm;
      first [ exact Hm
            | apply Forall_app; split; [exact Hm |];
              repeat constructor;
              match goal with
              | E : _ && truthy _ = true |- _ =>
                  apply andb_true_iff in E; exact (proj2 E)
              end ]
  | |- _ => frame_leaf
  end.

Lemma legacy_extends_searches (l : list SearchResult) (event : value) :
  preserves (searches_extend l) (processResearchEvent clock event).
Proof. unfold processResearchEvent. preserve_keeping searches_leaf. Qed.

Lemma typed_extends_searches (l : list SearchResult) (event : value) :
  preserves (searches_extend l) (processV5DataPart clock event).
Proof. unfold processV5DataPart. preserve_keeping searches_leaf. Qed.

Lemma legacy_keeps_searches_counted (event : value) :
  preserves searches_counted (processResearchEvent clock event).
Proof. unfold processResearchEvent. preserve_keeping searches_leaf. Qed.

Lemma typed_keeps_searches_counted (event : value) :
  preserves searches_counted (processV5DataPart clock event).
Proof. unfold processV5DataPart. preserve_keeping searches_leaf. Qed.

(** X9.  Over any stream the list of searches only grows at its end:
    what it held stays, in place and unaltered; and when every stored search
    has a truthy result count and no sources, so it is after the stream. *)
Theorem searches_only_grow (chunks : list string) (m : Machine) :
  searches (state m)
    `prefix_of` searches (state (snd (streamFromLangGraph JSON_parse clock chunks m)))
  /\ (searches_counted m ->
      searches_counted (snd (streamFromLangGraph JSON_parse clock chunks m))).
Proof.
  split.
  - apply (lift_to_stream (searches_extend (searches (state m)))).
    + intros p m' Hm'. exact Hm'.
    + apply legacy_extends_searches.
    + apply typed_extends_searches.
    + unfold searches_extend. reflexivity.
  - apply (lift_to_stream searches_counted).
    + intros p m' Hm'. exact Hm'.
    + apply legacy_keeps_searches_counted.
    + apply typed_keeps_searches_counted.
Qed.

(** *** The transcripts *)

Lemma map_index_app_found {A : Type} (k : value) (m m' : jsmap A) (i : nat) :
  map_index k m = Some i -> map_index k (m ++ m') = Some i.
Proof.
  revert i. induction m as [|[k' v] m IH]; intros i; simpl; [discriminate |].
  destruct (strict_eq k' k); [auto |].
  destruct (map_index k m) as [j|]; [| discriminate].
  rewrite (IH j eq_refl). auto.
Qed.

Lemma transcript_slot_grows (n k : value) (m : jsmap (list InterviewMessage)) :
  transcript_of n m `prefix_of` transcript_of n (fst (transcript_slot k m)).
Proof.
  unfold transcript_slot. destruct (map_index k m); [reflexivity |]. cbn [fst].
  unfold transcript_of at 1. destruct (map_index n m) as [i|] eqn:E.
  - unfold transcript_of. rewrite (map_index_app_found n m _ i E).
    unfold slot_messages. destruct (map_index_Some n m i E) as (k' & v & Hl & _).
    rewrite lookup_app_l by (apply lookup_lt_Some in Hl; exact Hl). reflexivity.
  - apply prefix_nil.
Qed.

Lemma slot_push_grows (n : value) (i : nat) (x : InterviewMessage)
    (m : jsmap (list InterviewMessage)) :
  transcript_of n m `prefix_of` transcript_of n (slot_push i x m).
Proof.
  unfold slot_push. destruct (m !! i) as [[k msgs]|] eqn:Hi; [| reflexivity].
  unfold transcript_of. rewrite (map_index_same_keys n k msgs (msgs ++ [x]) m i Hi).
  destruct (map_index n m) as [j|]; [| reflexivity].
  unfold slot_messages. destruct (decide (i = j)) as [<- |Hne].
  - rewrite Hi, list_lookup_insert_eq by (apply lookup_lt_Some in Hi; exact Hi).
    apply prefix_app_r. reflexivity.
  - rewrite list_lookup_insert_ne by exact Hne. reflexivity.
Qed.

(** [if (!interviews.has(k)) interviews.set(k, [])] on the state just
    read, then a computation that keeps the transcripts growing. *)
Lemma ensure_slot_extends {B : Type} (n k : value) (t : list InterviewMessage)
    (K : ResearchState -> M B) :
  (forall s, preserves (transcript_extends n t) (K s)) ->
  preserves (transcript_extends n t)
    (bind get_state (fun s =>
       bind (modify (set_interviews (fst (transcript_slot k (interviews s)))))
         (fun _ => K s))).
Proof.
  intros HK m Hm. unfold bind, get_state, modify. cbn [fst snd].
  match goal with |- context [K ?s ?m1] => specialize (HK s m1) end.
  destruct (K _ _) as [[b|] m2]; apply HK; unfold transcript_extends in *;
    (etrans; [exact Hm | apply transcript_slot_grows]).
Qed.

Ltac transcripts_leaf :=
  idtac;
  lazymatch goal with
  | |- preserves (transcript_extends _ _) (modify _) =>
      let m := fresh "m" in let Hm := fresh "Hm" in
      intros m Hm;
      first [ exact Hm
            | unfold transcript_extends in *;
              etrans; [exact Hm | apply slot_push_grows] ]
  | |- _ => frame_leaf
  end.

Lemma legacy_extends_transcripts (n : value) (t : list InterviewMessage)
    (event : value) :
  preserves (transcript_extends n t) (processResearchEvent clock event).
Proof.
  unfold processResearchEvent.
  preserve_keeping_after ltac:(apply ensure_slot_extends; intros ?) transcripts_leaf.
Qed.

Lemma typed_extends_transcripts (n : value) (t : list InterviewMessage)
    (event : value) :
  preserves (transcript_extends n t) (processV5DataPart clock event).
Proof.
  unfold processV5DataPart.
  preserve_keeping_after ltac:(apply ensure_slot_extends; intros ?) transcripts_leaf.
Qed.

(** X10.  Transcripts are append-only: over any stream, what the
    transcript of a participant held stays at its head, in order and
    unaltered. *)
Theorem transcripts_only_grow (n : value) (chunks : list string) (m : Machine) :
  transcript_of n (interviews (state m))
    `prefix_of`
  transcript_of n
    (interviews (state (snd (streamFromLangGraph JSON_parse clock chunks m)))).
Proof.
  apply (lift_to_stream (transcript_extends n (transcript_of n (interviews (state m))))).
  - intros p m' Hm'. exact Hm'.
  - apply legacy_extends_transcripts.
  - apply typed_extends_transcripts.
  - unfold transcript_extends. reflexivity.
Qed.

(** *** The phase *)

Ltac phase_leaf :=
  idtac;
  lazymatch goal with
  | |- preserves (phase_is _) (modify (set_phase _)) =>
      exfalso;
      match goal with
      | Hne : prop ?e "type" <> Some (VStr "progress"),
        H : prop ?e "type" = Some ?a,
        E : is_str ?a "progress" = true |- _ =>
          apply Hne; rewrite H; f_equal; apply strict_eq_eq; exact E
      | Hne : forall ty, prop ?e "type" = Some (VStr ty) -> _,
        H : prop ?e "type" = Some (VStr ?s),
        E : (replace_first "data-" ?s =? "progress")%string = true |- _ =>
          apply (Hne s H); apply String.eqb_eq; exact E
      end
  | |- _ => frame_leaf
  end.

(** X11.  Only a progress event moves the phase: a legacy element of any
    other type, and a discrete event of any other kind, an error event among
    them, leave the phase as it was. *)
Theorem phase_moves_on_progress_only (event : value) (m : Machine) :
  (prop event "type" <> Some (VStr "progress") ->
   phase (state (snd (processResearchEvent clock event m))) = phase (state m))
  /\ ((forall ty, prop event "type" = Some (VStr ty) ->
                  replace_first "data-" ty <> "progress") ->
      phase (state (snd (processV5DataPart clock event m))) = phase (state m)).
Proof.
  split; intros Hne.
  - assert (H : preserves (phase_is (phase (state m)))
                  (processResearchEvent clock event)).
    { unfold processResearchEvent. preserve_keeping phase_leaf. }
    apply (H m). reflexivity.
  - assert (H : preserves (phase_is (phase (state m)))
                  (processV5DataPart clock event)).
    { unfold processV5DataPart.
      preserve_keeping ltac:(subst; phase_leaf). }
    apply (H m). reflexivity.
Qed.

(** ** Errors and sections *)

(** X12.  A legacy error element with its data stores the error and
    forwards it as one transient part, and touches nothing else; the
    discrete event stores the same error and forwards its data only when
    flagged transient.  Without data the legacy element raises and changes
    nothing, while the discrete event raises after the part is written. *)
Theorem error_reconciliation (d id tr : value) (m : Machine) :
  (nullish d = false ->
   processResearchEvent clock (legacy_element "error" d) m
   = (Some tt,
      emit (transient "data-error" (PError (Some (error_of d))))
        (with_state (set_error (error_of d) (state m)) m))
   /\ processV5DataPart clock (typed_event "error" d id tr) m
      = (Some tt,
         with_state (set_error (error_of d) (state m))
           (if truthy tr then emit (transient "data-error" (PData d)) m else m)))
  /\ (nullish d = true ->
      processResearchEvent clock (legacy_element "error" d) m = (None, m)
      /\ processV5DataPart clock (typed_event "error" d id tr) m
         = (None, if truthy tr then emit (transient "data-error" (PData d)) m
                  else m)).
Proof.
  split; intros Hd.
  - split.
    + destruct d; try discriminate; reflexivity.
    + unfold processV5DataPart, typed_event, bind, get. simpl.
      destruct d; try discriminate; destruct (truthy tr); reflexivity.
  - split.
    + destruct d; try discriminate; reflexivity.
    + unfold processV5DataPart, typed_event, bind, get. simpl.
      destruct d; try discriminate; destruct (truthy tr); reflexivity.
Qed.

Lemma typed_section_step (d id tr : value) (m : Machine) :
  nullish d = false ->
  let stored :=
    if truthy id
    then map_set (opt_prop d "analystName") (opt_prop d "contentPreview")
           (sections (state m))
    else sections (state m) in
  let m' := with_state (set_sections stored (state m)) m in
  processV5DataPart clock (typed_event "section" d id tr) m
  = (Some tt,
     if truthy tr then m'
     else emit (persistent "data-sections" (PSections (fromEntries stored))) m').
Proof.
  intros Hd. cbv zeta.
  unfold processV5DataPart, typed_event, bind, get. simpl.
  destruct d; try discriminate; simpl;
    destruct (truthy id), (truthy tr); simpl; try reflexivity;
    destruct m as [[] ? ?]; reflexivity.
Qed.

(** X13.  A discrete section event is stored only when it has an id, and
    forwarded only when it is not flagged transient: without an id the
    sections stay as they were, and the part that is written carries the old
    sections. *)
Theorem typed_section_needs_id (d id tr : value) (m : Machine) :
  nullish d = false ->
  let stored :=
    if truthy id
    then map_set (opt_prop d "analystName") (opt_prop d "contentPreview")
           (sections (state m))
    else sections (state m) in
  let m' := with_state (set_sections stored (state m)) m in
  processV5DataPart clock (typed_event "section" d id tr) m
  = (Some tt,
     if truthy tr then m'
     else emit (persistent "data-sections" (PSections (fromEntries stored))) m').
Proof.
  intros Hd. cbv zeta.
  unfold processV5DataPart, typed_event, bind, get. simpl.
  destruct d; try discriminate; simpl;
    destruct (truthy id), (truthy tr); simpl; try reflexivity;
    destruct m as [[] ? ?]; reflexivity.
Qed.

(** ** Sections are kept by analyst name *)

Lemma fold_entries_insert {A : Type} (m : jsmap A) (s : string) (v : A)
    (acc : gmap string A) :
  (forall kv, kv ∈ m -> to_property_key (fst kv) <> s) ->
  fold_left (fun acc kv => <[to_property_key (fst kv) := snd kv]> acc) m
    (<[s := v]> acc)
  = <[s := v]>
      (fold_left (fun acc kv => <[to_property_key (fst kv) := snd kv]> acc) m acc).
Proof.
  revert acc. induction m as [|kv m IH]; intros acc Hm; [reflexivity |].
  cbn [fold_left]. rewrite <- IH.
  - f_equal. apply insert_insert_ne. apply Hm. left.
  - intros kv' Hin. apply Hm. right. exact Hin.
Qed.

Lemma string_keyed_cons {A : Type} (k : value) (v : A) (m : jsmap A) :
  string_keyed ((k, v) :: m) ->
  (exists s, k = VStr s) /\ (k ∉ List.map fst m) /\ string_keyed m.
Proof.
  intros [Hnd Hs]. cbn [List.map fst] in *.
  apply NoDup_cons in Hnd as [Hk Hnd].
  split; [exact (Forall_inv Hs) |]. split; [exact Hk |].
  split; [exact Hnd | exact (Forall_inv_tail Hs)].
Qed.

Lemma map_set_keys {A : Type} (s : string) (v : A) (m : jsmap A) :
  List.map fst (map_set (VStr s) v m)
  = if map_has (VStr s) m then List.map fst m else List.map fst m ++ [VStr s].
Proof.
  unfold map_set, map_has.
  destruct (map_index (VStr s) m) as [i|] eqn:E.
  - destruct (map_index_Some _ _ _ E) as (k' & v' & Hl & Hk).
    apply strict_eq_eq in Hk. subst k'.
    change (List.map fst (<[i:=(VStr s, v)]> m)) with (fst <$> <[i:=(VStr s, v)]> m).
    rewrite list_fmap_insert. apply list_insert_id.
    rewrite list_lookup_fmap, Hl. reflexivity.
  - rewrite List.map_app. reflexivity.
Qed.

Lemma map_has_elem {A : Type} (s : string) (m : jsmap A) :
  map_has (VStr s) m = true <-> VStr s ∈ List.map fst m.
Proof.
  unfold map_has. induction m as [|[k v] m IH]; simpl.
  - split; [discriminate | intros H; inversion H].
  - destruct (strict_eq k (VStr s)) eqn:E.
    + apply strict_eq_eq in E. subst k.
      split; [intros _; left | reflexivity].
    + rewrite elem_of_cons. destruct (map_index (VStr s) m).
      * split; [intros _; right; apply IH; reflexivity | reflexivity].
      * split; [discriminate |]. intros [<- | H].
        -- rewrite strict_eq_refl in E by reflexivity. discriminate.
        -- apply IH in H. discriminate.
Qed.

Lemma map_set_keeps_string_keyed {A : Type} (s : string) (v : A) (m : jsmap A) :
  string_keyed m -> string_keyed (map_set (VStr s) v m).
Proof.
  intros [Hnd Hs]. unfold string_keyed. rewrite map_set_keys.
  destruct (map_has (VStr s) m) eqn:E; [split; assumption |].
  split.
  - apply NoDup_app. split; [exact Hnd |]. split; [| apply NoDup_singleton].
    intros x Hx Hx'. apply list_elem_of_singleton in Hx'. subst x.
    apply map_has_elem in Hx. congruence.
  - apply Forall_app. split; [exact Hs |]. repeat constructor. eauto.
Qed.

Lemma fold_map_set {A : Type} (s : string) (v : A) (m : jsmap A)
    (acc : gmap string A) :
  string_keyed m ->
  fold_left (fun acc kv => <[to_property_key (fst kv) := snd kv]> acc)
    (map_set (VStr s) v m) acc
  = <[s := v]>
      (fold_left (fun acc kv => <[to_property_key (fst kv) := snd kv]> acc) m acc).
Proof.
  revert acc. induction m as [|[k v0] m IH]; intros acc Hm; [reflexivity |].
  apply string_keyed_cons in Hm as ([s' ->] & Hk & Hm).
  unfold map_set. cbn [map_index].
  destruct (strict_eq (VStr s') (VStr s)) eqn:E.
  - apply strict_eq_eq in E. injection E as ->.
    cbn [fold_left fst snd to_property_key].
    change (<[0:=(VStr s, v)]> ((VStr s, v0) :: m)) with ((VStr s, v) :: m).
    cbn [fold_left fst snd to_property_key].
    assert (Hother : forall kv, kv ∈ m -> to_property_key (fst kv) <> s).
    { intros [k1 v1] Hin Heq. cbn [fst] in Heq.
      destruct Hm as [_ Hs]. rewrite Forall_forall in Hs.
      assert (Hk1 : k1 ∈ List.map fst m).
      { apply list_elem_of_fmap. exists (k1, v1). split; [reflexivity | exact Hin]. }
      destruct (Hs k1 Hk1) as [s1 ->].
      cbn [to_property_key] in Heq. subst s1. exact (Hk Hk1). }
    rewrite !fold_entries_insert by exact Hother.
    symmetry. apply insert_insert_eq.
  - specialize (IH (<[s' := v0]> acc) Hm). unfold map_set in IH.
    destruct (map_index (VStr s) m) as [i|]; exact IH.
Qed.

(** [Object.fromEntries] after [Map.set] on a map keyed by strings. *)
Lemma fromEntries_map_set {A : Type} (s : string) (v : A) (m : jsmap A) :
  string_keyed m ->
  fromEntries (map_set (VStr s) v m) = <[s := v]> (fromEntries m).
Proof. apply fold_map_set. Qed.

(** X14.  Sections are kept by analyst name, the last preview winning: when
    the names stored so far are strings, a section event for the name [n]
    leaves an object that is the previous one with [n] set to the new preview,
    which is also what the part written for it carries; and the names stay
    strings, each stored once.  (Names that are not strings may share a
    property key, and the object then need not show the last preview.) *)
Theorem sections_are_kept_by_name (d id tr : value) (n : string) (m : Machine) :
  nullish d = false ->
  opt_prop d "analystName" = VStr n ->
  string_keyed (sections (state m)) ->
  let after :=
    <[n := opt_prop d "contentPreview"]> (fromEntries (sections (state m))) in
  (exists m',
      processResearchEvent clock (legacy_element "section" d) m = (Some tt, m')
      /\ string_keyed (sections (state m'))
      /\ fromEntries (sections (state m')) = after
      /\ sink m' = sink m ++ [persistent "data-sections" (PSections after)])
  /\ (truthy id = true ->
      exists m',
        processV5DataPart clock (typed_event "section" d id tr) m = (Some tt, m')
        /\ string_keyed (sections (state m'))
        /\ fromEntries (sections (state m')) = after
        /\ sink m' = if truthy tr then sink m
                     else sink m ++ [persistent "data-sections" (PSections after)]).
Proof.
  intros Hd Hn Hm. cbv zeta.
  pose proof (map_set_keeps_string_keyed n (opt_prop d "contentPreview") _ Hm)
    as Hkeep.
  pose proof (fromEntries_map_set n (opt_prop d "contentPreview") _ Hm) as Hobj.
  split.
  - exists (emit (persistent "data-sections"
                    (PSections
                       (fromEntries
                          (map_set (VStr n) (opt_prop d "contentPreview")
                             (sections (state m))))))
              (with_state
                 (set_sections
                    (map_set (VStr n) (opt_prop d "contentPreview")
                       (sections (state m))) (state m)) m)).
    split.
    + unfold processResearchEvent, legacy_element, bind, get, modify, get_state,
        write. simpl.
      unfold opt_prop in *.
      destruct d; try discriminate; simpl in *; rewrite Hn; reflexivity.
    + simpl. split; [exact Hkeep | split; [exact Hobj |]].
      rewrite Hobj. reflexivity.
  - intros Hid. eexists. split.
    + rewrite typed_section_step by exact Hd. rewrite Hid, Hn. reflexivity.
    + destruct (truthy tr); simpl;
        (split; [exact Hkeep | split; [exact Hobj |]]);
        rewrite ?Hobj; reflexivity.
Qed.

(** ** Analysts that are already in the roster *)

Lemma fold_add_name_keeps (names seen : list value) (x : value) :
  existsb (fun y => strict_eq y x) seen = true ->
  existsb (fun y => strict_eq y x) (fold_left add_name names seen) = true.
Proof.
  revert seen. induction names as [|n names IH]; intros seen H; [exact H |].
  cbn [fold_left]. apply IH, add_name_keeps, H.
Qed.

Lemma fold_add_name_has (names seen : list value) (x : value) :
  primitive x = true -> x ∈ names ->
  existsb (fun y => strict_eq y x) (fold_left add_name names seen) = true.
Proof.
  intros Hx. revert seen. induction names as [|n names IH]; intros seen Hin.
  - inversion Hin.
  - cbn [fold_left]. apply elem_of_cons in Hin as [<- | Hin]; [| apply IH, Hin].
    apply fold_add_name_keeps. unfold add_name.
    destruct (existsb (fun y => strict_eq y x) seen) eqn:E; [exact E |].
    rewrite existsb_app. cbn [existsb].
    rewrite strict_eq_refl by exact Hx. rewrite orb_true_r. reflexivity.
Qed.

Lemma known_batch_is_dropped (skip : value -> bool) (payloads : list value)
    (m : Machine) :
  Forall (fun d => skip (opt_prop d "name") = true) payloads ->
  process_batch clock skip (List.map (legacy_element "analyst") payloads) m
  = (Some tt, m).
Proof.
  induction 1 as [|d ds Hd _ IH]; [reflexivity |].
  cbn [List.map]. rewrite process_batch_analyst, Hd. exact IH.
Qed.

Lemma known_line_is_dropped (l : AnalystLine) (m : Machine) :
  Forall (fun d => processed_has (analysts (state m)) (opt_prop d "name") = true)
    (line_payloads l) ->
  match l with
  | AnalystBatch _ => True
  | AnalystEvent d _ _ => truthy (opt_prop d "name") = true
  end ->
  processLangGraphEvent JSON_parse clock (line_event l) m = (Some tt, m).
Proof.
  intros Hk Ht. destruct l as [payloads | d id tr]; cbn [line_event line_payloads] in *.
  - rewrite (legacy_batch_is_process_batch JSON_parse clock).
    apply known_batch_is_dropped. exact Hk.
  - apply Forall_inv in Hk.
    rewrite (typed_analyst_guard JSON_parse clock), Ht, Hk. reflexivity.
Qed.

(** X15.  A line of analysts who are all in the roster already changes
    nothing and writes nothing, whatever fields it carries: a legacy batch of
    analyst elements whose names are all known, and a discrete analyst event
    whose name is truthy and known. *)
Theorem known_analysts_are_dropped (payloads : list value) (d id tr : value)
    (m : Machine) :
  (Forall (fun d => processed_has (analysts (state m)) (opt_prop d "name") = true)
     payloads ->
   processLangGraphEvent JSON_parse clock (line_event (AnalystBatch payloads)) m
   = (Some tt, m))
  /\ (truthy (opt_prop d "name") = true ->
      processed_has (analysts (state m)) (opt_prop d "name") = true ->
      processLangGraphEvent JSON_parse clock (line_event (AnalystEvent d id tr)) m
      = (Some tt, m)).
Proof.
  split.
  - intros H. apply (known_line_is_dropped (AnalystBatch payloads)); [exact H | exact I].
  - intros Ht Hk. apply (known_line_is_dropped (AnalystEvent d id tr)); [| exact Ht].
    constructor; [exact Hk | constructor].
Qed.

(** X16.  Delivering a line of analysts a second time has no effect: when
    the payloads are objects whose names are truthy strings, numbers or
    booleans, the line processed right after itself leaves the state and the
    sink as its first delivery left them. *)
Theorem redelivered_analysts_are_dropped (l : AnalystLine) (m : Machine) :
  Forall (fun d => nullish d = false
                   /\ primitive (opt_prop d "name") = true
                   /\ truthy (opt_prop d "name") = true) (line_payloads l) ->
  let m1 := snd (processLangGraphEvent JSON_parse clock (line_event l) m) in
  processLangGraphEvent JSON_parse clock (line_event l) m1 = (Some tt, m1).
Proof.
  intros Hall. cbv zeta.
  assert (Hds : Forall (fun d => nullish d = false) (line_payloads l)).
  { eapply Forall_impl; [exact Hall |]. intros d H. apply H. }
  pose proof (analyst_line_names JSON_parse clock l m Hds) as Hnames.
  set (m1 := snd (processLangGraphEvent JSON_parse clock (line_event l) m)) in *.
  assert (Hknown : Forall (fun d => processed_has (analysts (state m1))
                                      (opt_prop d "name") = true)
                     (line_payloads l)).
  { rewrite Forall_forall. intros d Hd.
    rewrite processed_has_names, Hnames.
    apply fold_add_name_has.
    - rewrite Forall_forall in Hall. apply (Hall d Hd).
    - apply list_elem_of_fmap. exists d. split; [reflexivity | exact Hd]. }
  apply known_line_is_dropped; [exact Hknown |].
  destruct l as [payloads | d id tr]; [exact I |].
  apply Forall_inv in Hall. apply Hall.
Qed.

(** ** What an interview event stores and writes *)

Lemma legacy_interview_step (d md : value) (m : Machine) :
  nullish d = false ->
  let n := opt_prop d "analystName" in
  let p := opt_prop d "messagePreview" in
  let slot := transcript_slot n (interviews (state m)) in
  let hint := interview_hint d md (clock (ticks m)) in
  reconcile_interview clock (LegacyInterview d md) m
  = (Some tt,
     if is_new_message n p (interviews (state m)) && truthy n then
       let s' := set_interviews
                   (slot_push (snd slot) (legacy_message d md (clock (S (ticks m))))
                      (fst slot)) (state m) in
       {| state := s'; sink := sink m ++ [hint] ++ [interviews_update s'];
          ticks := S (S (ticks m)) |}
     else
       {| state := set_interviews (fst slot) (state m);
          sink := sink m ++ [hint]; ticks := S (ticks m) |}).
Proof.
  intros Hd. cbv zeta.
  destruct (metadata_has_role md) as [r Hr].
  assert (Hrole : opt_prop (js_or md (VObj [])) "role" = r).
  { unfold opt_prop. rewrite Hr. reflexivity. }
  unfold is_new_message, legacy_message, interview_hint, interviews_update.
  rewrite Hrole.
  destruct d as [| | | | | |fields]; try discriminate;
    unfold reconcile_interview, processResearchEvent, bind, get, now, write,
      modify, get_state; simpl; unfold opt_prop; simpl.
  all: try (rewrite Hr; simpl; rewrite <- app_assoc; reflexivity).
  all: try reflexivity.
  destruct (truthy (lookup_field "messagePreview" fields)); simpl;
    [| reflexivity].
  destruct (truthy (lookup_field "analystName" fields)); simpl;
    [| rewrite andb_false_r; reflexivity].
  rewrite Hr. simpl. rewrite andb_true_r.
  destruct (differs_from_last _ _); simpl; [| reflexivity].
  rewrite <- app_assoc. reflexivity.
Qed.

Lemma typed_interview_step (d id tr : value) (m : Machine) :
  nullish d = false ->
  let n := opt_prop d "analystName" in
  let p := opt_prop d "messagePreview" in
  let slot := transcript_slot n (interviews (state m)) in
  reconcile_interview clock (TypedInterview d id tr) m
  = (Some tt,
     if is_new_message n p (interviews (state m)) then
       let s' := set_interviews
                   (slot_push (snd slot) (typed_message d (clock (ticks m)))
                      (fst slot)) (state m) in
       {| state := s'; sink := sink m ++ [interviews_update s'];
          ticks := if truthy (opt_prop d "timestamp") then ticks m
                   else S (ticks m) |}
     else with_state (set_interviews (fst slot) (state m)) m).
Proof.
  intros Hd. cbv zeta.
  unfold is_new_message, typed_message, interviews_update, with_state.
  destruct d as [| | | | | |fields]; try discriminate;
    unfold reconcile_interview, processV5DataPart, typed_event, bind, get, now,
      write, modify, get_state; simpl; unfold opt_prop; simpl.
  all: try reflexivity.
  destruct (truthy (lookup_field "messagePreview" fields)); simpl;
    [| reflexivity].
  destruct (differs_from_last _ _); simpl; [| reflexivity].
  destruct (lookup_field "metadata" fields); simpl;
    destruct (truthy (lookup_field "timestamp" fields)) eqn:Et; simpl;
    unfold js_or; rewrite ?Et; reflexivity.
Qed.

(** X17.  What an interview event writes.  The legacy reconciler writes a
    transient [data-interview] part for every interview event, stamped with
    the clock, and after it the transcripts only when the event appended a
    message, which takes a truthy preview that differs from the last stored
    content and a truthy participant name.  The typed reconciler never
    writes the [data-interview] part; it writes the transcripts when the
    event appended a message, for which the name need not be truthy, and
    neither the id nor the transient flag of the event changes that. *)
Theorem interview_parts (d md id tr : value) (m : Machine) :
  nullish d = false ->
  let n := opt_prop d "analystName" in
  let p := opt_prop d "messagePreview" in
  let fresh := is_new_message n p (interviews (state m)) in
  let legacy := snd (reconcile_interview clock (LegacyInterview d md) m) in
  let typed := snd (reconcile_interview clock (TypedInterview d id tr) m) in
  sink legacy
  = sink m ++ interview_hint d md (clock (ticks m))
      :: (if fresh && truthy n then [interviews_update (state legacy)] else [])
  /\ sink typed
     = sink m ++ (if fresh then [interviews_update (state typed)] else []).
Proof.
  intros Hd. cbv zeta.
  rewrite legacy_interview_step, typed_interview_step by exact Hd. cbv zeta.
  split.
  - destruct (is_new_message _ _ _ && truthy _); reflexivity.
  - destruct (is_new_message _ _ _); simpl; [reflexivity |].
    symmetry. apply app_nil_r.
Qed.

(** X18.  What an interview event stores.  Both reconcilers first make sure
    the participant has a transcript, also when nothing is appended.  The
    message the legacy reconciler appends takes its role from the metadata of
    the event, else from the status, and its timestamp from a second reading
    of the clock, after the one that stamped the [data-interview] part.  The
    message the typed reconciler appends takes its role from the metadata
    inside the payload, else from the status, and its timestamp from the
    payload, reading the clock only when the payload has none. *)
Theorem interview_message (d md id tr : value) (m : Machine) :
  nullish d = false ->
  let n := opt_prop d "analystName" in
  let p := opt_prop d "messagePreview" in
  let fresh := is_new_message n p (interviews (state m)) in
  let slot := transcript_slot n (interviews (state m)) in
  let legacy := snd (reconcile_interview clock (LegacyInterview d md) m) in
  let typed := snd (reconcile_interview clock (TypedInterview d id tr) m) in
  interviews (state legacy)
  = (if fresh && truthy n
     then slot_push (snd slot) (legacy_message d md (clock (S (ticks m)))) (fst slot)
     else fst slot)
  /\ interviews (state typed)
     = (if fresh
        then slot_push (snd slot) (typed_message d (clock (ticks m))) (fst slot)
        else fst slot)
  /\ ticks typed
     = (if fresh && negb (truthy (opt_prop d "timestamp"))
        then S (ticks m) else ticks m).
Proof.
  intros Hd. cbv zeta.
  rewrite legacy_interview_step, typed_interview_step by exact Hd. cbv zeta.
  split; [| split].
  - destruct (is_new_message _ _ _ && truthy _); reflexivity.
  - destruct (is_new_message _ _ _); reflexivity.
  - destruct (is_new_message _ _ _); simpl; [| reflexivity].
    destruct (truthy (opt_prop d "timestamp")); reflexivity.
Qed.

(** *** The sink *)

Ltac appended_leaf :=
  idtac;
  lazymatch goal with
  | |- preserves (sink_extends _) (write _) =>
      let m := fresh "m" in let Hm := fresh "Hm" in
      intros m Hm; apply prefix_app_r; exact Hm
  | |- preserves (sink_extends _) (modify _) =>
      let m := fresh "m" in let Hm := fresh "Hm" in intros m Hm; exact Hm
  | |- preserves (sink_extends _) (now _) =>
      let m := fresh "m" in let Hm := fresh "Hm" in intros m Hm; exact Hm
  end.

Lemma write_extends_sink (l : list UIPart) (p : UIPart) :
  preserves (sink_extends l) (write p).
Proof. appended_leaf. Qed.

Lemma legacy_extends_sink (l : list UIPart) (event : value) :
  preserves (sink_extends l) (processResearchEvent clock event).
Proof. unfold processResearchEvent. preserve_keeping appended_leaf. Qed.

Lemma typed_extends_sink (l : list UIPart) (event : value) :
  preserves (sink_extends l) (processV5DataPart clock event).
Proof. unfold processV5DataPart. preserve_keeping appended_leaf. Qed.

Lemma loop_extends_sink (chunks : list string) (buffer : string) (m : Machine) :
  sink m `prefix_of` sink (snd (read_loop JSON_parse clock chunks buffer m)).
Proof.
  apply (lift_to_loop (sink_extends (sink m))).
  - apply write_extends_sink.
  - apply legacy_extends_sink.
  - apply typed_extends_sink.
  - unfold sink_extends. reflexivity.
Qed.


(** ** The request *)

(** From the first read on, [stream_from] is [streamFromLangGraph]. *)
Lemma stream_from_body (chunks : list string) (m : Machine) :
  streamFromLangGraph JSON_parse clock chunks m
  = (Some tt, snd (stream_from JSON_parse clock (Body chunks None) m))
  /\ fst (stream_from JSON_parse clock (Body chunks None) m) = None.
Proof.
  split; [| reflexivity].
  rewrite (stream_ends_with_snapshot JSON_parse clock). reflexivity.
Qed.

Lemma loop_after_state_part (chunks : list string) (query : string) :
  let m0 := emit (research_state_part query) (start query) in
  exists written,
    sink (snd (read_loop JSON_parse clock chunks "" m0))
    = research_state_part query :: written
    /\ Forall (fun p => is_complete p = false) written
    /\ topic (state (snd (read_loop JSON_parse clock chunks "" m0))) = query.
Proof.
  cbv zeta.
  set (m0 := emit (research_state_part query) (start query)).
  destruct (loop_extends_sink chunks "" m0) as [written Hw].
  exists written. split; [exact Hw |]. split.
  - assert (Hnc : no_complete m0) by (repeat constructor).
    apply (read_loop_sink JSON_parse clock chunks "") in Hnc.
    unfold no_complete in Hnc. rewrite Hw in Hnc.
    apply Forall_app in Hnc. apply Hnc.
  - apply (lift_to_loop (topic_is query)); try reflexivity.
    + intros p m' Hm'. exact Hm'.
    + apply legacy_keeps_topic.
    + apply typed_keeps_topic.
Qed.

(** X19.  The shape of every stream.  Whatever the upstream service does,
    what [execute] has written starts with the part that announces the
    phase [initialization] and the query as the topic.
    When the service gives no body, one transient error part follows, with
    the message and the kind of what was thrown, and that is all.  When it
    gives a body, the parts of the events follow, none of which is the
    terminal part, and then one closing part: the snapshot of the state, with
    the query as its topic still, when the body ends, and the error part
    when a read fails.  A failed read costs the snapshot and nothing else:
    the parts before it are those the same chunks give when the body ends
    after them. *)
Theorem every_stream_has_one_closing_part (query : string) :
  (forall up e,
     thrown_by up = Some e ->
     match up with Body _ _ => False | _ => True end ->
     sink (execute JSON_parse clock up (start query))
     = [research_state_part query; failure_part e])
  /\ (forall chunks,
        exists written s,
          Forall (fun p => is_complete p = false) written
          /\ topic s = query
          /\ forall failure,
               sink (execute JSON_parse clock (Body chunks failure) (start query))
               = research_state_part query
                   :: written
                   ++ [match failure with
                       | None => snapshot s
                       | Some e => failure_part e
                       end]).
Proof.
  split.
  - intros up e He Hup.
    destruct up as [e' | status statusText errorBody | | chunks failure];
      try contradiction; cbn [thrown_by] in He; injection He as <-; reflexivity.
  - intros chunks.
    destruct (loop_after_state_part chunks query) as (written & Hw & Hnc & Ht).
    exists written.
    exists (state (snd (read_loop JSON_parse clock chunks ""
                          (emit (research_state_part query) (start query))))).
    split; [exact Hnc | split; [exact Ht |]].
    intros failure. unfold execute, stream_from.
    change (emit _ (start query)) with (emit (research_state_part query) (start query)).
    cbv zeta. destruct failure as [e|]; cbn [fst snd sink emit];
      rewrite Hw; reflexivity.
Qed.

Lemma is_user_iff (m : UIMessage) :
  (role_name (ui_role m) =? "user")%string = true <-> ui_role m = RoleUser.
Proof. destruct (ui_role m); simpl; split; congruence. Qed.

Lemma filter_none {A : Type} (p : A -> bool) (l : list A) :
  Forall (fun x => p x = false) l -> List.filter p l = [].
Proof. induction 1 as [|x l Hx _ IH]; [reflexivity |]. simpl. rewrite Hx. exact IH. Qed.

Lemma last_filter {A : Type} (p : A -> bool) (l : list A) (u : A) :
  last (List.filter p l) = Some u
  <-> exists before after,
        l = before ++ u :: after /\ p u = true
        /\ Forall (fun x => p x = false) after.
Proof.
  split.
  - induction l as [|x l IH] using rev_ind; [discriminate |].
    rewrite List.filter_app. cbn [List.filter].
    destruct (p x) eqn:E.
    + rewrite last_snoc. intros [= <-]. exists l, []. repeat split; [exact E | constructor].
    + rewrite app_nil_r. intros H.
      destruct (IH H) as (before & after & -> & Hu & Hafter).
      exists before, (after ++ [x]). split; [| split; [exact Hu |]].
      * rewrite <- app_assoc. reflexivity.
      * apply Forall_app. split; [exact Hafter | repeat constructor; exact E].
  - intros (before & after & -> & Hu & Hafter).
    rewrite List.filter_app. cbn [List.filter]. rewrite Hu, (filter_none p after Hafter).
    apply last_snoc.
Qed.

(** X20.  A request is answered with a stream exactly when its body is
    valid, the session has a user, and the last message of the role [user]
    has content that is not blank; the stream is then the one [execute]
    writes for that content as the query, whatever messages come before or
    after it. *)
Theorem post_streams_iff (body : option (list UIMessage)) (signed_in : bool)
    (up : Upstream) (parts : list UIPart) :
  POST JSON_parse clock body signed_in up = Stream parts
  <-> signed_in = true
      /\ exists before u after,
           body = Some (before ++ u :: after)
           /\ ui_role u = RoleUser
           /\ no_user_message after
           /\ trim (extractContent u) <> ""
           /\ parts = sink (execute JSON_parse clock up (start (extractContent u))).
Proof.
  unfold POST. split.
  - destruct body as [messages|]; [| discriminate].
    destruct signed_in; [| discriminate]. cbn [negb].
    destruct (last _) as [u|] eqn:E; [| discriminate].
    apply last_filter in E as (before & after & -> & Hu & Hafter).
    destruct (nonempty (trim (extractContent u))) eqn:Eq; [| discriminate].
    intros [= <-]. split; [reflexivity |]. exists before, u, after.
    split; [reflexivity |]. split; [apply is_user_iff, Hu |]. split.
    + eapply Forall_impl; [exact Hafter |]. intros m Hm Hr.
      apply is_user_iff in Hr. simpl in Hm. congruence.
    + split; [| reflexivity]. intros Hblank. unfold nonempty in Eq.
      rewrite Hblank in Eq. discriminate.
  - intros (-> & before & u & after & -> & Hu & Hafter & Hq & ->). cbn [negb].
    assert (E : last (List.filter (fun m => (role_name (ui_role m) =? "user")%string)
                        (before ++ u :: after)) = Some u).
    { apply last_filter. exists before, after. split; [reflexivity |].
      split; [apply is_user_iff, Hu |].
      eapply Forall_impl; [exact Hafter |]. intros m Hm. simpl.
      destruct (role_name (ui_role m) =? "user")%string eqn:Er; [| reflexivity].
      apply is_user_iff in Er. contradiction. }
    rewrite E. unfold nonempty.
    destruct (trim (extractContent u) =? "")%string eqn:Eq; [| reflexivity].
    apply String.eqb_eq in Eq. contradiction.
Qed.

(** X21.  The checks of a request come in a fixed order: a body that is not
    valid is a bad request whether or not anyone is signed in; with a valid
    body and no user in the session the answer is [unauthorized] whatever
    the messages are; and a signed-in request without a message of the role
    [user], or whose last such message is blank, is a bad request.  In none
    of these cases is anything asked of the upstream service. *)
Theorem request_checks_are_ordered (messages : list UIMessage)
    (signed_in : bool) (up : Upstream) :
  POST JSON_parse clock None signed_in up = BadRequest
  /\ POST JSON_parse clock (Some messages) false up = Unauthorized
  /\ (no_user_message messages ->
      POST JSON_parse clock (Some messages) true up = BadRequest)
  /\ (forall before u after,
        messages = before ++ u :: after -> ui_role u = RoleUser ->
        no_user_message after -> trim (extractContent u) = "" ->
        POST JSON_parse clock (Some messages) true up = BadRequest).
Proof.
  split; [reflexivity |]. split; [reflexivity |]. split.
  - intros Hnone. unfold POST. cbn [negb].
    rewrite filter_none; [reflexivity |].
    eapply Forall_impl; [exact Hnone |]. intros m Hm. simpl.
    destruct (role_name (ui_role m) =? "user")%string eqn:Er; [| reflexivity].
    apply is_user_iff in Er. contradiction.
  - intros before u after -> Hu Hafter Hblank. unfold POST. cbn [negb].
    assert (E : last (List.filter (fun m => (role_name (ui_role m) =? "user")%string)
                        (before ++ u :: after)) = Some u).
    { apply last_filter. exists before, after. split; [reflexivity |].
      split; [apply is_user_iff, Hu |].
      eapply Forall_impl; [exact Hafter |]. intros m Hm. simpl.
      destruct (role_name (ui_role m) =? "user")%string eqn:Er; [| reflexivity].
      apply is_user_iff in Er. contradiction. }
    rewrite E, Hblank. reflexivity.
Qed.

(** ** The two shapes of one event *)

(** A discrete event on its way through the detector: a known analyst with
    a truthy name and a heartbeat go no further. *)
Lemma discrete_event_dispatch (kind : string) (d : value) (m : Machine) :
  processLangGraphEvent JSON_parse clock (discrete_event kind d) m
  = if (kind =? "analyst")%string && truthy (opt_prop d "name")
       && processed_has (analysts (state m)) (opt_prop d "name")
    then (Some tt, m)
    else if (kind =? "heartbeat")%string then (Some tt, m)
    else processV5DataPart clock (discrete_event kind d) m.
Proof.
  unfold processLangGraphEvent, discrete_event.
  change ("data-" ++ kind)%string
    with (String "d" (String "a" (String "t" (String "a" (String "-" kind))))).
  unfold bind, get, type_startsWith_data, startsWith.
  cbn [prop lookup_field String.eqb Ascii.eqb Bool.eqb ret typeof_object get_state
         is_str strict_eq].
  assert (Hp : String.prefix "data-"
                 (String "d" (String "a" (String "t" (String "a" (String "-" kind)))))
               = true) by (destruct kind; reflexivity).
  rewrite Hp.
  destruct ((kind =? "analyst")%string && truthy (opt_prop d "name")
            && processed_has (analysts (state m)) (opt_prop d "name"));
    [reflexivity |].
  destruct (kind =? "heartbeat")%string; reflexivity.
Qed.

Lemma other_kinds_dispatch (kind : string) (d : value) (m : Machine) :
  (kind =? "analyst")%string = false -> (kind =? "heartbeat")%string = false ->
  processLangGraphEvent JSON_parse clock (VArr [legacy_element kind d]) m
  = processResearchEvent clock (legacy_element kind d) m
  /\ processLangGraphEvent JSON_parse clock (discrete_event kind d) m
     = processV5DataPart clock (discrete_event kind d) m.
Proof.
  intros Ha Hh. rewrite (single_element_batch JSON_parse clock), discrete_event_dispatch.
  rewrite Ha, Hh. split; reflexivity.
Qed.

Lemma unrecognized_is_ignored (kind : string) (d : value) (m : Machine) :
  recognized kind = false \/ kind = "metadata" ->
  processResearchEvent clock (legacy_element kind d) m = (Some tt, m).
Proof.
  intros H.
  assert (Hk : (kind =? "analyst")%string = false
               /\ (kind =? "progress")%string = false
               /\ (kind =? "interview")%string = false
               /\ (kind =? "search")%string = false
               /\ (kind =? "section")%string = false
               /\ (kind =? "error")%string = false).
  { destruct H as [H | ->]; [| repeat split; reflexivity].
    unfold recognized in H. cbn [existsb] in H.
    rewrite !orb_false_iff in H. tauto. }
  destruct Hk as (Ha & Hp & Hi & Hs & Hc & He).
  unfold processResearchEvent, legacy_element, bind, get, is_str.
  cbn [prop lookup_field String.eqb Ascii.eqb Bool.eqb ret strict_eq].
  rewrite Ha, Hp, Hi, Hs, Hc, He.
  destruct (kind =? "metadata")%string; reflexivity.
Qed.

Lemma legacy_interview_element (d : value) (m : Machine) :
  processResearchEvent clock (legacy_element "interview" d) m
  = reconcile_interview clock (LegacyInterview d VUndef) m.
Proof. reflexivity. Qed.

Lemma discrete_interview_event (d : value) (m : Machine) :
  processV5DataPart clock (discrete_event "interview" d) m
  = reconcile_interview clock (TypedInterview d VUndef VUndef) m.
Proof. reflexivity. Qed.

(** C1 (amended).  A legacy batch that holds the one element
    [{type: kind, data: d}] and the discrete event
    [{type: "data-" + kind, data: d}], both through the detector.

    They give the same result, state and sink for an analyst whose name is
    truthy or not in the roster, and for metadata and every kind that is
    not recognised, where nothing happens.  For an analyst whose name is
    falsy and in the roster the batch element is skipped and the discrete
    event is reconciled.  For the other kinds the two reconcilers do not do
    the same:
    - error: the same state and result, but only the legacy element is
      written, as a transient part;
    - progress: the legacy element reads its fields beside [type], so that
      [d] is ignored, and is always written; the discrete event updates the
      progress from [d] and is not written;
    - interview: only the legacy element writes the [data-interview] part,
      and only it asks for a truthy name before it appends;
    - search: the discrete event does nothing, the legacy element stores a
      completed search with a truthy result count;
    - section: the legacy element stores the preview, the discrete event,
      which has no id, does not, and writes the sections as they were. *)
Theorem reconcilers_agree (kind : string) (d : value) (m : Machine) :
  let legacy k :=
    processLangGraphEvent JSON_parse clock (VArr [legacy_element k d]) m in
  let typed k := processLangGraphEvent JSON_parse clock (discrete_event k d) m in
  let n := opt_prop d "name" in
  let known := processed_has (analysts (state m)) n in
  (truthy n = true \/ known = false -> legacy "analyst" = typed "analyst")
  /\ (truthy n = false -> known = true ->
      legacy "analyst" = (Some tt, m)
      /\ typed "analyst" = processV5DataPart clock (discrete_event "analyst" d) m
      /\ (nullish d = false ->
          typed "analyst"
          = (Some tt,
             emit (persistent "data-analysts"
                     (PAnalysts (upsert_analyst (analyst_of d) (analysts (state m)))))
               (with_analysts (upsert_analyst (analyst_of d) (analysts (state m)))
                  m))))
  /\ (recognized kind = false \/ kind = "metadata" ->
      legacy kind = (Some tt, m) /\ typed kind = (Some tt, m))
  /\ (state (snd (legacy "error")) = state (snd (typed "error"))
      /\ fst (legacy "error") = fst (typed "error")
      /\ (nullish d = false ->
          sink (snd (legacy "error"))
          = sink m ++ [transient "data-error" (PError (Some (error_of d)))]
          /\ sink (snd (typed "error")) = sink m))
  /\ (legacy "progress"
      = (Some tt,
         let p := {| current := current (progress (state m));
                     total := total (progress (state m));
                     message := VUndef |} in
         emit (transient "data-progress" (PProgress p (phase (state m))))
           (with_state (set_progress p (state m)) m))
      /\ sink (snd (typed "progress")) = sink m
      /\ (nullish d = false ->
          progress_effect (opt_prop d "current") (opt_prop d "total")
            (opt_prop d "message") (opt_prop d "phase") (state m)
            (state (snd (typed "progress")))))
  /\ (nullish d = false ->
      let fresh :=
        is_new_message (opt_prop d "analystName") (opt_prop d "messagePreview")
          (interviews (state m)) in
      sink (snd (legacy "interview"))
      = sink m
        ++ interview_hint d VUndef (clock (ticks m))
           :: (if fresh && truthy (opt_prop d "analystName")
               then [interviews_update (state (snd (legacy "interview")))]
               else [])
      /\ sink (snd (typed "interview"))
         = sink m
           ++ (if fresh then [interviews_update (state (snd (typed "interview")))]
               else []))
  /\ (nullish d = false ->
      typed "search" = (Some tt, m)
      /\ legacy "search"
         = (Some tt,
            if is_str (opt_prop d "status") "completed"
               && truthy (opt_prop d "resultsCount")
            then with_state
                   (set_searches (searches (state m) ++ [search_of d]) (state m)) m
            else m))
  /\ (nullish d = false ->
      let stored :=
        map_set (opt_prop d "analystName") (opt_prop d "contentPreview")
          (sections (state m)) in
      sections (state (snd (legacy "section"))) = stored
      /\ sink (snd (legacy "section"))
         = sink m ++ [persistent "data-sections" (PSections (fromEntries stored))]
      /\ sections (state (snd (typed "section"))) = sections (state m)
      /\ sink (snd (typed "section"))
         = sink m
           ++ [persistent "data-sections"
                 (PSections (fromEntries (sections (state m))))]).
Proof.
  cbv zeta.
  split; [| split; [| split; [| split; [| split; [| split; [| split]]]]]].
  - (* analyst, the guards agree *)
    intros Hguard.
    rewrite (single_element_batch JSON_parse clock), discrete_event_dispatch.
    cbn [String.eqb Ascii.eqb Bool.eqb andb].
    destruct (processed_has (analysts (state m)) (opt_prop d "name")) eqn:Ek.
    + destruct Hguard as [Ht | Hf]; [| discriminate]. rewrite Ht. reflexivity.
    + rewrite andb_false_r. apply (same_kind_same_result clock). reflexivity.
  - (* analyst, a falsy name in the roster *)
    intros Ht Hk.
    rewrite (single_element_batch JSON_parse clock), discrete_event_dispatch.
    cbn [String.eqb Ascii.eqb Bool.eqb andb]. rewrite Hk, Ht.
    split; [reflexivity |]. split; [reflexivity |].
    intros Hd.
    rewrite <- (same_kind_same_result clock "analyst" d m eq_refl).
    apply (legacy_analyst_step clock). exact Hd.
  - (* kinds that are ignored *)
    intros Hk.
    assert (Ha : (kind =? "analyst")%string = false).
    { destruct Hk as [H | ->]; [| reflexivity].
      unfold recognized in H. cbn [existsb] in H.
      apply orb_false_iff in H. apply H. }
    rewrite (single_element_batch JSON_parse clock), discrete_event_dispatch, Ha.
    cbn [andb]. rewrite unrecognized_is_ignored by exact Hk.
    split; [reflexivity |].
    destruct (kind =? "heartbeat")%string; [reflexivity |].
    rewrite <- (same_kind_same_result clock kind d m).
    + apply unrecognized_is_ignored. exact Hk.
    + unfold reconciled_alike. apply negb_true_iff.
      destruct Hk as [H | ->]; [| reflexivity].
      unfold recognized in H. cbn [existsb] in *.
      rewrite !orb_false_iff in *. tauto.
  - (* error *)
    destruct (other_kinds_dispatch "error" d m eq_refl eq_refl) as [-> ->].
    split; [| split].
    + destruct d; reflexivity.
    + destruct d; reflexivity.
    + intros Hd. destruct d; try discriminate; split; reflexivity.
  - (* progress *)
    destruct (other_kinds_dispatch "progress" d m eq_refl eq_refl) as [-> ->].
    split; [| split].
    + destruct m as [[] ? ?]. reflexivity.
    + unfold processV5DataPart, discrete_event, bind, get. simpl.
      destruct d; try reflexivity. simpl.
      destruct (truthy (lookup_field "phase" fields)); reflexivity.
    + intros Hd. unfold processV5DataPart, discrete_event, bind, get, progress_effect.
      unfold opt_prop.
      destruct d; try discriminate; simpl;
        try (destruct (truthy (lookup_field "phase" fields)));
        simpl; repeat split; reflexivity.
  - (* interview *)
    intros Hd.
    destruct (other_kinds_dispatch "interview" d m eq_refl eq_refl) as [-> ->].
    rewrite legacy_interview_element, discrete_interview_event.
    rewrite legacy_interview_step, (typed_interview_step d VUndef VUndef) by exact Hd.
    cbv zeta. split.
    + destruct (is_new_message _ _ _ && truthy _); reflexivity.
    + destruct (is_new_message _ _ _); simpl; [reflexivity |].
      symmetry. apply app_nil_r.
  - (* search *)
    intros Hd.
    destruct (other_kinds_dispatch "search" d m eq_refl eq_refl) as [-> ->].
    split; [reflexivity |].
    unfold processResearchEvent, legacy_element, bind, get, opt_prop. simpl.
    destruct d; try discriminate; simpl; try reflexivity.
    destruct (is_str (lookup_field "status" fields) "completed"
              && truthy (lookup_field "resultsCount" fields)); reflexivity.
  - (* section *)
    intros Hd.
    destruct (other_kinds_dispatch "section" d m eq_refl eq_refl) as [-> ->].
    unfold opt_prop.
    destruct d; try discriminate; repeat split; reflexivity.
Qed.

(** ** The roster over a whole stream *)

Ltac roster_leaf :=
  idtac;
  lazymatch goal with
  | |- preserves (roster_is _) (modify _) =>
      first
        [ let m := fresh "m" in let Hm := fresh "Hm" in intros m Hm; exact Hm
        | exfalso;
          match goal with
          | Hne : prop ?e "type" <> Some (VStr "analyst"),
            H : prop ?e "type" = Some ?a,
            E : is_str ?a "analyst" = true |- _ =>
              apply Hne; rewrite H; f_equal; apply strict_eq_eq; exact E
          | Hne : forall ty, prop ?e "type" = Some (VStr ty) -> _,
            H : prop ?e "type" = Some (VStr ?s),
            E : (replace_first "data-" ?s =? "analyst")%string = true |- _ =>
              apply (Hne s H); apply String.eqb_eq; exact E
          end ]
  | |- _ => frame_leaf
  end.


















(** *** The analysts of a whole stream *)





End RouteFurther.

(** * Properties of the message converters *)

Lemma concat_nonempty (sep : string) (l : list string) :
  Forall (fun s => nonempty s = true) l ->
  String.concat sep l = "" -> l = [].
Proof.
  intros Hl. destruct l as [|x l]; [reflexivity |].
  apply Forall_inv in Hl. destruct x as [|c x]; [discriminate |].
  cbn [String.concat]. destruct l; discriminate.
Qed.

Lemma content_texts_nonempty (parts : list UIMessagePart) :
  Forall (fun s => nonempty s = true) (content_texts parts).
Proof.
  unfold content_texts. rewrite Forall_forall. intros s Hs.
  apply list_elem_of_In, List.filter_In in Hs. apply Hs.
Qed.

Lemma content_texts_nil (parts : list UIMessagePart) :
  content_texts parts = [] <-> Forall no_text parts.
Proof.
  unfold content_texts. induction parts as [|p parts IH].
  - split; [constructor | reflexivity].
  - rewrite Forall_cons, <- IH.
    destruct p as [t | ? ? ? | t | ? ? ? | ? ?]; cbn [List.filter List.map is_text_or_reasoning no_text];
      try tauto.
    + destruct t; cbn [nonempty String.eqb negb]; [tauto |].
      split; [discriminate | intros [H _]; discriminate].
    + destruct t; cbn [nonempty String.eqb negb]; [tauto |].
      split; [discriminate | intros [H _]; discriminate].
Qed.

(** X22.  The content of a message is blank exactly when it has no content
    string, or an empty one, and none of its text and reasoning parts has
    text; files, tool calls and tool results never count.  A content string
    that is not empty is the content whatever the parts are; without one,
    a message with a single text part has the text of that part. *)
Theorem blank_content (message : UIMessage) :
  (extractContent message = ""
   <-> (ui_content message = None \/ ui_content message = Some "")
       /\ forall parts, ui_parts message = Some parts -> Forall no_text parts)
  /\ (forall c, ui_content message = Some c -> c <> "" ->
        extractContent message = c)
  /\ (forall t, (ui_content message = None \/ ui_content message = Some "") ->
        ui_parts message = Some [TextPart t] -> extractContent message = t).
Proof.
  unfold extractContent. split; [| split].
  - assert (Hparts : forall parts,
              String.concat paragraph_break (content_texts parts) = ""
              <-> Forall no_text parts).
    { intros parts. rewrite <- content_texts_nil. split.
      - apply concat_nonempty, content_texts_nonempty.
      - intros ->. reflexivity. }
    destruct (ui_content message) as [[|c r]|];
      destruct (ui_parts message) as [parts|];
      rewrite ?Hparts; split.
    all: try (intros [[H | H] _]; discriminate H).
    all: try discriminate.
    all: try (intros H; split; [auto |]; intros parts' [= <-]; exact H).
    all: try (intros [_ H]; exact (H parts eq_refl)).
    all: try (intros _; split; [auto | discriminate]).
    all: try (intros _; reflexivity).
  - intros c -> Hc. destruct c; [contradiction | reflexivity].
  - intros t Hc ->. destruct Hc as [-> | ->]; unfold content_texts;
      cbn [List.filter List.map is_text_or_reasoning];
      destruct t; reflexivity.
Qed.

Lemma no_reasoning_texts (parts : list UIMessagePart) :
  existsb is_reasoning parts = false ->
  List.filter nonempty
    (List.map (fun part =>
                 match part with
                 | TextPart t => t
                 | ReasoningPart t => ("[Reasoning] " ++ t)%string
                 | _ => ""
                 end)
       (List.filter is_text_or_reasoning parts))
  = content_texts parts.
Proof.
  unfold content_texts. induction parts as [|p parts IH]; [reflexivity |].
  cbn [existsb]. intros H. apply orb_false_iff in H as [Hp H].
  destruct p; try discriminate; cbn [List.filter is_text_or_reasoning List.map];
    rewrite (IH H); reflexivity.
Qed.

Lemma plain_content (message : UIMessage) :
  plain message = true ->
  lg_content (convertToLangGraphMessage message) = extractContent message.
Proof.
  unfold plain, convertToLangGraphMessage, extractContent.
  destruct (ui_parts message) as [[|part more]|].
  - intros _. destruct (ui_content message) as [[|c r]|]; reflexivity.
  - intros H. apply andb_true_iff in H as [Hr Hc].
    apply negb_true_iff in Hr.
    cbn [lg_content]. rewrite (no_reasoning_texts _ Hr).
    destruct (ui_content message) as [[|c r]|]; cbn [nonempty String.eqb negb orb] in Hc.
    + destruct (content_texts (part :: more)); reflexivity.
    + destruct (content_texts (part :: more)); [reflexivity | discriminate].
    + destruct (content_texts (part :: more)); reflexivity.
  - intros _. destruct (ui_content message) as [[|c r]|]; reflexivity.
Qed.

(** X23.  The messages the route sends upstream as context are those of
    the full converter without their ids and their additional arguments:
    one for each message of the request, in order, of the same type, and
    with the same content when the message has no reasoning part and not
    both a content string and a text part. *)
Theorem context_is_the_plain_conversion (messages : list UIMessage) :
  length (langGraphMessages messages) = length messages
  /\ forall i message,
       messages !! i = Some message ->
       exists lg,
         langGraphMessages messages !! i = Some lg
         /\ lg_type lg = lg_type (convertToLangGraphMessage message)
         /\ lg_id lg = None /\ lg_name lg = None /\ additional_kwargs lg = None
         /\ lg_content lg = extractContent message
         /\ (plain message = true ->
             lg_content lg = lg_content (convertToLangGraphMessage message)).
Proof.
  unfold langGraphMessages, convertSimpleToLangGraph. split.
  - rewrite !length_map. reflexivity.
  - intros i message Hi. eexists. split.
    + change (List.map ?f ?l) with (f <$> l).
      rewrite !list_lookup_fmap, Hi. reflexivity.
    + cbn [lg_type lg_id lg_name additional_kwargs lg_content simple_role
             simple_content].
      split; [| repeat split].
      * unfold convertToLangGraphMessage.
        destruct (ui_parts message) as [[|? ?]|]; destruct (ui_role message);
          reflexivity.
      * intros Hp. symmetry. apply plain_content, Hp.
Qed.

(** ** The two directions of the full converter *)

Lemma omap_app {A B : Type} (f : A -> option B) (l1 l2 : list A) :
  omap f (l1 ++ l2) = omap f l1 ++ omap f l2.
Proof.
  induction l1 as [|x l1 IH]; [reflexivity |].
  cbn [app omap list_omap]. destruct (f x); cbn; rewrite IH; reflexivity.
Qed.

Lemma omap_all {A B : Type} (f : A -> option B) (g : B -> A) (l : list B) :
  (forall b, f (g b) = Some b) -> omap f (List.map g l) = l.
Proof.
  intros H. induction l as [|b l IH]; [reflexivity |].
  cbn [List.map omap list_omap]. rewrite H. cbn. rewrite IH. reflexivity.
Qed.

Lemma omap_none {A B C : Type} (f : A -> option B) (g : C -> A) (l : list C) :
  (forall c, f (g c) = None) -> omap f (List.map g l) = [].
Proof.
  intros H. induction l as [|c l IH]; [reflexivity |].
  cbn [List.map omap list_omap]. rewrite H. exact IH.
Qed.

Lemma when_any_filled {A : Type} (o : option (list A)) :
  filled o = true ->
  when_any (match o with Some l => l | None => [] end) = o.
Proof. destruct o as [[|x l]|]; [discriminate | reflexivity | reflexivity]. Qed.

Lemma filled_when_any {A : Type} (l : list A) : filled (when_any l) = true.
Proof. destruct l; reflexivity. Qed.

(** What [convertToLangGraphMessages] builds is normal. *)
Lemma converted_is_normal (message : UIMessage) :
  normal (convertToLangGraphMessage message) = true.
Proof.
  unfold normal, convertToLangGraphMessage.
  destruct (ui_parts message) as [[|part more]|]; cbn [lg_name lg_id additional_kwargs].
  1, 3: destruct (ui_id message) as [[|c i]|];
        destruct (ui_metadata message) as [md|];
        try destruct (truthy md) eqn:Et; unfold normal_kwargs, has_keys; cbn;
        rewrite ?Et; reflexivity.
  set (parts := part :: more).
  pose proof (filled_when_any (omap attachment_of parts)) as Ha.
  pose proof (filled_when_any (omap tool_call_of parts)) as Hb.
  pose proof (filled_when_any (omap tool_result_of parts)) as Hc.
  destruct (when_any (omap attachment_of parts)) as [[|? ?]|];
    destruct (when_any (omap tool_call_of parts)) as [[|? ?]|];
    destruct (when_any (omap tool_result_of parts)) as [[|? ?]|];
    try discriminate;
    destruct (ui_id message) as [[|? ?]|];
    destruct (ui_metadata message) as [md|];
    try destruct (truthy md) eqn:Et;
    unfold normal_kwargs, has_keys; cbn; rewrite ?Et; reflexivity.
Qed.

(** The conversion written without the test on the length of the parts:
    with no part, the block it guards changes nothing. *)
Lemma convertToLangGraphMessage_parts (message : UIMessage) :
  let parts := match ui_parts message with Some l => l | None => [] end in
  let textParts :=
    List.filter nonempty
      (List.map (fun part =>
                   match part with
                   | TextPart t => t
                   | ReasoningPart t => ("[Reasoning] " ++ t)%string
                   | _ => ""
                   end)
         (List.filter is_text_or_reasoning parts)) in
  let kwargs :=
    {| attachments := when_any (omap attachment_of parts);
       tool_calls := when_any (omap tool_call_of parts);
       tool_results := when_any (omap tool_result_of parts);
       kw_metadata := None |} in
  let kwargs1 := if has_keys kwargs then Some kwargs else None in
  convertToLangGraphMessage message
  = {| lg_type := match ui_role message with
                  | RoleUser => human
                  | RoleAssistant => ai
                  | RoleSystem => lg_system
                  end;
       lg_content := match textParts with
                     | [] => match ui_content message with Some c => c | None => "" end
                     | _ => String.concat paragraph_break textParts
                     end;
       lg_id := match ui_id message with
                | Some i => if nonempty i then Some i else None
                | None => None
                end;
       lg_name := None;
       additional_kwargs :=
         match ui_metadata message with
         | Some md =>
             if truthy md then
               let spread := match kwargs1 with Some kw => kw | None => no_kwargs end in
               Some {| attachments := attachments spread;
                       tool_calls := tool_calls spread;
                       tool_results := tool_results spread;
                       kw_metadata := Some md |}
             else kwargs1
         | None => kwargs1
         end |}.
Proof.
  unfold convertToLangGraphMessage.
  destruct (ui_parts message) as [[|part more]|]; reflexivity.
Qed.

Lemma when_any_default {A : Type} (l : list A) :
  match when_any l with Some l' => l' | None => [] end = l.
Proof. destruct l; reflexivity. Qed.

(** X24.  Converting a message of [LangGraph] to a message of the user
    interface and back gives the message again exactly when it is normal:
    it has no name, its id is not the empty string, and its additional
    arguments, if any, hold no empty array and no falsy metadata and are not
    empty.  Whatever the message, the result of the two conversions is
    normal, and converting it once more changes nothing. *)
Theorem langgraph_round_trip (lgMsg : LangGraphMessage) :
  (convertToLangGraphMessage (convertFromLangGraphMessage lgMsg) = lgMsg
   <-> normal lgMsg = true)
  /\ normal (convertToLangGraphMessage (convertFromLangGraphMessage lgMsg)) = true
  /\ convertToLangGraphMessage
       (convertFromLangGraphMessage
          (convertToLangGraphMessage (convertFromLangGraphMessage lgMsg)))
     = convertToLangGraphMessage (convertFromLangGraphMessage lgMsg).
Proof.
  assert (Hback : forall lg, normal lg = true ->
            convertToLangGraphMessage (convertFromLangGraphMessage lg) = lg);
    [| split; [split; [intros <-; apply converted_is_normal | apply Hback]
              | split; [apply converted_is_normal
                       | apply Hback, converted_is_normal]]].
  clear lgMsg. intros lgMsg.
  intros Hn. rewrite convertToLangGraphMessage_parts. cbv zeta.
  destruct lgMsg as [ty c id nm kwo]. unfold normal in Hn.
  cbn [lg_name lg_id additional_kwargs] in Hn.
  apply andb_true_iff in Hn as [Hn Hkw]. apply andb_true_iff in Hn as [Hnm Hid].
  destruct nm; [discriminate |].
  unfold convertFromLangGraphMessage.
  cbn [ui_role ui_content ui_id ui_parts ui_metadata lg_type lg_content lg_id
         additional_kwargs].
  rewrite when_any_default.
  set (files := match kwo with
                | Some kw => match attachments kw with Some l => l | None => [] end
                | None => []
                end).
  set (calls := match kwo with
                | Some kw => match tool_calls kw with Some l => l | None => [] end
                | None => []
                end).
  set (results := match kwo with
                  | Some kw => match tool_results kw with Some l => l | None => [] end
                  | None => []
                  end).
  set (text := if nonempty c then [TextPart c] else []).
  assert (Hparts :
    text ++ match kwo with
            | Some kw =>
                match attachments kw with
                | Some l =>
                    List.map (fun a => FilePart (att_fileId a) (att_mimeType a) (att_data a)) l
                | None => []
                end
                ++ match tool_calls kw with
                   | Some l =>
                       List.map (fun c => ToolCallPart (call_id c) (call_name c) (call_args c)) l
                   | None => []
                   end
                ++ match tool_results kw with
                   | Some l =>
                       List.map (fun r => ToolResultPart (tool_call_id r) (tool_result r)) l
                   | None => []
                   end
            | None => []
            end
    = text
      ++ List.map (fun a => FilePart (att_fileId a) (att_mimeType a) (att_data a)) files
      ++ List.map (fun c => ToolCallPart (call_id c) (call_name c) (call_args c)) calls
      ++ List.map (fun r => ToolResultPart (tool_call_id r) (tool_result r)) results).
  { subst files calls results. destruct kwo as [kw|]; [| reflexivity].
    destruct (attachments kw), (tool_calls kw), (tool_results kw); reflexivity. }
  rewrite Hparts. clear Hparts.
  assert (Hfiles : omap attachment_of
                     (text
                      ++ List.map (fun a => FilePart (att_fileId a) (att_mimeType a) (att_data a)) files
                      ++ List.map (fun c => ToolCallPart (call_id c) (call_name c) (call_args c)) calls
                      ++ List.map (fun r => ToolResultPart (tool_call_id r) (tool_result r)) results)
                   = files).
  { rewrite !omap_app.
    rewrite (omap_all attachment_of _ files) by (intros []; reflexivity).
    rewrite (omap_none attachment_of _ calls) by reflexivity.
    rewrite (omap_none attachment_of _ results) by reflexivity.
    subst text. destruct (nonempty c); rewrite !app_nil_r; reflexivity. }
  assert (Hcalls : omap tool_call_of
                     (text
                      ++ List.map (fun a => FilePart (att_fileId a) (att_mimeType a) (att_data a)) files
                      ++ List.map (fun c => ToolCallPart (call_id c) (call_name c) (call_args c)) calls
                      ++ List.map (fun r => ToolResultPart (tool_call_id r) (tool_result r)) results)
                   = calls).
  { rewrite !omap_app.
    rewrite (omap_none tool_call_of _ files) by reflexivity.
    rewrite (omap_all tool_call_of _ calls) by (intros []; reflexivity).
    rewrite (omap_none tool_call_of _ results) by reflexivity.
    subst text. destruct (nonempty c); rewrite !app_nil_r; reflexivity. }
  assert (Hresults : omap tool_result_of
                     (text
                      ++ List.map (fun a => FilePart (att_fileId a) (att_mimeType a) (att_data a)) files
                      ++ List.map (fun c => ToolCallPart (call_id c) (call_name c) (call_args c)) calls
                      ++ List.map (fun r => ToolResultPart (tool_call_id r) (tool_result r)) results)
                   = results).
  { rewrite !omap_app.
    rewrite (omap_none tool_result_of _ files) by reflexivity.
    rewrite (omap_none tool_result_of _ calls) by reflexivity.
    rewrite (omap_all tool_result_of _ results) by (intros []; reflexivity).
    subst text. destruct (nonempty c); reflexivity. }
  rewrite Hfiles, Hcalls, Hresults. clear Hfiles Hcalls Hresults.
  assert (Htext : List.filter is_text_or_reasoning
                    (text
                     ++ List.map (fun a => FilePart (att_fileId a) (att_mimeType a) (att_data a)) files
                     ++ List.map (fun c => ToolCallPart (call_id c) (call_name c) (call_args c)) calls
                     ++ List.map (fun r => ToolResultPart (tool_call_id r) (tool_result r)) results)
                  = text).
  { rewrite !List.filter_app.
    assert (H1 : forall l, List.filter is_text_or_reasoning
                   (List.map (fun a => FilePart (att_fileId a) (att_mimeType a) (att_data a)) l) = [])
      by (induction l; [reflexivity | assumption]).
    assert (H2 : forall l, List.filter is_text_or_reasoning
                   (List.map (fun c => ToolCallPart (call_id c) (call_name c) (call_args c)) l) = [])
      by (induction l; [reflexivity | assumption]).
    assert (H3 : forall l, List.filter is_text_or_reasoning
                   (List.map (fun r => ToolResultPart (tool_call_id r) (tool_result r)) l) = [])
      by (induction l; [reflexivity | assumption]).
    rewrite H1, H2, H3, !app_nil_r.
    subst text. destruct (nonempty c); reflexivity. }
  rewrite Htext. clear Htext.
  f_equal.
  - destruct ty; reflexivity.
  - subst text. destruct c as [|a c]; [reflexivity |].
    cbn [nonempty String.eqb negb List.map List.filter]. reflexivity.
  - destruct id as [[|a i]|]; [discriminate | reflexivity | reflexivity].
  - subst files calls results. destruct kwo as [kw|]; [| reflexivity].
    destruct kw as [fs cs rs md]. unfold normal_kwargs in Hkw.
    cbn [attachments tool_calls tool_results kw_metadata] in *.
    destruct fs as [[|? ?]|]; destruct cs as [[|? ?]|]; destruct rs as [[|? ?]|];
      try discriminate; destruct md as [md|]; try discriminate;
      try (destruct (truthy md) eqn:Et; [| discriminate]);
      cbn; rewrite ?Et; reflexivity.
Qed.

(** X25.  The content of a message of [LangGraph] survives the conversion
    to a message of the user interface: [extractContent] reads it back,
    whatever the additional arguments are; and so does the type, as the
    role. *)
Theorem content_survives_conversion (lgMsg : LangGraphMessage) :
  extractContent (convertFromLangGraphMessage lgMsg) = lg_content lgMsg
  /\ lg_type (convertToLangGraphMessage (convertFromLangGraphMessage lgMsg))
     = lg_type lgMsg.
Proof.
  split.
  - unfold extractContent, convertFromLangGraphMessage.
    cbn [ui_content ui_parts].
    destruct (lg_content lgMsg) as [|a c]; [| reflexivity].
    cbn [nonempty String.eqb negb app].
    set (rest := match additional_kwargs lgMsg with Some _ => _ | None => _ end).
    assert (Hrest : Forall no_text rest).
    { subst rest. destruct (additional_kwargs lgMsg) as [kw|]; [| constructor].
      destruct (attachments kw), (tool_calls kw), (tool_results kw);
        repeat (apply Forall_app; split); try constructor;
        rewrite Forall_forall; intros x Hx;
        apply list_elem_of_fmap in Hx as (y & -> & _); exact I. }
    destruct rest as [|p ps]; [reflexivity |]. cbn [when_any].
    apply content_texts_nil in Hrest. rewrite Hrest. reflexivity.
  - rewrite convertToLangGraphMessage_parts. cbv zeta.
    unfold convertFromLangGraphMessage. cbn [lg_type ui_role].
    destruct (lg_type lgMsg); reflexivity.
Qed.

(** * Instances of the further properties *)

Lemma acknowledged_events_instance :
  processLangGraphEvent example_parse example_clock (VObj heartbeat) (start "t")
  = (Some tt, start "t").
Proof.
  apply (acknowledged_events_are_dropped example_parse example_clock heartbeat
           "data-heartbeat"); [reflexivity | left; reflexivity].
Defined.

Lemma custom_event_instance :
  processLangGraphEvent example_parse example_clock
    (VObj [("type", VStr "custom"); ("data", batch_value)]) (start "t")
  = processLangGraphEvent example_parse example_clock batch_value (start "t").
Proof.
  apply (proj1 (custom_event_is_a_batch example_parse example_clock
                  [("type", VStr "custom"); ("data", batch_value)] (start "t")
                  eq_refl)).
  reflexivity.
Defined.

Lemma malformed_tokens_instance :
  processLangGraphEvent example_parse example_clock (VStr " 3:{oops ") (start "t")
  = (Some tt, start "t").
Proof.
  apply (malformed_tokens_are_dropped example_parse example_clock " 3:{oops ").
  - reflexivity.
  - intros H. vm_compute in H. discriminate H.
  - intros _. reflexivity.
Defined.

Lemma unterminated_tail_instance :
  streamFromLangGraph example_parse example_clock
    (example_chunks ++ ["data: 5"]) (start "t")
  = streamFromLangGraph example_parse example_clock example_chunks (start "t").
Proof.
  apply (proj2 (unterminated_tail_is_dropped example_parse example_clock
                  example_chunks "data: 5" (start "t") eq_refl)).
Defined.

Lemma typed_section_instance :
  let without_id :=
    snd (processV5DataPart example_clock
           (typed_event "section" section_of_A VUndef VUndef) (start "t")) in
  sections (state without_id) = []
  /\ sink without_id = [persistent "data-sections" (PSections ∅)].
Proof.
  cbv zeta.
  rewrite (typed_section_needs_id example_clock section_of_A VUndef VUndef
             (start "t") eq_refl).
  split; reflexivity.
Defined.

Lemma sections_instance :
  exists m',
    processResearchEvent example_clock (legacy_element "section" section_of_A)
      (start "t") = (Some tt, m')
    /\ fromEntries (sections (state m')) = <["A" := VStr "Preview"]> ∅.
Proof.
  destruct (sections_are_kept_by_name example_clock section_of_A VUndef VUndef "A"
              (start "t") eq_refl eq_refl)
    as [(m' & Hrun & _ & Hobj & _) _].
  - split; constructor.
  - exists m'. split; [exact Hrun | exact Hobj].
Defined.

Lemma redelivered_analysts_instance :
  let line := AnalystBatch [person "A" "R1"; person "B" "R"] in
  let m1 := snd (processLangGraphEvent example_parse example_clock
                   (line_event line) (start "t")) in
  processLangGraphEvent example_parse example_clock (line_event line) m1
  = (Some tt, m1).
Proof.
  cbv zeta.
  apply (redelivered_analysts_are_dropped example_parse example_clock
           (AnalystBatch [person "A" "R1"; person "B" "R"]) (start "t")).
  repeat constructor.
Defined.

Lemma interview_parts_instance :
  let legacy := snd (reconcile_interview example_clock
                       (LegacyInterview question VUndef) (start "t")) in
  let typed := snd (reconcile_interview example_clock
                      (TypedInterview question VUndef (VBool true)) (start "t")) in
  sink legacy
  = [interview_hint question VUndef (example_clock 0);
     interviews_update (state legacy)]
  /\ sink typed = [interviews_update (state typed)].
Proof.
  cbv zeta.
  destruct (interview_parts example_clock question VUndef VUndef (VBool true)
              (start "t") eq_refl) as [Hlegacy Htyped].
  split; [exact Hlegacy | exact Htyped].
Defined.

Lemma interview_message_instance :
  let legacy := snd (reconcile_interview example_clock
                       (LegacyInterview question VUndef) (start "t")) in
  interviews (state legacy)
  = [(VStr "A", [{| msg_analystName := VStr "A"; msg_role := VStr "user";
                    content := VStr "Q1";
                    timestamp := VStr (example_clock 1) |}])].
Proof.
  cbv zeta.
  destruct (interview_message example_clock question VUndef VUndef VUndef
              (start "t") eq_refl) as [Hlegacy _].
  rewrite Hlegacy. reflexivity.
Defined.

Lemma refused_stream_instance :
  sink (execute example_parse example_clock
          (NotOk 500 "Internal Server Error" "boom") (start "esg"))
  = [research_state_part "esg";
     transient "data-error"
       (PError (Some {| err_message :=
                          VStr "Failed to start research: 500 Internal Server Error - boom";
                        err_type := VStr "Error" |}))].
Proof.
  rewrite (proj1 (every_stream_has_one_closing_part example_parse example_clock "esg")
             (NotOk 500 "Internal Server Error" "boom")
             (refusal 500 "Internal Server Error" "boom") eq_refl I).
  vm_compute. reflexivity.
Defined.

Lemma post_streams_instance :
  POST example_parse example_clock
    (Some [panel_message "first"; greeting; panel_message "esg"; greeting])
    true NoBody
  = Stream (sink (execute example_parse example_clock NoBody (start "esg"))).
Proof.
  apply (proj2 (post_streams_iff example_parse example_clock
                  (Some [panel_message "first"; greeting; panel_message "esg"; greeting])
                  true NoBody _)).
  split; [reflexivity |].
  exists [panel_message "first"; greeting], (panel_message "esg"), [greeting].
  split; [reflexivity |]. split; [reflexivity |].
  split; [repeat constructor; discriminate |].
  split; [discriminate | reflexivity].
Defined.

Lemma request_checks_instance :
  POST example_parse example_clock (Some [greeting; panel_message "  "]) true NoBody
  = BadRequest
  /\ POST example_parse example_clock (Some [greeting]) true NoBody = BadRequest.
Proof.
  split.
  - apply (proj2 (proj2 (proj2 (request_checks_are_ordered example_parse example_clock
                                  [greeting; panel_message "  "] true NoBody)))
             [greeting] (panel_message "  ") []); try reflexivity.
    constructor.
  - apply (proj1 (proj2 (proj2 (request_checks_are_ordered example_parse example_clock
                                  [greeting] true NoBody)))).
    repeat constructor. discriminate.
Defined.

Lemma known_analysts_instance :
  let m1 := snd (processLangGraphEvent example_parse example_clock batch_value
                   (start "t")) in
  processLangGraphEvent example_parse example_clock
    (typed_event "analyst" (person "A" "R9") VUndef VUndef) m1
  = (Some tt, m1).
Proof.
  cbv zeta.
  apply (proj2 (known_analysts_are_dropped example_parse example_clock []
                  (person "A" "R9") VUndef VUndef _)); reflexivity.
Defined.

Lemma blank_content_instance :
  extractContent
    {| ui_id := None; ui_role := RoleUser; ui_content := Some "";
       ui_parts := Some [FilePart "f1" "image/png" "AAAA"; TextPart ""];
       ui_metadata := None |} = ""
  /\ extractContent (panel_message "esg") = "esg".
Proof.
  split.
  - apply (proj1 (blank_content _)). split; [right; reflexivity |].
    intros parts [= <-]. repeat constructor.
  - apply (proj2 (proj2 (blank_content (panel_message "esg"))) "esg");
      [left; reflexivity | reflexivity].
Defined.

Lemma plain_conversion_instance :
  exists lg,
    langGraphMessages [greeting; panel_message "esg"] !! 1 = Some lg
    /\ lg_type lg = human /\ lg_content lg = "esg".
Proof.
  destruct (proj2 (context_is_the_plain_conversion [greeting; panel_message "esg"])
              1 (panel_message "esg") eq_refl)
    as (lg & Hlg & Hty & _ & _ & _ & Hc & _).
  exists lg. split; [exact Hlg |]. split; [exact Hty | exact Hc].
Defined.

Lemma round_trip_instance :
  convertToLangGraphMessage (convertFromLangGraphMessage tool_message)
  = tool_message.
Proof.
  apply (proj1 (langgraph_round_trip tool_message)). reflexivity.
Defined.

(** * Instances of the comparison of the two shapes *)

(** The search of the specification, completed with five results: the
    legacy element stores it, the discrete event does not. *)
Lemma search_shapes_differ :
  ~ same_behaviour example_parse example_clock "search" completed_search (start "t").
Proof.
  unfold same_behaviour. intros [H _].
  apply (f_equal searches) in H. vm_compute in H. discriminate.
Qed.

Lemma reconcilers_agree_on_analyst :
  let legacy := processLangGraphEvent example_parse example_clock
                  (VArr [legacy_element "analyst" (person "A" "R1")]) (start "t") in
  let typed := processLangGraphEvent example_parse example_clock
                 (discrete_event "analyst" (person "A" "R1")) (start "t") in
  legacy = typed
  /\ analysts (state (snd typed)) = [analyst_of (person "A" "R1")]
  /\ sink (snd typed)
     = [persistent "data-analysts" (PAnalysts [analyst_of (person "A" "R1")])].
Proof.
  cbv zeta.
  destruct (reconcilers_agree example_parse example_clock "analyst" (person "A" "R1")
              (start "t")) as (Hagree & _).
  split; [apply Hagree; left; reflexivity |].
  split; reflexivity.
Defined.

(** ** The terminal part of a stream that mixes shapes and kinds *)

